(** * CareerCatalyst: the job-platform aggregation layer

    A shallow embedding of the platform adapters
    ([server/services/indeed-service.ts], [linkedin-service.ts]), of the
    adapter registry ([server/services/job-service-factory.ts]), of the
    Map-backed persistence layer ([server/storage.ts]) and of the
    [/job-platform/search] and [/job-platform/apply] handlers of
    [server/routes.ts], followed by the properties established for them. *)

From Stdlib Require Import ZArith List String Ascii Bool Lia DecimalString.
From stdpp Require Import base gmap strings list.

#[local] Set Warnings "-register-all".
#[local] Open Scope Z_scope.

(* ===================================================================== *)
(** * JavaScript values

    The adapters receive credentials and platform payloads typed [any]; they
    are modelled as JSON-shaped values with the language's own coercions
    written out.  The numbers a value holds are integers, and arithmetic on
    them rounds as the doubles of JavaScript do; a string is the list of the
    bytes of its UTF-8 form; an object is the list of its own properties,
    the first binding of a key being the one that is read. *)
(* ===================================================================== *)

Module Js.

Inductive value : Type :=
| Undefined
| Null
| Bool (b : bool)
| Num (n : Z)
| Str (s : string)
| Arr (elements : list value)
| Obj (fields : list (string * value)).

(** ToBoolean: [undefined], [null], [false], [0] and the empty string are
    falsy. *)
Definition truthy (v : value) : bool :=
  match v with
  | Undefined | Null => false
  | Bool b => b
  | Num n => negb (n =? 0)
  | Str s => negb (String.eqb s EmptyString)
  | Arr _ | Obj _ => true
  end.

(** [a || b] *)
Definition or_else (a b : value) : value := if truthy a then a else b.

(** [v == null] *)
Definition nullish (v : value) : bool :=
  match v with Undefined | Null => true | _ => false end.

Fixpoint assoc (k : string) (fs : list (string * value)) : value :=
  match fs with
  | [] => Undefined
  | (k', v) :: rest => if String.eqb k k' then v else assoc k rest
  end.

(** [v.k] for a [v] that is neither [null] nor [undefined].  The handlers
    and adapters only read data fields ([jobkey], [title], [userId], ...),
    none of which exists on the prototypes of strings, numbers, booleans,
    arrays or plain objects, so the read is [undefined] off an object. *)
Definition get (v : value) (k : string) : value :=
  match v with
  | Obj fs => assoc k fs
  | _ => Undefined
  end.

(** [a === b].  Arrays and objects are compared by reference; every array or
    object met here was freshly parsed from a response or a stored document,
    so two of them are never the same reference. *)
Definition strict_eq (a b : value) : bool :=
  match a, b with
  | Undefined, Undefined => true
  | Null, Null => true
  | Bool x, Bool y => Bool.eqb x y
  | Num x, Num y => x =? y
  | Str x, Str y => String.eqb x y
  | _, _ => false
  end.

Definition is_string (v : value) : bool :=
  match v with Str _ => true | _ => false end.

Definition Z_to_string (n : Z) : string := NilZero.string_of_int (Z.to_int n).

(** ** Numbers

    A JavaScript number is an IEEE 754 double.  The numbers held in a value
    are the integers, [Num n]; the arithmetic of the adapters and [ToNumber]
    applied to a string can leave them, so their results are kept in
    [number]: a finite double [m * 2 ^ e], an infinity, or [NaN].  The sign
    of a zero is not kept (no comparison and no conversion to a string
    depends on it). *)
Inductive number : Type :=
| Finite (m e : Z)
| Infinity (negative : bool)
| NaN.

(** Every integer of magnitude up to [2 ^ 53] is a double. *)
Definition two53 : Z := 9007199254740992.

(** [a / b] rounded to the nearest integer, a tie going to the even one
    ([0 <= a], [0 < b]). *)
Definition div_half_even (a b : Z) : Z :=
  let q := a / b in
  let r := a mod b in
  if 2 * r <? b then q
  else if b <? 2 * r then q + 1
  else if Z.even q then q else q + 1.

(** The [k] with [2 ^ k <= a / b < 2 ^ (k + 1)] ([0 < a], [0 < b]). *)
Definition log2_ratio (a b : Z) : Z :=
  let k := Z.log2 a - Z.log2 b in
  if (if 0 <=? k then b * 2 ^ k <=? a else b <=? a * 2 ^ (- k)) then k else k - 1.

(** The double nearest to the rational [a / b] ([0 < a], [0 < b]): 53
    significant bits, the exponent of the last bit at least [-1074], round
    to nearest with ties to even; what rounds to [2 ^ 1024] or more is
    [Infinity].  An integer result below [2 ^ 53] is written [Finite n 0]. *)
Definition round_ratio (a b : Z) : number :=
  let e := Z.max (-1074) (log2_ratio a b - 52) in
  let m := if 0 <=? e then div_half_even a (b * 2 ^ e)
           else div_half_even (a * 2 ^ (- e)) b in
  if (971 <? e) || ((e =? 971) && (m =? two53)) then Infinity false
  else if (e <? 0) && (m mod 2 ^ (- e) =? 0) then Finite (m / 2 ^ (- e)) 0
  else Finite m e.

Definition round_signed (negative : bool) (a b : Z) : number :=
  if a =? 0 then Finite 0 0
  else match round_ratio a b with
       | Finite m e => Finite (if negative then - m else m) e
       | Infinity _ => Infinity negative
       | NaN => NaN
       end.

(** The double nearest to an integer. *)
Definition of_int (n : Z) : number :=
  if Z.abs n <=? two53 then Finite n 0
  else round_signed (n <? 0) (Z.abs n) 1.

(** [a * b] for two integers, and [x + k] for an integer [k]: the exact
    result, rounded. *)
Definition mul (a b : Z) : number := of_int (a * b).

Definition add (x : number) (k : Z) : number :=
  match x with
  | Finite m e =>
      if 0 <=? e then of_int (m * 2 ^ e + k)
      else
        let s := m + k * 2 ^ (- e) in
        round_signed (s <? 0) (Z.abs s) (2 ^ (- e))
  | Infinity negative => Infinity negative
  | NaN => NaN
  end.

(** [x < y]: false as soon as one side is [NaN]. *)
Definition lt (x y : number) : bool :=
  match x, y with
  | NaN, _ | _, NaN => false
  | Infinity nx, Infinity ny => nx && negb ny
  | Infinity nx, Finite _ _ => nx
  | Finite _ _, Infinity ny => negb ny
  | Finite m1 e1, Finite m2 e2 =>
      let e := Z.min e1 e2 in
      m1 * 2 ^ (e1 - e) <? m2 * 2 ^ (e2 - e)
  end.

(** *** [Number.prototype.toString]

    The digits are the shortest decimal numeral [s * 10 ^ j] that reads
    back as the number, the nearest to it when there are several. *)

(** The least [n >= n0] with [a / b < 10 ^ n]. *)
Fixpoint decimal_exponent (fuel : nat) (a b n0 : Z) : Z :=
  match fuel with
  | O => n0
  | S fuel' =>
      if (if 0 <=? n0 then a <? b * 10 ^ n0 else a * 10 ^ (- n0) <? b) then n0
      else decimal_exponent fuel' a b (n0 + 1)
  end.

(** [s * 10 ^ j] rounds to the double [a / b]. *)
Definition reads_back (a b s j : Z) : bool :=
  match (if 0 <=? j then round_ratio (s * 10 ^ j) 1 else round_ratio s (10 ^ (- j))) with
  | Finite m e => if 0 <=? e then m * 2 ^ e * b =? a else m * b =? a * 2 ^ (- e)
  | _ => false
  end.

(** The numeral with the fewest digits, from [k] digits on, for [a / b]
    below [10 ^ n]: with [k] digits the two candidates are the numerals
    around [a / b]. *)
Fixpoint shortest (fuel : nat) (a b n k : Z) : Z * Z :=
  let j := n - k in
  let ta := if 0 <=? j then a else a * 10 ^ (- j) in
  let tb := if 0 <=? j then b * 10 ^ j else b in
  let lo := ta / tb in
  let hi := lo + 1 in
  let lo_reads := reads_back a b lo j in
  let hi_reads := reads_back a b hi j in
  let below := ta - lo * tb in
  let above := hi * tb - ta in
  if lo_reads && hi_reads then
    if below <? above then (lo, j)
    else if above <? below then (hi, j)
    else if Z.even lo then (lo, j) else (hi, j)
  else if lo_reads then (lo, j)
  else if hi_reads then (hi, j)
  else match fuel with
       | O => (lo, j)
       | S fuel' => shortest fuel' a b n (k + 1)
       end.

(** Trailing zeros move from the digits to the exponent. *)
Fixpoint strip_zeros (fuel : nat) (s j : Z) : Z * Z :=
  match fuel with
  | O => (s, j)
  | S fuel' =>
      if (s mod 10 =? 0) && negb (s =? 0) then strip_zeros fuel' (s / 10) (j + 1)
      else (s, j)
  end.

Fixpoint zeros (n : nat) : string :=
  match n with
  | O => EmptyString
  | S n' => String "0" (zeros n')
  end.

(** The digits [s] with the decimal point [j] places to the right of their
    end, laid out as [toString] does. *)
Definition layout (s j : Z) : string :=
  let ds := Z_to_string s in
  let k := Z.of_nat (String.length ds) in
  let n := k + j in
  if (k <=? n) && (n <=? 21) then ds +:+ zeros (Z.to_nat (n - k))
  else if (0 <? n) && (n <=? 21)
  then String.substring 0 (Z.to_nat n) ds +:+ "."
       +:+ String.substring (Z.to_nat n) (Z.to_nat (k - n)) ds
  else if (-6 <? n) && (n <=? 0) then "0." +:+ zeros (Z.to_nat (- n)) +:+ ds
  else
    (if k =? 1 then ds
     else String.substring 0 1 ds +:+ "."
          +:+ String.substring 1 (Z.to_nat (k - 1)) ds)
    +:+ "e" +:+ (if 0 <=? n - 1 then "+" else "-") +:+ Z_to_string (Z.abs (n - 1)).

Definition number_to_string (x : number) : string :=
  match x with
  | NaN => "NaN"
  | Infinity negative => if negative then "-Infinity" else "Infinity"
  | Finite m e =>
      if (e =? 0) && (Z.abs m <? two53) then Z_to_string m
      else if m =? 0 then "0"
      else
        let a := if 0 <=? e then Z.abs m * 2 ^ e else Z.abs m in
        let b := if 0 <=? e then 1 else 2 ^ (- e) in
        let n := decimal_exponent 700 a b (-330) in
        let '(s, j) := shortest 16 a b n 1 in
        let '(s, j) := strip_zeros 400 s j in
        (if m <? 0 then "-" else EmptyString) +:+ layout s j
  end.

(** ToString, as applied by template literals and by [URLSearchParams]. *)
Fixpoint to_string (v : value) : string :=
  match v with
  | Undefined => "undefined"
  | Null => "null"
  | Bool b => if b then "true" else "false"
  | Num n => number_to_string (of_int n)
  | Str s => s
  | Arr xs =>
      String.concat ","
        (List.map (fun x => match x with
                            | Undefined | Null => EmptyString
                            | _ => to_string x
                            end) xs)
  | Obj _ => "[object Object]"
  end.

(** *** [StringToNumber]

    A string is the list of the bytes of its UTF-8 form. *)
Definition codes (s : string) : list Z :=
  List.map (fun c => Z.of_nat (nat_of_ascii c)) (list_ascii_of_string s).

(** One white space or line terminator at the head: TAB, LF, VT, FF, CR,
    SP, U+00A0, U+1680, U+2000 to U+200A, U+2028, U+2029, U+202F, U+205F,
    U+3000, U+FEFF. *)
Definition white_space (cs : list Z) : option (list Z) :=
  match cs with
  | c1 :: r1 =>
      if ((9 <=? c1) && (c1 <=? 13)) || (c1 =? 32) then Some r1
      else
        match r1 with
        | c2 :: r2 =>
            if (c1 =? 194) && (c2 =? 160) then Some r2
            else
              match r2 with
              | c3 :: r3 =>
                  if ((c1 =? 225) && (c2 =? 154) && (c3 =? 128))
                     || ((c1 =? 226) && (c2 =? 128)
                         && (((128 <=? c3) && (c3 <=? 138))
                             || (c3 =? 168) || (c3 =? 169) || (c3 =? 175)))
                     || ((c1 =? 226) && (c2 =? 129) && (c3 =? 159))
                     || ((c1 =? 227) && (c2 =? 128) && (c3 =? 128))
                     || ((c1 =? 239) && (c2 =? 187) && (c3 =? 191))
                  then Some r3 else None
              | [] => None
              end
        | [] => None
        end
  | [] => None
  end.

Fixpoint skip_white_space (fuel : nat) (cs : list Z) : list Z :=
  match fuel with
  | O => cs
  | S fuel' =>
      match white_space cs with
      | Some rest => skip_white_space fuel' rest
      | None => cs
      end
  end.

(** Only white space is left. *)
Definition ends (cs : list Z) : bool :=
  match skip_white_space (List.length cs) cs with
  | [] => true
  | _ => false
  end.

Definition digit (base c : Z) : option Z :=
  let d := if (48 <=? c) && (c <=? 57) then c - 48
           else if (97 <=? c) && (c <=? 102) then c - 87
           else if (65 <=? c) && (c <=? 70) then c - 55
           else base in
  if d <? base then Some d else None.

(** The longest run of digits at the head: its value on top of [acc], the
    number of digits on top of [count], and what follows. *)
Fixpoint digits (base : Z) (cs : list Z) (acc count : Z) : Z * Z * list Z :=
  match cs with
  | c :: rest =>
      match digit base c with
      | Some d => digits base rest (acc * base + d) (count + 1)
      | None => (acc, count, cs)
      end
  | [] => (acc, count, [])
  end.

Fixpoint starts_with (prefix cs : list Z) : option (list Z) :=
  match prefix, cs with
  | [], _ => Some cs
  | p :: prefix', c :: cs' => if p =? c then starts_with prefix' cs' else None
  | _ :: _, [] => None
  end.

(** [0x], [0o], [0b] in either case: the base and what follows. *)
Definition non_decimal (cs : list Z) : option (Z * list Z) :=
  match cs with
  | c1 :: c2 :: rest =>
      if c1 =? 48 then
        if (c2 =? 120) || (c2 =? 88) then Some (16, rest)
        else if (c2 =? 111) || (c2 =? 79) then Some (8, rest)
        else if (c2 =? 98) || (c2 =? 66) then Some (2, rest)
        else None
      else None
  | _ => None
  end.

(** An optional sign. *)
Definition sign (cs : list Z) : bool * list Z :=
  match cs with
  | c :: rest =>
      if c =? 45 then (true, rest)
      else if c =? 43 then (false, rest)
      else (false, cs)
  | [] => (false, [])
  end.

(** An exponent part, if one stands at the head: its value and what
    follows. *)
Definition exponent_part (cs : list Z) : Z * list Z :=
  match cs with
  | c :: rest =>
      if (c =? 101) || (c =? 69) then
        let '(negative, rest') := sign rest in
        let '(x, count, rest'') := digits 10 rest' 0 0 in
        if count =? 0 then (0, cs)
        else (if negative then - x else x, rest'')
      else (0, cs)
  | [] => (0, [])
  end.

(** An unsigned decimal literal at the head ([12], [12.], [12.5], [.5],
    each with an optional exponent part): the digits [m] and the exponent
    [x] of its value [m * 10 ^ x], and what follows. *)
Definition unsigned_decimal (cs : list Z) : option (Z * Z * list Z) :=
  let '(i, ci, r1) := digits 10 cs 0 0 in
  let '(m, cf, r2) :=
    match r1 with
    | c :: r => if c =? 46 then digits 10 r i 0 else (i, 0, r1)
    | [] => (i, 0, r1)
    end in
  if ci + cf =? 0 then None
  else
    let '(x, r3) := exponent_part r2 in
    Some (m, x - cf, r3).

Definition of_decimal (negative : bool) (m x : Z) : number :=
  if 0 <=? x then round_signed negative (m * 10 ^ x) 1
  else round_signed negative m (10 ^ (- x)).

Definition string_to_number (s : string) : number :=
  let cs := codes s in
  let cs := skip_white_space (List.length cs) cs in
  match cs with
  | [] => Finite 0 0
  | _ :: _ =>
      match non_decimal cs with
      | Some (base, r) =>
          let '(v, count, r') := digits base r 0 0 in
          if (0 <? count) && ends r' then of_int v else NaN
      | None =>
          let '(negative, r) := sign cs in
          match starts_with (codes "Infinity") r with
          | Some r' => if ends r' then Infinity negative else NaN
          | None =>
              match unsigned_decimal r with
              | Some (m, x, r') => if ends r' then of_decimal negative m x else NaN
              | None => NaN
              end
          end
      end
  end.

(** ToNumber; an array or object goes through its string. *)
Definition to_number (v : value) : number :=
  match v with
  | Undefined => NaN
  | Null => Finite 0 0
  | Bool b => Finite (if b then 1 else 0) 0
  | Num n => Finite n 0
  | Str s => string_to_number s
  | Arr _ | Obj _ => string_to_number (to_string v)
  end.

(** [x < v] for a number [x], and [n > v] for an integer [n]. *)
Definition num_lt (x : number) (v : value) : bool := lt x (to_number v).

Definition num_gt (n : Z) (v : value) : bool := lt (to_number v) (Finite n 0).

Arguments of_int : simpl never.
Arguments mul : simpl never.
Arguments add : simpl never.
Arguments lt : simpl never.
Arguments number_to_string : simpl never.
Arguments string_to_number : simpl never.

(** Own enumerable properties, as copied by an object spread. *)
Fixpoint indexed {A} (i : nat) (xs : list A) : list (string * A) :=
  match xs with
  | [] => []
  | x :: rest => (NilZero.string_of_uint (Nat.to_uint i), x) :: indexed (S i) rest
  end.

Fixpoint chars (s : string) : list value :=
  match s with
  | EmptyString => []
  | String c rest => Str (String c EmptyString) :: chars rest
  end.

Definition own_fields (v : value) : list (string * value) :=
  match v with
  | Obj fs => fs
  | Arr xs => indexed 0 xs
  | Str s => indexed 0 (chars s)
  | _ => []
  end.

Fixpoint set_field (k : string) (v : value) (fs : list (string * value))
  : list (string * value) :=
  match fs with
  | [] => [(k, v)]
  | (k', v') :: rest =>
      if String.eqb k k' then (k, v) :: rest else (k', v') :: set_field k v rest
  end.

(** [{ ...o, k: v }]. *)
Definition spread_with (o : value) (k : string) (v : value) : value :=
  Obj (set_field k v (own_fields o)).

(** Exceptions.  [Error m] is an error object carrying message [m] (thrown
    by the code, or the reason of a rejected promise);
    [TypeError_read v k] is the engine's error for reading property [k] of
    [v] when [v] is [null] or [undefined]; [TypeError_call k] the one for
    calling a property [k] that is not a function. *)
Inductive exn : Type :=
| Error (message : string)
| TypeError_read (target : value) (k : string)
| TypeError_call (k : string).

Definition res (A : Type) : Type := (exn + A)%type.

Definition throw {A} (e : exn) : res A := inl e.
Definition ret {A} (a : A) : res A := inr a.
Definition bind {A B} (m : res A) (f : A -> res B) : res B :=
  match m with
  | inl e => inl e
  | inr a => f a
  end.

(** [v.k], raising on [null] and [undefined]. *)
Definition get_prop (v : value) (k : string) : res value :=
  if nullish v then throw (TypeError_read v k) else ret (get v k).

(** [xs.map(f)] for a callback that may raise. *)
Fixpoint map_res {A B} (f : A -> res B) (xs : list A) : res (list B) :=
  match xs with
  | [] => ret []
  | x :: rest =>
      bind (f x) (fun y => bind (map_res f rest) (fun ys => ret (y :: ys)))
  end.

(** [xs.some(f)]: stops at the first element for which [f] holds. *)
Fixpoint some_res {A} (f : A -> res bool) (xs : list A) : res bool :=
  match xs with
  | [] => ret false
  | x :: rest => bind (f x) (fun b => if b then ret true else some_res f rest)
  end.

(** [try { m } catch (e) { h e }]. *)
Definition try_catch {A} (m : res A) (h : exn -> res A) : res A :=
  match m with
  | inl e => h e
  | inr a => inr a
  end.

(** [v.map(f)]: only arrays carry [map]. *)
Definition array_map {B} (v : value) (f : value -> res B) : res (list B) :=
  match v with
  | Arr xs => map_res f xs
  | _ => throw (TypeError_call "map")
  end.

(** [v.some(f)]: only arrays carry [some]. *)
Definition array_some (v : value) (f : value -> res bool) : res bool :=
  match v with
  | Arr xs => some_res f xs
  | _ => throw (TypeError_call "some")
  end.

(** [v.length] and [v[0]] for a [v] that is neither [null] nor
    [undefined]. *)
Definition length_of (v : value) : value :=
  match v with
  | Arr xs => Num (Z.of_nat (List.length xs))
  | Str s => Num (Z.of_nat (String.length s))
  | _ => get v "length"
  end.

Definition first_of (v : value) : value :=
  match v with
  | Arr (x :: _) => x
  | Str (String c _) => Str (String c EmptyString)
  | _ => get v "0"
  end.

(** [n || d] for a number that may be missing ([undefined] or [NaN]). *)
Definition num_or (n : option Z) (d : Z) : Z :=
  match n with
  | Some x => if x =? 0 then d else x
  | None => d
  end.

(** [error.message], in the wording of the V8 engine for its own errors
    (for a failed call, V8 prints the callee as written in the source; only
    the property name is kept here). *)
Definition exn_message (e : exn) : string :=
  match e with
  | Error m => m
  | TypeError_read v k =>
      "Cannot read properties of " +:+ to_string v +:+ " (reading '" +:+ k +:+ "')"
  | TypeError_call k => k +:+ " is not a function"
  end.

End Js.

Import Js.

Declare Scope js_scope.
Delimit Scope js_scope with js.
Notation "'let*' x ':=' m 'in' k" := (Js.bind m (fun x => k))
  (at level 10, x name, m at level 100, k at level 200) : js_scope.
Notation "a ||| b" := (Js.or_else a b) (at level 50, left associativity) : js_scope.
#[local] Open Scope js_scope.

(* ===================================================================== *)
(** * Shared schema and the adapter contract *)
(* ===================================================================== *)

(** A row of [job_listings].  Fields filled from a platform payload hold
    whatever value the payload carried; [postedAt] keeps the argument of
    [new Date(...)]; timestamps are milliseconds. *)
Module JobListing.
Record t : Type := mk {
  id : Z;
  userId : value;
  source : string;
  externalId : value;
  title : value;
  company : value;
  location : value;
  description : value;
  salary : value;
  url : value;
  isRemote : value;
  postedAt : option value;
  savedAt : Z;
  applied : bool;
  hidden : bool;
  details : value
}.
End JobListing.

(** The outgoing request of an adapter and what [axios] makes of the
    answer: a rejection (network failure, non-2xx status) or the parsed
    body.  The query is the [URLSearchParams] list before encoding, and the
    [Basic] user-info is kept before its base64 step. *)
Module Http.
Inductive auth : Type :=
| Bearer (token : string)
| Basic (userinfo : string).

Record request : Type := mkRequest {
  method : string;
  url : string;
  query : list (string * string);
  authorization : auth;
  body : value
}.

Inductive outcome : Type :=
| Rejected (message : string)
| Response (data : value).

Definition network : Type := request -> outcome.
End Http.

Module SearchParams.
Record t : Type := mk {
  keywords : option (list string);
  locations : option (list string);
  remote : bool;
  excludeKeywords : option (list string);
  experience : option string;
  page : option Z;
  limit : option Z;
  userId : Z
}.
End SearchParams.

Module SearchResult.
Record t : Type := mk {
  jobs : list JobListing.t;
  hasMore : bool;
  total : value
}.

(** The result every adapter returns from its [catch] block. *)
Definition empty : t := {| jobs := []; hasMore := false; total := Num 0 |}.
End SearchResult.

Module ApplyPayload.
Record t : Type := mk {
  resumeId : value;
  coverId : value;
  customMessage : value
}.
End ApplyPayload.

Module ApplyResult.
Record t : Type := mk {
  success : bool;
  message : value;
  applicationId : value
}.
End ApplyResult.

(** [interface JobPlatformService]; [applyToJob] is optional.  Every
    operation is given the clock reading [now] and the network. *)
Module JobPlatformService.
Record t : Type := mk {
  platformName : string;
  hasValidCredentials : Z -> value -> bool;
  searchJobs : Z -> Http.network -> value -> SearchParams.t -> res SearchResult.t;
  getJobDetails : Z -> Http.network -> value -> string -> res (option JobListing.t);
  applyToJob :
    option (Z -> Http.network -> value -> value -> ApplyPayload.t -> res ApplyResult.t)
}.
End JobPlatformService.

(* ===================================================================== *)
(** * [IndeedService] ([server/services/indeed-service.ts]) *)
(* ===================================================================== *)

Module IndeedService.

Definition platformName : string := "Indeed".
Definition baseUrl : string := "https://api.indeed.com/v2".

(** [!!(credentials && credentials.publisherId && credentials.apiKey)] *)
Definition hasValidCredentials (credentials : value) : bool :=
  truthy credentials
  && truthy (get credentials "publisherId")
  && truthy (get credentials "apiKey").

Definition mapJobToSchema (now : Z) (jobData : value) (userId : value)
  : res JobListing.t :=
  let* jobkey := get_prop jobData "jobkey" in
  ret {| JobListing.id := 0;
         JobListing.userId := userId;
         JobListing.source := platformName;
         JobListing.externalId := jobkey ||| Str ("indeed-" +:+ to_string (Num now));
         JobListing.title := get jobData "jobtitle" ||| Str "Untitled Position";
         JobListing.company := get jobData "company" ||| Str "Unknown Company";
         JobListing.location :=
           get jobData "formattedLocation" ||| get jobData "city" ||| Null;
         JobListing.description := get jobData "snippet" ||| Null;
         JobListing.salary := get jobData "formattedRelativeTime" ||| Null;
         JobListing.url :=
           get jobData "url"
           ||| Str ("https://www.indeed.com/viewjob?jk="
                    +:+ to_string (get jobData "jobkey"));
         JobListing.isRemote := get jobData "remote" ||| Null;
         JobListing.postedAt :=
           if truthy (get jobData "date") then Some (get jobData "date") else None;
         JobListing.savedAt := now;
         JobListing.applied := false;
         JobListing.hidden := false;
         JobListing.details := jobData |}.

Definition authorization (credentials : value) : Http.auth :=
  Http.Basic (to_string (get credentials "publisherId") +:+ ":"
              +:+ to_string (get credentials "apiKey")).

(** The query built by [searchJobs] before the request is sent. *)
Definition searchQuery (credentials : value) (params : SearchParams.t)
  : list (string * string) :=
  let page := num_or (SearchParams.page params) 0 in
  let limit := num_or (SearchParams.limit params) 20 in
  [("publisher", to_string (get credentials "publisherId"));
   ("v", "2"); ("format", "json")]
  ++ match SearchParams.keywords params with
     | Some (k :: ks) => [("q", String.concat " " (k :: ks))]
     | _ => []
     end
  ++ match SearchParams.locations params with
     | Some (l :: _) => [("l", l)]
     | _ => []
     end
  ++ (if SearchParams.remote params then [("remotejob", "1")] else [])
  ++ [("start", number_to_string (mul page limit));
      ("limit", to_string (Num limit))].

Definition searchRequest (credentials : value) (params : SearchParams.t)
  : Http.request :=
  {| Http.method := "GET";
     Http.url := baseUrl +:+ "/jobs/search";
     Http.query := searchQuery credentials params;
     Http.authorization := authorization credentials;
     Http.body := Undefined |}.

(** The [try] block of [searchJobs]. *)
Definition searchJobs_try (now : Z) (net : Http.network)
    (credentials : value) (params : SearchParams.t) : res SearchResult.t :=
  if negb (hasValidCredentials credentials)
  then throw (Error "Invalid Indeed credentials")
  else
    let page := num_or (SearchParams.page params) 0 in
    let limit := num_or (SearchParams.limit params) 20 in
    match net (searchRequest credentials params) with
    | Http.Rejected m => throw (Error m)
    | Http.Response data =>
        let* results := get_prop data "results" in
        let* jobs :=
          array_map (results ||| Arr [])
            (fun job => mapJobToSchema now job (Num (SearchParams.userId params))) in
        let count := Z.of_nat (List.length jobs) in
        let total := get data "totalResults" ||| Num count in
        let hasMore := num_lt (add (mul page limit) count) total in
        ret {| SearchResult.jobs := jobs;
               SearchResult.hasMore := hasMore;
               SearchResult.total := total |}
    end.

Definition searchJobs (now : Z) (net : Http.network)
    (credentials : value) (params : SearchParams.t) : res SearchResult.t :=
  try_catch (searchJobs_try now net credentials params)
            (fun _ => ret SearchResult.empty).

Definition detailsRequest (credentials : value) (externalId : string)
  : Http.request :=
  {| Http.method := "GET";
     Http.url := baseUrl +:+ "/jobs/search";
     Http.query :=
       [("publisher", to_string (get credentials "publisherId"));
        ("v", "2"); ("format", "json"); ("jobkeys", externalId)];
     Http.authorization := authorization credentials;
     Http.body := Undefined |}.

(** The [try] block of [getJobDetails]. *)
Definition getJobDetails_try (now : Z) (net : Http.network)
    (credentials : value) (externalId : string) (userId : value)
  : res (option JobListing.t) :=
  if negb (hasValidCredentials credentials)
  then throw (Error "Invalid Indeed credentials")
  else
    match net (detailsRequest credentials externalId) with
    | Http.Rejected m => throw (Error m)
    | Http.Response data =>
        let* results := get_prop data "results" in
        if negb (truthy results) || strict_eq (length_of results) (Num 0)
        then ret None
        else
          let* job := mapJobToSchema now (first_of results) userId in
          ret (Some job)
    end.

(** [getJobDetails]: the read of [credentials.userId] stands before the
    [try]. *)
Definition getJobDetails (now : Z) (net : Http.network)
    (credentials : value) (externalId : string) : res (option JobListing.t) :=
  let* uid := get_prop credentials "userId" in
  let userId := uid ||| Num 1 in
  try_catch (getJobDetails_try now net credentials externalId userId)
            (fun _ => ret None).

(** The adapter as seen through the contract; it has no [applyToJob]. *)
Definition service : JobPlatformService.t :=
  {| JobPlatformService.platformName := platformName;
     JobPlatformService.hasValidCredentials := fun _ c => hasValidCredentials c;
     JobPlatformService.searchJobs := searchJobs;
     JobPlatformService.getJobDetails := getJobDetails;
     JobPlatformService.applyToJob := None |}.

End IndeedService.

(* ===================================================================== *)
(** * [LinkedInService] ([server/services/linkedin-service.ts]) *)
(* ===================================================================== *)

Module LinkedInService.

Definition platformName : string := "LinkedIn".
Definition baseUrl : string := "https://api.linkedin.com/v2".

Definition hasValidCredentials (now : Z) (credentials : value) : bool :=
  if negb (truthy credentials) || negb (truthy (get credentials "accessToken"))
  then false
  else if truthy (get credentials "expiresAt")
          && num_gt now (get credentials "expiresAt")
  then false
  else true.

Definition mapJobToSchema (now : Z) (jobData : value) (userId : value)
  : res JobListing.t :=
  let* company := get_prop jobData "company" in
  let companyData := company ||| Obj [] in
  let locationData :=
    get jobData "locationName" ||| get jobData "location" ||| Obj [] in
  ret {| JobListing.id := 0;
         JobListing.userId := userId;
         JobListing.source := platformName;
         JobListing.externalId :=
           get jobData "id" ||| Str ("linkedin-" +:+ to_string (Num now));
         JobListing.title := get jobData "title" ||| Str "Untitled Position";
         JobListing.company := get companyData "name" ||| Str "Unknown Company";
         JobListing.location :=
           if is_string locationData then locationData
           else get locationData "name" ||| Null;
         JobListing.description := get jobData "description" ||| Null;
         JobListing.salary := get jobData "salary" ||| Null;
         JobListing.url :=
           get jobData "applyUrl" ||| get jobData "url"
           ||| Str ("https://www.linkedin.com/jobs/view/"
                    +:+ to_string (get jobData "id"));
         JobListing.isRemote :=
           Bool (strict_eq (get jobData "workplaceType") (Str "REMOTE")) ||| Null;
         JobListing.postedAt :=
           if truthy (get jobData "postedAt")
           then Some (get jobData "postedAt") else None;
         JobListing.savedAt := now;
         JobListing.applied := false;
         JobListing.hidden := false;
         JobListing.details := jobData |}.

Definition authorization (credentials : value) : Http.auth :=
  Http.Bearer (to_string (get credentials "accessToken")).

Definition searchQuery (params : SearchParams.t) : list (string * string) :=
  let page := num_or (SearchParams.page params) 0 in
  let limit := num_or (SearchParams.limit params) 20 in
  match SearchParams.keywords params with
  | Some (k :: ks) => [("keywords", String.concat " " (k :: ks))]
  | _ => []
  end
  ++ match SearchParams.locations params with
     | Some (l :: ls) => [("location", String.concat " " (l :: ls))]
     | _ => []
     end
  ++ (if SearchParams.remote params then [("remoteFilter", "true")] else [])
  ++ match SearchParams.experience params with
     | Some e => if String.eqb e EmptyString then [] else [("experience", e)]
     | None => []
     end
  ++ [("start", number_to_string (mul page limit));
      ("count", to_string (Num limit))].

Definition searchRequest (credentials : value) (params : SearchParams.t)
  : Http.request :=
  {| Http.method := "GET";
     Http.url := baseUrl +:+ "/jobSearch";
     Http.query := searchQuery params;
     Http.authorization := authorization credentials;
     Http.body := Undefined |}.

(** [data.paging?.links?.some(link => link.rel === "next") || false] *)
Definition hasNextLink (data : value) : res bool :=
  let paging := get data "paging" in
  if nullish paging then ret false
  else
    let links := get paging "links" in
    if nullish links then ret false
    else
      array_some links
        (fun link =>
           let* rel := get_prop link "rel" in
           ret (strict_eq rel (Str "next"))).

(** [data.paging?.total] *)
Definition pagingTotal (data : value) : value :=
  let paging := get data "paging" in
  if nullish paging then Undefined else get paging "total".

(** The [try] block of [searchJobs]. *)
Definition searchJobs_try (now : Z) (net : Http.network)
    (credentials : value) (params : SearchParams.t) : res SearchResult.t :=
  if negb (hasValidCredentials now credentials)
  then throw (Error "Invalid or expired LinkedIn credentials")
  else
    match net (searchRequest credentials params) with
    | Http.Rejected m => throw (Error m)
    | Http.Response data =>
        let* elements := get_prop data "elements" in
        let* jobs :=
          array_map (elements ||| Arr [])
            (fun job => mapJobToSchema now job (Num (SearchParams.userId params))) in
        let total := pagingTotal data ||| Num (Z.of_nat (List.length jobs)) in
        let* hasMore := hasNextLink data in
        ret {| SearchResult.jobs := jobs;
               SearchResult.hasMore := hasMore;
               SearchResult.total := total |}
    end.

Definition searchJobs (now : Z) (net : Http.network)
    (credentials : value) (params : SearchParams.t) : res SearchResult.t :=
  try_catch (searchJobs_try now net credentials params)
            (fun _ => ret SearchResult.empty).

Definition detailsRequest (credentials : value) (externalId : string)
  : Http.request :=
  {| Http.method := "GET";
     Http.url := baseUrl +:+ "/jobs/" +:+ externalId;
     Http.query := [];
     Http.authorization := authorization credentials;
     Http.body := Undefined |}.

(** The [try] block of [getJobDetails]; [credentials.userId] is read inside
    it, after the validity check. *)
Definition getJobDetails_try (now : Z) (net : Http.network)
    (credentials : value) (externalId : string) : res (option JobListing.t) :=
  if negb (hasValidCredentials now credentials)
  then throw (Error "Invalid or expired LinkedIn credentials")
  else
    let* uid := get_prop credentials "userId" in
    let userId := uid ||| Num 1 in
    match net (detailsRequest credentials externalId) with
    | Http.Rejected m => throw (Error m)
    | Http.Response jobData =>
        let* job := mapJobToSchema now jobData userId in
        ret (Some job)
    end.

Definition getJobDetails (now : Z) (net : Http.network)
    (credentials : value) (externalId : string) : res (option JobListing.t) :=
  try_catch (getJobDetails_try now net credentials externalId)
            (fun _ => ret None).

Definition applyRequest (credentials : value) (externalId : value)
    (application : ApplyPayload.t) : Http.request :=
  {| Http.method := "POST";
     Http.url := baseUrl +:+ "/jobs/" +:+ to_string externalId +:+ "/applications";
     Http.query := [];
     Http.authorization := authorization credentials;
     Http.body := Obj [("customMessage", ApplyPayload.customMessage application)] |}.

(** The [try] block of [applyToJob]. *)
Definition applyToJob_try (now : Z) (net : Http.network)
    (credentials : value) (externalId : value) (application : ApplyPayload.t)
  : res ApplyResult.t :=
  if negb (hasValidCredentials now credentials)
  then throw (Error "Invalid or expired LinkedIn credentials")
  else
    match net (applyRequest credentials externalId application) with
    | Http.Rejected m => throw (Error m)
    | Http.Response data =>
        let* appId := get_prop data "id" in
        ret {| ApplyResult.success := true;
               ApplyResult.message := Str "Application submitted";
               ApplyResult.applicationId := appId |}
    end.

Definition applyToJob (now : Z) (net : Http.network)
    (credentials : value) (externalId : value) (application : ApplyPayload.t)
  : res ApplyResult.t :=
  try_catch (applyToJob_try now net credentials externalId application)
            (fun error =>
               ret {| ApplyResult.success := false;
                      ApplyResult.message :=
                        Str (exn_message error) ||| Str "Failed to apply for job";
                      ApplyResult.applicationId := Undefined |}).

Definition service : JobPlatformService.t :=
  {| JobPlatformService.platformName := platformName;
     JobPlatformService.hasValidCredentials := hasValidCredentials;
     JobPlatformService.searchJobs := searchJobs;
     JobPlatformService.getJobDetails := getJobDetails;
     JobPlatformService.applyToJob := Some applyToJob |}.

End LinkedInService.

(* ===================================================================== *)
(** * [JobServiceFactory] ([server/services/job-service-factory.ts]) *)
(* ===================================================================== *)

Module JobServiceFactory.

Definition lower_ascii (c : ascii) : ascii :=
  let n := nat_of_ascii c in
  if (Nat.leb 65 n && Nat.leb n 90)%bool then ascii_of_nat (n + 32) else c.

(** The three bytes of U+212A KELVIN SIGN, the one character outside ASCII
    whose lower case is an ASCII letter. *)
Definition kelvin (c1 c2 c3 : ascii) : bool :=
  Ascii.eqb c1 "226" && Ascii.eqb c2 "132" && Ascii.eqb c3 "170".

(** [String.prototype.toLowerCase], as far as a comparison with a key
    written in ASCII can tell: the letters [A] to [Z] are lowered, the
    Kelvin sign becomes [k], and every other byte is kept.  The case
    mappings of the other characters outside ASCII are not followed; their
    lower-cased forms are not ASCII either. *)
Fixpoint toLowerCase (s : string) : string :=
  match s with
  | EmptyString => EmptyString
  | String c1 rest =>
      match rest with
      | String c2 (String c3 rest') =>
          if kelvin c1 c2 c3 then String "k" (toLowerCase rest')
          else String (lower_ascii c1) (toLowerCase rest)
      | _ => String (lower_ascii c1) (toLowerCase rest)
      end
  end.

(** Two identifiers that differ at most in the case of their letters. *)
Fixpoint eq_ignore_case (a b : string) : bool :=
  match a, b with
  | EmptyString, EmptyString => true
  | String x a', String y b' =>
      Ascii.eqb (lower_ascii x) (lower_ascii y) && eq_ignore_case a' b'
  | _, _ => false
  end.

(** [services] is a plain object literal, so an index that is not an own
    property is looked up on [Object.prototype].  Its members have
    camel-case names except [constructor] and the [__proto__] accessor,
    the only two a lower-cased key can name. *)
Definition onObjectPrototype (k : string) : bool :=
  String.eqb k "constructor" || String.eqb k "__proto__".

(** What indexing [services] yields: a registered adapter, or a member
    inherited from [Object.prototype] (a truthy function or object). *)
Inductive entry : Type :=
| Service (s : JobPlatformService.t)
| Inherited (k : string).

(** [private static services = { linkedin: ..., indeed: ... }] *)
Definition services : gmap string JobPlatformService.t :=
  <["linkedin" := LinkedInService.service]>
    (<["indeed" := IndeedService.service]> ∅).

(** [services[platform.toLowerCase()] || null] *)
Definition getService (services : gmap string JobPlatformService.t)
    (platform : string) : option entry :=
  let platformKey := toLowerCase platform in
  match services !! platformKey with
  | Some s => Some (Service s)
  | None =>
      if onObjectPrototype platformKey then Some (Inherited platformKey) else None
  end.


End JobServiceFactory.

(* ===================================================================== *)
(** * Persistence ([server/storage.ts])

    [IStorage] as implemented by [MemStorage].  A [Map<number, V>] keeps its
    entries in insertion order, which is the order [values()] and [find]
    see.  The exported singleton is the [DatabaseStorage] of
    [database-storage.ts], which runs the calls as SQL statements and is not
    modelled.  It looks a listing up by [userId] and [externalId] too; it
    differs from [MemStorage] in other respects (it inserts a listing with
    the [id] it is handed, and its [getJobListings] returns hidden rows as
    well).  A call that rejects is modelled with the handlers below. *)
(* ===================================================================== *)

Module JsMap.
Section Defs.
Context {V : Type}.

Definition t : Type := list (Z * V).

Fixpoint get (m : t) (k : Z) : option V :=
  match m with
  | [] => None
  | (k', v) :: rest => if k' =? k then Some v else get rest k
  end.

(** [set] replaces the value of a present key in place and appends a new
    key at the end. *)
Fixpoint set (m : t) (k : Z) (v : V) : t :=
  match m with
  | [] => [(k, v)]
  | (k', v') :: rest =>
      if k' =? k then (k', v) :: rest else (k', v') :: set rest k v
  end.

Definition values (m : t) : list V := List.map snd m.
Definition keys (m : t) : list Z := List.map fst m.

(** [has] and [delete]; [delete] answers whether the key was present. *)
Definition has (m : t) (k : Z) : bool := List.existsb (fun kv => fst kv =? k) m.
Definition delete (m : t) (k : Z) : t :=
  List.filter (fun kv => negb (fst kv =? k)) m.
End Defs.
Arguments t : clear implicits.
End JsMap.

(** The columns of [users] that the handlers read. *)
Module User.
Record t : Type := mk {
  id : Z;
  linkedinCredentials : value;
  indeedCredentials : value
}.
End User.

(** [InsertApplication] as the apply handler fills it, and the stored
    [Application]. *)
Module InsertApplication.
Record t : Type := mk {
  userId : Z;
  role : value;
  company : value;
  description : value;
  location : value;
  status : string;
  link : value;
  appliedAt : Z
}.
End InsertApplication.

Module Application.
Record t : Type := mk {
  id : Z;
  fields : InsertApplication.t;
  createdAt : Z;
  updatedAt : Z
}.
End Application.

Module Stat.
Record t : Type := mk {
  id : Z;
  userId : Z;
  timestamp : Z;
  totalApplications : Z;
  interviewRate : Z;
  avgResponseTime : Z;
  aiGeneratedDocs : Z
}.
End Stat.

(** [Partial<InsertUser>] over the columns of [User.t]: [None] is a key the
    update does not carry. *)
Module UserUpdate.
Record t : Type := mk {
  linkedinCredentials : option value;
  indeedCredentials : option value
}.
End UserUpdate.

Module MemStorage.

Record t : Type := mk {
  users : JsMap.t User.t;
  applications : JsMap.t Application.t;
  jobListings : JsMap.t JobListing.t;
  stats : JsMap.t Stat.t;
  applicationIdCounter : Z;
  jobListingIdCounter : Z
}.

Definition getUser (s : t) (id : Z) : option User.t := JsMap.get (users s) id.

Definition getJobListing (s : t) (id : Z) : option JobListing.t :=
  JsMap.get (jobListings s) id.

(** [listing.userId === userId && listing.externalId === externalId] *)
Definition sameExternalJob (userId : Z) (externalId : value)
    (listing : JobListing.t) : bool :=
  strict_eq (JobListing.userId listing) (Num userId)
  && strict_eq (JobListing.externalId listing) externalId.

(** [Array.from(this.jobListings.values()).find(...)] *)
Definition getJobListingByExternalId (s : t) (userId : Z) (externalId : value)
  : option JobListing.t :=
  List.find (sameExternalJob userId externalId) (JsMap.values (jobListings s)).

(** [{ ...jobListing, id, savedAt: new Date(), applied: jobListing.applied ??
    false, hidden: jobListing.hidden ?? false }] *)
Definition createJobListing (now : Z) (s : t) (jobListing : JobListing.t)
  : JobListing.t * t :=
  let id := jobListingIdCounter s in
  let newListing :=
    {| JobListing.id := id;
       JobListing.userId := JobListing.userId jobListing;
       JobListing.source := JobListing.source jobListing;
       JobListing.externalId := JobListing.externalId jobListing;
       JobListing.title := JobListing.title jobListing;
       JobListing.company := JobListing.company jobListing;
       JobListing.location := JobListing.location jobListing;
       JobListing.description := JobListing.description jobListing;
       JobListing.salary := JobListing.salary jobListing;
       JobListing.url := JobListing.url jobListing;
       JobListing.isRemote := JobListing.isRemote jobListing;
       JobListing.postedAt := JobListing.postedAt jobListing;
       JobListing.savedAt := now;
       JobListing.applied := JobListing.applied jobListing;
       JobListing.hidden := JobListing.hidden jobListing;
       JobListing.details := JobListing.details jobListing |} in
  (newListing,
   {| users := users s;
      applications := applications s;
      jobListings := JsMap.set (jobListings s) id newListing;
      stats := stats s;
      applicationIdCounter := applicationIdCounter s;
      jobListingIdCounter := id + 1 |}).

Definition setApplied (l : JobListing.t) : JobListing.t :=
  {| JobListing.id := JobListing.id l;
     JobListing.userId := JobListing.userId l;
     JobListing.source := JobListing.source l;
     JobListing.externalId := JobListing.externalId l;
     JobListing.title := JobListing.title l;
     JobListing.company := JobListing.company l;
     JobListing.location := JobListing.location l;
     JobListing.description := JobListing.description l;
     JobListing.salary := JobListing.salary l;
     JobListing.url := JobListing.url l;
     JobListing.isRemote := JobListing.isRemote l;
     JobListing.postedAt := JobListing.postedAt l;
     JobListing.savedAt := JobListing.savedAt l;
     JobListing.applied := true;
     JobListing.hidden := JobListing.hidden l;
     JobListing.details := JobListing.details l |}.

Definition markJobListingAsApplied (s : t) (id : Z)
  : option JobListing.t * t :=
  match JsMap.get (jobListings s) id with
  | None => (None, s)
  | Some existingListing =>
      let updatedListing := setApplied existingListing in
      (Some updatedListing,
       {| users := users s;
          applications := applications s;
          jobListings := JsMap.set (jobListings s) id updatedListing;
          stats := stats s;
          applicationIdCounter := applicationIdCounter s;
          jobListingIdCounter := jobListingIdCounter s |})
  end.

Definition createApplication (now : Z) (s : t) (application : InsertApplication.t)
  : Application.t * t :=
  let id := applicationIdCounter s in
  let newApp :=
    {| Application.id := id;
       Application.fields := application;
       Application.createdAt := now;
       Application.updatedAt := now |} in
  (newApp,
   {| users := users s;
      applications := JsMap.set (applications s) id newApp;
      jobListings := jobListings s;
      stats := stats s;
      applicationIdCounter := id + 1;
      jobListingIdCounter := jobListingIdCounter s |}).

(** [find(stat => stat.userId === userId)] *)
Definition getUserStats (s : t) (userId : Z) : option Stat.t :=
  List.find (fun stat => Stat.userId stat =? userId) (JsMap.values (stats s)).

(** [updateUserStats(id, { totalApplications })] *)
Definition updateUserStats (now : Z) (s : t) (id : Z) (totalApplications : Z)
  : option Stat.t * t :=
  match JsMap.get (stats s) id with
  | None => (None, s)
  | Some existingStats =>
      let updatedStats :=
        {| Stat.id := Stat.id existingStats;
           Stat.userId := Stat.userId existingStats;
           Stat.timestamp := now;
           Stat.totalApplications := totalApplications;
           Stat.interviewRate := Stat.interviewRate existingStats;
           Stat.avgResponseTime := Stat.avgResponseTime existingStats;
           Stat.aiGeneratedDocs := Stat.aiGeneratedDocs existingStats |} in
      (Some updatedStats,
       {| users := users s;
          applications := applications s;
          jobListings := jobListings s;
          stats := JsMap.set (stats s) id updatedStats;
          applicationIdCounter := applicationIdCounter s;
          jobListingIdCounter := jobListingIdCounter s |})
  end.

(** The id counters run ahead of every key in use: they start at 1 and
    every insertion takes the counter as key and increments it. *)
Definition wf (s : t) : Prop :=
  Forall (fun k => k < jobListingIdCounter s) (JsMap.keys (jobListings s))
  /\ Forall (fun k => k < applicationIdCounter s) (JsMap.keys (applications s)).

(** [{ ...existingUser, ...userUpdate }] *)
Definition updateUser (s : t) (id : Z) (userUpdate : UserUpdate.t)
  : option User.t * t :=
  match JsMap.get (users s) id with
  | None => (None, s)
  | Some existingUser =>
      let updatedUser :=
        {| User.id := User.id existingUser;
           User.linkedinCredentials :=
             match UserUpdate.linkedinCredentials userUpdate with
             | Some c => c
             | None => User.linkedinCredentials existingUser
             end;
           User.indeedCredentials :=
             match UserUpdate.indeedCredentials userUpdate with
             | Some c => c
             | None => User.indeedCredentials existingUser
             end |} in
      (Some updatedUser,
       {| users := JsMap.set (users s) id updatedUser;
          applications := applications s;
          jobListings := jobListings s;
          stats := stats s;
          applicationIdCounter := applicationIdCounter s;
          jobListingIdCounter := jobListingIdCounter s |})
  end.

(** [filter(listing => listing.userId === userId && !listing.hidden)] *)
Definition getJobListings (s : t) (userId : Z) : list JobListing.t :=
  List.filter
    (fun listing =>
       strict_eq (JobListing.userId listing) (Num userId)
       && negb (JobListing.hidden listing))
    (JsMap.values (jobListings s)).

(** [filter(listing => listing.userId === userId &&
                       listing.source === source && !listing.hidden)] *)
Definition getJobListingsBySource (s : t) (userId : Z) (source : string)
  : list JobListing.t :=
  List.filter
    (fun listing =>
       strict_eq (JobListing.userId listing) (Num userId)
       && String.eqb (JobListing.source listing) source
       && negb (JobListing.hidden listing))
    (JsMap.values (jobListings s)).

(** [this.jobListings.delete(id)] *)
Definition deleteJobListing (s : t) (id : Z) : bool * t :=
  (JsMap.has (jobListings s) id,
   {| users := users s;
      applications := applications s;
      jobListings := JsMap.delete (jobListings s) id;
      stats := stats s;
      applicationIdCounter := applicationIdCounter s;
      jobListingIdCounter := jobListingIdCounter s |}).

Definition setHidden (l : JobListing.t) : JobListing.t :=
  {| JobListing.id := JobListing.id l;
     JobListing.userId := JobListing.userId l;
     JobListing.source := JobListing.source l;
     JobListing.externalId := JobListing.externalId l;
     JobListing.title := JobListing.title l;
     JobListing.company := JobListing.company l;
     JobListing.location := JobListing.location l;
     JobListing.description := JobListing.description l;
     JobListing.salary := JobListing.salary l;
     JobListing.url := JobListing.url l;
     JobListing.isRemote := JobListing.isRemote l;
     JobListing.postedAt := JobListing.postedAt l;
     JobListing.savedAt := JobListing.savedAt l;
     JobListing.applied := JobListing.applied l;
     JobListing.hidden := true;
     JobListing.details := JobListing.details l |}.

Definition hideJobListing (s : t) (id : Z) : option JobListing.t * t :=
  match JsMap.get (jobListings s) id with
  | None => (None, s)
  | Some existingListing =>
      let updatedListing := setHidden existingListing in
      (Some updatedListing,
       {| users := users s;
          applications := applications s;
          jobListings := JsMap.set (jobListings s) id updatedListing;
          stats := stats s;
          applicationIdCounter := applicationIdCounter s;
          jobListingIdCounter := jobListingIdCounter s |})
  end.

End MemStorage.

(* ===================================================================== *)
(** * The handlers of [server/routes.ts]

    A handler runs against the [storage] singleton, whose calls are
    asynchronous and may reject.  The world threads the store together with
    the trace of the storage calls issued so far; the environment fixes the
    clock, the network, [JSON.parse] (which returns the parsed value or
    raises), the registry and, for each position in the trace, whether the
    storage call issued there rejects and with which message. *)
(* ===================================================================== *)

Module Routes.

Inductive call : Type :=
| GetUser (id : Z)
| GetJobListing (id : Z)
| GetJobListingByExternalId (userId : Z) (externalId : value)
| CreateJobListing (jobListing : JobListing.t)
| MarkJobListingAsApplied (id : Z)
| CreateApplication (application : InsertApplication.t)
| GetUserStats (userId : Z)
| UpdateUserStats (id : Z) (totalApplications : Z).

Record env : Type := mkEnv {
  now : Z;
  net : Http.network;
  JSON_parse : string -> res value;
  services : gmap string JobPlatformService.t;
  faults : nat -> option string
}.

Record world : Type := mkWorld {
  store : MemStorage.t;
  trace : list call
}.

Definition io (A : Type) : Type := world -> res A * world.

Definition io_ret {A} (a : A) : io A := fun w => (inr a, w).
Definition io_throw {A} (e : exn) : io A := fun w => (inl e, w).
Definition io_bind {A B} (m : io A) (f : A -> io B) : io B :=
  fun w =>
    match m w with
    | (inl e, w') => (inl e, w')
    | (inr a, w') => f a w'
    end.
Definition io_try {A} (m : io A) (h : exn -> io A) : io A :=
  fun w =>
    match m w with
    | (inl e, w') => h e w'
    | (inr a, w') => (inr a, w')
    end.
Definition lift {A} (r : res A) : io A := fun w => (r, w).

(** [await storage.op(...)]: the call is recorded; it either rejects, leaving
    the store as it was, or runs [op]. *)
Definition storage_call {A} (E : env) (c : call)
    (op : MemStorage.t -> A * MemStorage.t) : io A :=
  fun w =>
    match faults E (List.length (trace w)) with
    | Some m => (inl (Error m), {| store := store w; trace := trace w ++ [c] |})
    | None =>
        let '(a, s) := op (store w) in
        (inr a, {| store := s; trace := trace w ++ [c] |})
    end.

Definition storage_read {A} (E : env) (c : call) (op : MemStorage.t -> A) : io A :=
  storage_call E c (fun s => (op s, s)).

End Routes.

Notation "'await' x ':=' m 'in' k" := (Routes.io_bind m (fun x => k))
  (at level 10, x name, m at level 100, k at level 200) : js_scope.

Module Handlers.
Import Routes.

Inductive body : Type :=
| Message (message : string)
| SearchBody (jobs : list JobListing.t) (hasMore : bool) (total : value)
| ApplyBody (success : bool) (message : value) (application : option Application.t).

Record response : Type := mkResponse {
  status : Z;
  json : body
}.

Definition reply (status : Z) (b : body) : io response :=
  io_ret {| status := status; json := b |}.

(** The stored credentials of [user] for [platform], if the platform is one
    of the two the handlers know. *)
Definition platformCredentials (user : User.t) (platform : string) : option value :=
  if String.eqb (JobServiceFactory.toLowerCase platform) "linkedin"
  then Some (User.linkedinCredentials user)
  else if String.eqb (JobServiceFactory.toLowerCase platform) "indeed"
  then Some (User.indeedCredentials user)
  else None.

(** [typeof credentials === "string"
      ? { ...JSON.parse(credentials || "{}"), userId }
      : { ...credentials, userId }], for truthy [credentials]. *)
Definition credentialsWithUserId (E : env) (credentials : value) (userId : Z)
  : res value :=
  match credentials with
  | Str s =>
      let* parsed := JSON_parse E s in
      ret (spread_with parsed "userId" (Num userId))
  | _ => ret (spread_with credentials "userId" (Num userId))
  end.

Definition noCredentialsMessage (platform : string) : string :=
  "No " +:+ platform +:+ " credentials found. Please add your credentials in Settings.".

Definition invalidCredentialsMessage (platform : string) : string :=
  "Invalid or expired " +:+ platform
  +:+ " credentials. Please update your credentials in Settings.".

Definition applyUnsupportedMessage (platform : string) : string :=
  "Job application is not supported for " +:+ platform
  +:+ " or the platform is not supported".

(** ** [GET /job-platform/search] *)

Module SearchRequest.
(** The query string: [userId], [page] and [limit] are given by what
    [parseInt] makes of them ([None] is [NaN]), an absent [page] or [limit]
    by an outer [None]; absent string parameters are empty. *)
Record t : Type := mk {
  userId : option Z;
  platform : string;
  keywords : string;
  locations : string;
  remote : bool;
  excludeKeywords : string;
  experience : option string;
  page : option (option Z);
  limit : option (option Z)
}.
End SearchRequest.

(** [s.split(',')] *)
Fixpoint split_comma (s : string) : list string :=
  match s with
  | EmptyString => [EmptyString]
  | String c rest =>
      if Ascii.eqb c "," then EmptyString :: split_comma rest
      else match split_comma rest with
           | [] => [String c EmptyString]
           | h :: t => String c h :: t
           end
  end.

Definition split_param (s : string) : option (list string) :=
  if String.eqb s EmptyString then None else Some (split_comma s).

Definition searchParams (req : SearchRequest.t) (userId : Z) : SearchParams.t :=
  {| SearchParams.keywords := split_param (SearchRequest.keywords req);
     SearchParams.locations := split_param (SearchRequest.locations req);
     SearchParams.remote := SearchRequest.remote req;
     SearchParams.excludeKeywords := split_param (SearchRequest.excludeKeywords req);
     SearchParams.experience := SearchRequest.experience req;
     SearchParams.page :=
       match SearchRequest.page req with Some p => p | None => Some 0 end;
     SearchParams.limit :=
       match SearchRequest.limit req with Some l => l | None => Some 20 end;
     SearchParams.userId := userId |}.

(** One turn of the loop over [result.jobs]: look the job up by
    [(userId, job.externalId)], create it when absent, push the stored row;
    a rejected storage call is caught and the job skipped. *)
Definition saveJob (E : env) (userId : Z) (job : JobListing.t)
    (savedJobs : list JobListing.t) : io (list JobListing.t) :=
  io_try
    (await existingJob :=
       storage_read E (GetJobListingByExternalId userId (JobListing.externalId job))
         (fun s => MemStorage.getJobListingByExternalId s userId
                     (JobListing.externalId job)) in
     match existingJob with
     | None =>
         await savedJob :=
           storage_call E (CreateJobListing job)
             (fun s => MemStorage.createJobListing (now E) s job) in
         io_ret (savedJobs ++ [savedJob])
     | Some existing => io_ret (savedJobs ++ [existing])
     end)
    (fun _ => io_ret savedJobs).

Fixpoint saveJobs (E : env) (userId : Z) (jobs : list JobListing.t)
    (savedJobs : list JobListing.t) : io (list JobListing.t) :=
  match jobs with
  | [] => io_ret savedJobs
  | job :: rest =>
      await savedJobs' := saveJob E userId job savedJobs in
      saveJobs E userId rest savedJobs'
  end.

Definition search_try (E : env) (req : SearchRequest.t) : io response :=
  match SearchRequest.userId req with
  | None => reply 400 (Message "Missing required parameters")
  | Some userId =>
  if String.eqb (SearchRequest.platform req) EmptyString
  then reply 400 (Message "Missing required parameters")
  else
  let platform := SearchRequest.platform req in
  await user := storage_read E (GetUser userId)
                  (fun s => MemStorage.getUser s userId) in
  match user with
  | None => reply 404 (Message "User not found")
  | Some user =>
  match platformCredentials user platform with
  | None => reply 400 (Message "Unsupported platform")
  | Some credentials =>
  if negb (truthy credentials)
  then reply 400 (Message (noCredentialsMessage platform))
  else
  await credentials' := lift (credentialsWithUserId E credentials userId) in
  match JobServiceFactory.getService (services E) platform with
  | None => reply 400 (Message "Unsupported platform")
  | Some (JobServiceFactory.Inherited _) =>
      io_throw (TypeError_call "hasValidCredentials")
  | Some (JobServiceFactory.Service service) =>
  if negb (JobPlatformService.hasValidCredentials service (now E) credentials')
  then reply 401 (Message (invalidCredentialsMessage platform))
  else
  await result :=
    lift (JobPlatformService.searchJobs service (now E) (net E) credentials'
            (searchParams req userId)) in
  await savedJobs := saveJobs E userId (SearchResult.jobs result) [] in
  reply 200 (SearchBody savedJobs (SearchResult.hasMore result)
               (SearchResult.total result))
  end end end end.

Definition search (E : env) (req : SearchRequest.t) : io response :=
  io_try (search_try E req)
         (fun _ => reply 500 (Message "Failed to search jobs")).


(** ** [POST /job-platform/apply] *)

Module ApplyRequest.
Record t : Type := mk {
  userId : Z;
  platform : string;
  jobId : Z;
  resumeId : value;
  coverId : value;
  customMessage : value
}.
End ApplyRequest.

Definition insertApplication (E : env) (userId : Z) (jobListing : JobListing.t)
  : InsertApplication.t :=
  {| InsertApplication.userId := userId;
     InsertApplication.role := JobListing.title jobListing;
     InsertApplication.company := JobListing.company jobListing;
     InsertApplication.description := JobListing.description jobListing;
     InsertApplication.location := JobListing.location jobListing;
     InsertApplication.status := "applied";
     InsertApplication.link := JobListing.url jobListing;
     InsertApplication.appliedAt := now E |}.

(** The branch taken when the adapter reports success: the three writes,
    one after the other, then the reply. *)
Definition record_apply (E : env) (userId jobId : Z) (jobListing : JobListing.t)
    (result : ApplyResult.t) : io response :=
  await _ := storage_call E (MarkJobListingAsApplied jobId)
               (fun s => MemStorage.markJobListingAsApplied s jobId) in
  await application :=
    storage_call E (CreateApplication (insertApplication E userId jobListing))
      (fun s => MemStorage.createApplication (now E) s
                  (insertApplication E userId jobListing)) in
  await stats := storage_read E (GetUserStats userId)
                   (fun s => MemStorage.getUserStats s userId) in
  await _ :=
    match stats with
    | Some stats =>
        storage_call E
          (UpdateUserStats (Stat.id stats) (Stat.totalApplications stats + 1))
          (fun s => MemStorage.updateUserStats (now E) s (Stat.id stats)
                      (Stat.totalApplications stats + 1))
    | None => io_ret None
    end in
  reply 200 (ApplyBody true
               (ApplyResult.message result ||| Str "Application submitted successfully")
               (Some application)).

Definition apply_try (E : env) (req : ApplyRequest.t) : io response :=
  let userId := ApplyRequest.userId req in
  let platform := ApplyRequest.platform req in
  let jobId := ApplyRequest.jobId req in
  if (userId =? 0) || String.eqb platform EmptyString || (jobId =? 0)
  then reply 400 (Message "Missing required fields")
  else
  await user := storage_read E (GetUser userId)
                  (fun s => MemStorage.getUser s userId) in
  match user with
  | None => reply 404 (Message "User not found")
  | Some user =>
  match platformCredentials user platform with
  | None => reply 400 (Message "Unsupported platform")
  | Some credentials =>
  if negb (truthy credentials)
  then reply 400 (Message (noCredentialsMessage platform))
  else
  await credentials' := lift (credentialsWithUserId E credentials userId) in
  await jobListing := storage_read E (GetJobListing jobId)
                        (fun s => MemStorage.getJobListing s jobId) in
  match jobListing with
  | None => reply 404 (Message "Job listing not found")
  | Some jobListing =>
  match JobServiceFactory.getService (services E) platform with
  | None | Some (JobServiceFactory.Inherited _) =>
      reply 400 (Message (applyUnsupportedMessage platform))
  | Some (JobServiceFactory.Service service) =>
  match JobPlatformService.applyToJob service with
  | None => reply 400 (Message (applyUnsupportedMessage platform))
  | Some applyToJob =>
  if negb (JobPlatformService.hasValidCredentials service (now E) credentials')
  then reply 401 (Message (invalidCredentialsMessage platform))
  else
  await result :=
    lift (applyToJob (now E) (net E) credentials'
            (JobListing.externalId jobListing)
            {| ApplyPayload.resumeId := ApplyRequest.resumeId req;
               ApplyPayload.coverId := ApplyRequest.coverId req;
               ApplyPayload.customMessage := ApplyRequest.customMessage req |}) in
  if ApplyResult.success result
  then record_apply E userId jobId jobListing result
  else reply 400 (ApplyBody false
                    (ApplyResult.message result ||| Str "Failed to submit application")
                    None)
  end end end end end.

Definition apply (E : env) (req : ApplyRequest.t) : io response :=
  io_try (apply_try E req)
         (fun _ => reply 500 (Message "Failed to apply to job")).

(** The request passes the validating steps of [apply] from world [w]: the
    fields are present, both reads succeed, the user has credentials for the
    platform and the target listing exists. *)
Definition validated (E : env) (req : ApplyRequest.t) (w : world)
    (credentials' : value) (jobListing : JobListing.t) : Prop :=
  ApplyRequest.userId req <> 0
  /\ ApplyRequest.platform req <> EmptyString
  /\ ApplyRequest.jobId req <> 0
  /\ faults E (List.length (trace w)) = None
  /\ faults E (S (List.length (trace w))) = None
  /\ exists user credentials,
      MemStorage.getUser (store w) (ApplyRequest.userId req) = Some user
      /\ platformCredentials user (ApplyRequest.platform req) = Some credentials
      /\ truthy credentials = true
      /\ credentialsWithUserId E credentials (ApplyRequest.userId req)
         = inr credentials'
      /\ MemStorage.getJobListing (store w) (ApplyRequest.jobId req)
         = Some jobListing.

(** ** [GET /job-platform/job-details] *)

Module DetailsRequest.
(** [userId] is what [parseInt] makes of the parameter ([None] is [NaN]);
    absent string parameters are empty. *)
Record t : Type := mk {
  userId : option Z;
  platform : string;
  externalId : string
}.
End DetailsRequest.

Inductive details_body : Type :=
| DetailsMessage (message : string)
| DetailsListing (jobListing : JobListing.t).

Record details_response : Type := mkDetailsResponse {
  details_status : Z;
  details_json : details_body
}.

Definition details_reply (status : Z) (b : details_body) : io details_response :=
  io_ret {| details_status := status; details_json := b |}.

Definition jobDetails_try (E : env) (req : DetailsRequest.t) : io details_response :=
  match DetailsRequest.userId req with
  | None => details_reply 400 (DetailsMessage "Missing required parameters")
  | Some userId =>
  let platform := DetailsRequest.platform req in
  let externalId := DetailsRequest.externalId req in
  if String.eqb platform EmptyString || String.eqb externalId EmptyString
  then details_reply 400 (DetailsMessage "Missing required parameters")
  else
  await user := storage_read E (GetUser userId)
                  (fun s => MemStorage.getUser s userId) in
  match user with
  | None => details_reply 404 (DetailsMessage "User not found")
  | Some user =>
  match platformCredentials user platform with
  | None => details_reply 400 (DetailsMessage "Unsupported platform")
  | Some credentials =>
  if negb (truthy credentials)
  then details_reply 400 (DetailsMessage (noCredentialsMessage platform))
  else
  await credentials' := lift (credentialsWithUserId E credentials userId) in
  match JobServiceFactory.getService (services E) platform with
  | None => details_reply 400 (DetailsMessage "Unsupported platform")
  | Some (JobServiceFactory.Inherited _) =>
      io_throw (TypeError_call "hasValidCredentials")
  | Some (JobServiceFactory.Service service) =>
  if negb (JobPlatformService.hasValidCredentials service (now E) credentials')
  then details_reply 401 (DetailsMessage (invalidCredentialsMessage platform))
  else
  await jobListing :=
    storage_read E (GetJobListingByExternalId userId (Str externalId))
      (fun s => MemStorage.getJobListingByExternalId s userId (Str externalId)) in
  match jobListing with
  | Some jobListing => details_reply 200 (DetailsListing jobListing)
  | None =>
      await jobDetails :=
        lift (JobPlatformService.getJobDetails service (now E) (net E)
                credentials' externalId) in
      match jobDetails with
      | None => details_reply 404 (DetailsMessage "Job not found on platform")
      | Some jobDetails =>
          await created :=
            storage_call E (CreateJobListing jobDetails)
              (fun s => MemStorage.createJobListing (now E) s jobDetails) in
          details_reply 200 (DetailsListing created)
      end
  end end end end end.

Definition jobDetails (E : env) (req : DetailsRequest.t) : io details_response :=
  io_try (jobDetails_try E req)
         (fun _ => details_reply 500 (DetailsMessage "Failed to fetch job details")).

(** The request passes the validating steps of [jobDetails] from world [w]:
    the parameters are present, the first two storage reads are not
    rejected, the user has credentials for the platform, and the adapter
    registered for it accepts them. *)
Definition details_validated (E : env) (req : DetailsRequest.t) (w : world)
    (userId : Z) (credentials' : value) (service : JobPlatformService.t) : Prop :=
  DetailsRequest.userId req = Some userId
  /\ DetailsRequest.platform req <> EmptyString
  /\ DetailsRequest.externalId req <> EmptyString
  /\ faults E (List.length (trace w)) = None
  /\ faults E (S (List.length (trace w))) = None
  /\ JobServiceFactory.getService (services E) (DetailsRequest.platform req)
     = Some (JobServiceFactory.Service service)
  /\ JobPlatformService.hasValidCredentials service (now E) credentials' = true
  /\ exists user credentials,
      MemStorage.getUser (store w) userId = Some user
      /\ platformCredentials user (DetailsRequest.platform req) = Some credentials
      /\ truthy credentials = true
      /\ credentialsWithUserId E credentials userId = inr credentials'.

End Handlers.

(* ===================================================================== *)
(** * Vocabulary of the statements about the store *)
(* ===================================================================== *)

Module Invariants.

(** [s'] is [s] with the rows [added] appended to [jobListings] and nothing
    else moved. *)
Definition grows (s s' : MemStorage.t) (added : JsMap.t JobListing.t) : Prop :=
  MemStorage.jobListings s' = MemStorage.jobListings s ++ added
  /\ MemStorage.users s' = MemStorage.users s
  /\ MemStorage.applications s' = MemStorage.applications s
  /\ MemStorage.stats s' = MemStorage.stats s
  /\ MemStorage.applicationIdCounter s' = MemStorage.applicationIdCounter s.

(** None of the rows [added] carries a key that [s] already resolves for
    [userId]. *)
Definition fresh_keys (userId : Z) (s : MemStorage.t)
    (added : JsMap.t JobListing.t) : Prop :=
  Forall (fun kv =>
            forall ext e,
              MemStorage.getJobListingByExternalId s userId ext = Some e ->
              MemStorage.sameExternalJob userId ext (snd kv) = false) added.

(** [row] was answered by a lookup in [s'] or is one of the rows
    [added]. *)
Definition found_or_added (userId : Z) (s' : MemStorage.t)
    (added : JsMap.t JobListing.t) (row : JobListing.t) : Prop :=
  (exists ext, MemStorage.getJobListingByExternalId s' userId ext = Some row)
  \/ In row (JsMap.values added).

(** [s] contains a comma. *)
Fixpoint has_comma (s : string) : bool :=
  match s with
  | EmptyString => false
  | String c rest => Ascii.eqb c "," || has_comma rest
  end.

(** The rows of [s] that carry the key [(userId, externalId)]. *)
Definition rowsWithKey (s : MemStorage.t) (userId : Z) (externalId : value)
  : list JobListing.t :=
  List.filter (MemStorage.sameExternalJob userId externalId)
    (JsMap.values (MemStorage.jobListings s)).

End Invariants.

(* ===================================================================== *)
(** * Sample data used by the concrete runs below *)
(* ===================================================================== *)

Module Examples.

Definition linkedinCredentials : value := Obj [("accessToken", Str "tok")].

Definition indeedCredentials : value :=
  Obj [("publisherId", Str "pub"); ("apiKey", Str "key")].

Definition params (page limit : option Z) : SearchParams.t :=
  {| SearchParams.keywords := Some ["React"%string];
     SearchParams.locations := None;
     SearchParams.remote := false;
     SearchParams.excludeKeywords := None;
     SearchParams.experience := None;
     SearchParams.page := page;
     SearchParams.limit := limit;
     SearchParams.userId := 1 |}.

(** One page of Indeed results out of 45. *)
Definition indeedPage : value :=
  Obj [("results", Arr [Obj [("jobkey", Str "a1"); ("jobtitle", Str "Developer")]]);
       ("totalResults", Num 45)].

(** One page of LinkedIn results with a link to the next page. *)
Definition linkedinPage : value :=
  Obj [("elements", Arr [Obj [("id", Str "42"); ("title", Str "Engineer")]]);
       ("paging",
        Obj [("total", Num 45);
             ("links", Arr [Obj [("rel", Str "next");
                                 ("href", Str "/jobSearch?start=20")]])])].


Definition answering (data : value) : Http.network := fun _ => Http.Response data.

(** A stored Indeed listing of user 1 with external id "42", already
    applied to. *)
Definition storedIndeedJob : JobListing.t :=
  {| JobListing.id := 1;
     JobListing.userId := Num 1;
     JobListing.source := "Indeed";
     JobListing.externalId := Str "42";
     JobListing.title := Str "Analyst";
     JobListing.company := Str "Initech";
     JobListing.location := Null;
     JobListing.description := Null;
     JobListing.salary := Null;
     JobListing.url := Str "https://www.indeed.com/viewjob?jk=42";
     JobListing.isRemote := Null;
     JobListing.postedAt := None;
     JobListing.savedAt := 1000;
     JobListing.applied := true;
     JobListing.hidden := false;
     JobListing.details := Obj [("jobkey", Str "42")] |}.

(** A stored LinkedIn listing of user 1, not applied to yet. *)
Definition storedLinkedInJob : JobListing.t :=
  {| JobListing.id := 2;
     JobListing.userId := Num 1;
     JobListing.source := "LinkedIn";
     JobListing.externalId := Str "77";
     JobListing.title := Str "Engineer";
     JobListing.company := Str "Globex";
     JobListing.location := Null;
     JobListing.description := Null;
     JobListing.salary := Null;
     JobListing.url := Str "https://www.linkedin.com/jobs/view/77";
     JobListing.isRemote := Null;
     JobListing.postedAt := None;
     JobListing.savedAt := 1000;
     JobListing.applied := false;
     JobListing.hidden := false;
     JobListing.details := Obj [("id", Str "77")] |}.

(** The same external job as [storedLinkedInJob], as a later search would
    fetch it. *)
Definition fetchedLinkedInJob : JobListing.t :=
  {| JobListing.id := 0;
     JobListing.userId := Num 1;
     JobListing.source := "LinkedIn";
     JobListing.externalId := Str "77";
     JobListing.title := Str "Senior Engineer";
     JobListing.company := Str "Globex";
     JobListing.location := Null;
     JobListing.description := Null;
     JobListing.salary := Null;
     JobListing.url := Str "https://www.linkedin.com/jobs/view/77";
     JobListing.isRemote := Null;
     JobListing.postedAt := None;
     JobListing.savedAt := 5000;
     JobListing.applied := false;
     JobListing.hidden := false;
     JobListing.details := Obj [("id", Str "77"); ("title", Str "Senior Engineer")] |}.


Definition user1 : User.t :=
  {| User.id := 1;
     User.linkedinCredentials := linkedinCredentials;
     User.indeedCredentials := indeedCredentials |}.

Definition stat1 : Stat.t :=
  {| Stat.id := 1; Stat.userId := 1; Stat.timestamp := 1000;
     Stat.totalApplications := 3; Stat.interviewRate := 0;
     Stat.avgResponseTime := 0; Stat.aiGeneratedDocs := 0 |}.

Definition store1 : MemStorage.t :=
  {| MemStorage.users := [(1, user1)];
     MemStorage.applications := [];
     MemStorage.jobListings := [(1, storedIndeedJob); (2, storedLinkedInJob)];
     MemStorage.stats := [(1, stat1)];
     MemStorage.applicationIdCounter := 1;
     MemStorage.jobListingIdCounter := 3 |}.

Definition world1 : Routes.world :=
  {| Routes.store := store1; Routes.trace := [] |}.



(** An environment at time 5000 over the built-in registry; the network
    answers every request with [data], no stored credential parses as JSON
    text, and the storage calls at the positions listed in [failing]
    reject. *)
Definition environment (data : value) (failing : list nat) : Routes.env :=
  {| Routes.now := 5000;
     Routes.net := answering data;
     Routes.JSON_parse := fun _ => inl (Error "Unexpected end of JSON input");
     Routes.services := JobServiceFactory.services;
     Routes.faults :=
       fun n => if existsb (Nat.eqb n) failing then Some "connection lost"%string
                else None |}.

Definition searchLinkedIn : Handlers.SearchRequest.t :=
  {| Handlers.SearchRequest.userId := Some 1;
     Handlers.SearchRequest.platform := "linkedin";
     Handlers.SearchRequest.keywords := "React";
     Handlers.SearchRequest.locations := EmptyString;
     Handlers.SearchRequest.remote := false;
     Handlers.SearchRequest.excludeKeywords := EmptyString;
     Handlers.SearchRequest.experience := None;
     Handlers.SearchRequest.page := Some (Some 0);
     Handlers.SearchRequest.limit := Some (Some 20) |}.

(** What the LinkedIn adapter returns for an accepted application. *)
Definition submitted : ApplyResult.t :=
  {| ApplyResult.success := true;
     ApplyResult.message := Str "Application submitted";
     ApplyResult.applicationId := Str "app-9" |}.

Definition detailsOf (platform externalId : string) : Handlers.DetailsRequest.t :=
  {| Handlers.DetailsRequest.userId := Some 1;
     Handlers.DetailsRequest.platform := platform;
     Handlers.DetailsRequest.externalId := externalId |}.

Definition applyTo (platform : string) (jobId : Z) : Handlers.ApplyRequest.t :=
  {| Handlers.ApplyRequest.userId := 1;
     Handlers.ApplyRequest.platform := platform;
     Handlers.ApplyRequest.jobId := jobId;
     Handlers.ApplyRequest.resumeId := Undefined;
     Handlers.ApplyRequest.coverId := Undefined;
     Handlers.ApplyRequest.customMessage := Str "Hello" |}.

End Examples.

(* ===================================================================== *)
(** * Properties of the adapters *)
(* ===================================================================== *)

Section JsFacts.


Lemma or_else_truthy (a b : value) : truthy a = true -> a ||| b = a.
Proof. intros H. unfold or_else. now rewrite H. Qed.


Lemma get_prop_ok (v : value) (k : string) :
  nullish v = false -> get_prop v k = inr (get v k).
Proof. intros H. unfold get_prop. now rewrite H. Qed.

Lemma get_prop_nullish (v : value) (k : string) :
  nullish v = true -> get_prop v k = inl (TypeError_read v k).
Proof. intros H. unfold get_prop. now rewrite H. Qed.

Lemma try_catch_total {A} (m : res A) (h : exn -> res A) :
  (forall e, exists a, h e = inr a) -> exists a, try_catch m h = inr a.
Proof.
  intros Hh. destruct m as [e|a]; simpl; [apply Hh | now exists a].
Qed.

Lemma strict_eq_Str (v : value) (s : string) :
  strict_eq v (Str s) = true <-> v = Str s.
Proof.
  split.
  - destruct v; simpl; try discriminate.
    intros H. apply String.eqb_eq in H. now subst.
  - intros ->. simpl. apply String.eqb_refl.
Qed.









End JsFacts.








(** C4. Neither adapter's [searchJobs] raises: it always returns a result,
    and whenever its [try] block fails (in particular on invalid
    credentials, on a rejected request and on a response body that is
    [null], [undefined] or whose item list is not an array) the result is
    the empty one, with [hasMore = false] and [total = 0]. *)
Theorem searchJobs_never_raises (now : Z) (net : Http.network)
    (credentials : value) (params : SearchParams.t) :
  (exists r, IndeedService.searchJobs now net credentials params = inr r)
  /\ (exists r, LinkedInService.searchJobs now net credentials params = inr r)
  /\ (forall e, IndeedService.searchJobs_try now net credentials params = inl e ->
      IndeedService.searchJobs now net credentials params = inr SearchResult.empty)
  /\ (forall e, LinkedInService.searchJobs_try now net credentials params = inl e ->
      LinkedInService.searchJobs now net credentials params = inr SearchResult.empty)
  /\ (IndeedService.hasValidCredentials credentials = false ->
      IndeedService.searchJobs now net credentials params = inr SearchResult.empty)
  /\ (LinkedInService.hasValidCredentials now credentials = false ->
      LinkedInService.searchJobs now net credentials params = inr SearchResult.empty)
  /\ (forall m, net (IndeedService.searchRequest credentials params) = Http.Rejected m ->
      IndeedService.searchJobs now net credentials params = inr SearchResult.empty)
  /\ (forall m, net (LinkedInService.searchRequest credentials params) = Http.Rejected m ->
      LinkedInService.searchJobs now net credentials params = inr SearchResult.empty)
  /\ (forall data,
        net (IndeedService.searchRequest credentials params) = Http.Response data ->
        nullish data = true
        \/ (truthy (get data "results") = true
            /\ forall xs, get data "results" <> Arr xs) ->
        IndeedService.searchJobs now net credentials params = inr SearchResult.empty)
  /\ (forall data,
        net (LinkedInService.searchRequest credentials params) = Http.Response data ->
        nullish data = true
        \/ (truthy (get data "elements") = true
            /\ forall xs, get data "elements" <> Arr xs) ->
        LinkedInService.searchJobs now net credentials params = inr SearchResult.empty).
Proof.
  assert (HI : forall e, IndeedService.searchJobs_try now net credentials params = inl e ->
               IndeedService.searchJobs now net credentials params = inr SearchResult.empty).
  { intros e He. unfold IndeedService.searchJobs. now rewrite He. }
  assert (HL : forall e, LinkedInService.searchJobs_try now net credentials params = inl e ->
               LinkedInService.searchJobs now net credentials params = inr SearchResult.empty).
  { intros e He. unfold LinkedInService.searchJobs. now rewrite He. }
  split; [apply try_catch_total; intros; now eexists|].
  split; [apply try_catch_total; intros; now eexists|].
  split; [exact HI|]. split; [exact HL|].
  repeat split.
  - intros Hc. eapply HI. unfold IndeedService.searchJobs_try. now rewrite Hc.
  - intros Hc. eapply HL. unfold LinkedInService.searchJobs_try. now rewrite Hc.
  - intros m Hm. unfold IndeedService.searchJobs, IndeedService.searchJobs_try.
    destruct (IndeedService.hasValidCredentials credentials); simpl; [|reflexivity].
    now rewrite Hm.
  - intros m Hm. unfold LinkedInService.searchJobs, LinkedInService.searchJobs_try.
    destruct (LinkedInService.hasValidCredentials now credentials); simpl; [|reflexivity].
    now rewrite Hm.
  - intros data Hd Hbad.
    unfold IndeedService.searchJobs, IndeedService.searchJobs_try.
    destruct (IndeedService.hasValidCredentials credentials); simpl; [|reflexivity].
    rewrite Hd. destruct Hbad as [Hn | [Ht Hna]].
    + now rewrite (get_prop_nullish _ _ Hn).
    + assert (Hnn : nullish data = false).
      { destruct data; simpl in *; try reflexivity; discriminate. }
      rewrite (get_prop_ok _ _ Hnn). simpl.
      rewrite (or_else_truthy _ _ Ht).
      destruct (get data "results") eqn:Hr; simpl; try reflexivity.
      now destruct (Hna elements).
  - intros data Hd Hbad.
    unfold LinkedInService.searchJobs, LinkedInService.searchJobs_try.
    destruct (LinkedInService.hasValidCredentials now credentials); simpl; [|reflexivity].
    rewrite Hd. destruct Hbad as [Hn | [Ht Hna]].
    + now rewrite (get_prop_nullish _ _ Hn).
    + assert (Hnn : nullish data = false).
      { destruct data; simpl in *; try reflexivity; discriminate. }
      rewrite (get_prop_ok _ _ Hnn). simpl.
      rewrite (or_else_truthy _ _ Ht).
      destruct (get data "elements") eqn:Hr; simpl; try reflexivity.
      now destruct (Hna elements).
Qed.

Section Pagination.






Lemma some_res_existsb (links : list value) :
  Forall (fun x => nullish x = false) links ->
  some_res (fun link => let* rel := get_prop link "rel" in
                        ret (strict_eq rel (Str "next"))) links
  = inr (existsb (fun link => strict_eq (get link "rel") (Str "next")) links).
Proof.
  induction 1 as [|x xs Hx _ IH]; simpl; [reflexivity|].
  rewrite (get_prop_ok _ _ Hx). simpl.
  destruct (strict_eq (get x "rel") (Str "next")); simpl; [reflexivity|exact IH].
Qed.



End Pagination.



(** Beyond [2 ^ 53] the offset that is sent is the double nearest to the
    product: for page 94906267 with page size 94906267 it ends in 288, the
    product in 289. *)
Lemma searchQuery_rounds_large_products :
  94906267 * 94906267 = 9007199515875289
  /\ LinkedInService.searchQuery (Examples.params (Some 94906267) (Some 94906267))
     = [("keywords", "React"); ("start", "9007199515875288");
        ("count", "94906267")]%string.
Proof. split; [reflexivity|vm_compute; reflexivity]. Qed.


(* ===================================================================== *)
(** * Properties of the registry *)
(* ===================================================================== *)

Section Registry.
Import JobServiceFactory.

(** Lowering leaves a byte outside ASCII alone, and no other byte is
    lowered to it. *)
Lemma lower_ascii_high (x y c : ascii) :
  (128 <= nat_of_ascii c)%nat ->
  lower_ascii x = lower_ascii y -> Ascii.eqb x c = Ascii.eqb y c.
Proof.
  intros Hc H.
  assert (Hlow : forall z, lower_ascii z = c -> z = c).
  { intros z Hz. unfold lower_ascii in Hz.
    destruct (Nat.leb 65 (nat_of_ascii z) && Nat.leb (nat_of_ascii z) 90)%bool eqn:Hr;
      [|exact Hz].
    apply andb_prop in Hr as [H1 H2].
    apply Nat.leb_le in H1. apply Nat.leb_le in H2.
    assert (Hn : nat_of_ascii c = (nat_of_ascii z + 32)%nat).
    { rewrite <- Hz. apply nat_ascii_embedding. lia. }
    lia. }
  assert (Hid : lower_ascii c = c).
  { unfold lower_ascii.
    destruct (Nat.leb 65 (nat_of_ascii c) && Nat.leb (nat_of_ascii c) 90)%bool eqn:Hr;
      [|reflexivity].
    apply andb_prop in Hr as [_ H2]. apply Nat.leb_le in H2. lia. }
  destruct (Ascii.eqb_spec x c) as [->|Hx], (Ascii.eqb_spec y c) as [->|Hy];
    try reflexivity.
  - exfalso. apply Hy. apply Hlow. now rewrite <- H.
  - exfalso. apply Hx. apply Hlow. now rewrite H.
Qed.

Lemma kelvin_ignores_case (x1 x2 x3 y1 y2 y3 : ascii) :
  lower_ascii x1 = lower_ascii y1 ->
  lower_ascii x2 = lower_ascii y2 ->
  lower_ascii x3 = lower_ascii y3 ->
  kelvin x1 x2 x3 = kelvin y1 y2 y3.
Proof.
  intros H1 H2 H3. unfold kelvin.
  rewrite (lower_ascii_high x1 y1 "226" ltac:(apply Nat.leb_le; reflexivity) H1).
  rewrite (lower_ascii_high x2 y2 "132" ltac:(apply Nat.leb_le; reflexivity) H2).
  now rewrite (lower_ascii_high x3 y3 "170" ltac:(apply Nat.leb_le; reflexivity) H3).
Qed.

Lemma eq_ignore_case_lower_bounded (n : nat) :
  forall a b : string,
    (String.length a <= n)%nat ->
    eq_ignore_case a b = true -> toLowerCase a = toLowerCase b.
Proof.
  induction n as [|n IH]; intros a b Hlen H.
  - destruct a; [|simpl in Hlen; lia]. destruct b; [reflexivity|discriminate].
  - destruct a as [|x1 a]; destruct b as [|y1 b]; try discriminate; [reflexivity|].
    cbn [eq_ignore_case] in H. apply andb_prop in H as [H1 Hr].
    apply Ascii.eqb_eq in H1. cbn [String.length] in Hlen.
    assert (Hrest : toLowerCase a = toLowerCase b) by (apply IH; [lia|exact Hr]).
    destruct a as [|x2 a]; destruct b as [|y2 b]; try discriminate.
    { cbn [toLowerCase]. now rewrite H1. }
    pose proof Hr as Hr'. cbn [eq_ignore_case] in Hr'.
    apply andb_prop in Hr' as [H2 Hr2]. apply Ascii.eqb_eq in H2.
    destruct a as [|x3 a]; destruct b as [|y3 b]; try discriminate.
    { cbn [toLowerCase] in *. now rewrite H1, H2. }
    pose proof Hr2 as Hr3. cbn [eq_ignore_case] in Hr3.
    apply andb_prop in Hr3 as [H3 Hr3]. apply Ascii.eqb_eq in H3.
    change (toLowerCase (String x1 (String x2 (String x3 a))))
      with (if kelvin x1 x2 x3 then String "k" (toLowerCase a)
            else String (lower_ascii x1) (toLowerCase (String x2 (String x3 a)))).
    change (toLowerCase (String y1 (String y2 (String y3 b))))
      with (if kelvin y1 y2 y3 then String "k" (toLowerCase b)
            else String (lower_ascii y1) (toLowerCase (String y2 (String y3 b)))).
    rewrite (kelvin_ignores_case _ _ _ _ _ _ H1 H2 H3), Hrest, H1.
    destruct (kelvin y1 y2 y3); [|reflexivity].
    f_equal. apply IH; [cbn [String.length] in Hlen; lia|exact Hr3].
Qed.

Lemma eq_ignore_case_lower (a b : string) :
  eq_ignore_case a b = true -> toLowerCase a = toLowerCase b.
Proof. apply (eq_ignore_case_lower_bounded (String.length a)). lia. Qed.

(** Lookup does not depend on the case of the identifier. *)
Lemma getService_case_insensitive
    (reg : gmap string JobPlatformService.t) (a b : string) :
  eq_ignore_case a b = true -> getService reg a = getService reg b.
Proof.
  intros H. unfold getService. now rewrite (eq_ignore_case_lower a b H).
Qed.

(** An identifier that names neither a registered adapter nor a member of
    [Object.prototype] resolves to nothing. *)
Lemma getService_unregistered
    (reg : gmap string JobPlatformService.t) (platform : string) :
  reg !! toLowerCase platform = None ->
  onObjectPrototype (toLowerCase platform) = false ->
  getService reg platform = None.
Proof. intros H1 H2. unfold getService. now rewrite H1, H2. Qed.

Lemma getService_builtin_indeed (platform : string) :
  toLowerCase platform = "indeed"%string ->
  getService services platform = Some (Service IndeedService.service).
Proof. intros H. unfold getService. rewrite H. reflexivity. Qed.

Lemma getService_builtin_linkedin (platform : string) :
  toLowerCase platform = "linkedin"%string ->
  getService services platform = Some (Service LinkedInService.service).
Proof. intros H. unfold getService. rewrite H. reflexivity. Qed.

(** The Kelvin sign is lowered to [k]: "lin", U+212A, "edin" names the
    LinkedIn adapter. *)
Lemma getService_kelvin_sign :
  getService services ("lin" +:+ String "226" (String "132" (String "170" "edin")))
  = Some (Service LinkedInService.service).
Proof. reflexivity. Qed.

End Registry.

(** C9. The lookup is case-insensitive and never raises, but for the
    identifiers "constructor" and "__proto__", for which no adapter is
    registered, it does not return the absent result: indexing the plain
    [services] object finds the member inherited from [Object.prototype],
    which is truthy and is returned as if it were an adapter. *)
Theorem getService_returns_inherited_member :
  JobServiceFactory.services !! "constructor"%string = None
  /\ JobServiceFactory.getService JobServiceFactory.services "constructor"
     = Some (JobServiceFactory.Inherited "constructor")
  /\ JobServiceFactory.getService JobServiceFactory.services "Constructor"
     = Some (JobServiceFactory.Inherited "constructor")
  /\ JobServiceFactory.getService JobServiceFactory.services "__proto__"
     = Some (JobServiceFactory.Inherited "__proto__")
  /\ JobServiceFactory.getService JobServiceFactory.services "monster" = None.
Proof. repeat split; reflexivity. Qed.

(** C10. With [null] (or [undefined]) credentials the Indeed adapter's
    [getJobDetails] raises to its caller: [credentials.userId] is read
    before the [try] block is entered.  The LinkedIn adapter reads it inside
    the block and answers [null]. *)
Theorem getJobDetails_Indeed_raises_on_null_credentials
    (now : Z) (net : Http.network) (externalId : string) :
  IndeedService.getJobDetails now net Null externalId
  = inl (TypeError_read Null "userId")
  /\ IndeedService.getJobDetails now net Undefined externalId
     = inl (TypeError_read Undefined "userId")
  /\ LinkedInService.getJobDetails now net Null externalId = inr None
  /\ LinkedInService.getJobDetails now net Undefined externalId = inr None.
Proof. repeat split; reflexivity. Qed.

Section GetJobDetails.

(** The LinkedIn adapter never raises from [getJobDetails], and answers
    [null] whenever its [try] block fails. *)
Lemma getJobDetails_LinkedIn_total (now : Z) (net : Http.network)
    (credentials : value) (externalId : string) :
  (exists r, LinkedInService.getJobDetails now net credentials externalId = inr r)
  /\ (forall e,
        LinkedInService.getJobDetails_try now net credentials externalId = inl e ->
        LinkedInService.getJobDetails now net credentials externalId = inr None).
Proof.
  split.
  - apply try_catch_total. intros. now eexists.
  - intros e He. unfold LinkedInService.getJobDetails. now rewrite He.
Qed.

(** So does the Indeed adapter once the credentials are an actual value. *)
Lemma getJobDetails_Indeed_total (now : Z) (net : Http.network)
    (credentials : value) (externalId : string) :
  nullish credentials = false ->
  (exists r, IndeedService.getJobDetails now net credentials externalId = inr r)
  /\ (forall e,
        IndeedService.getJobDetails_try now net credentials externalId
          (get credentials "userId" ||| Num 1) = inl e ->
        IndeedService.getJobDetails now net credentials externalId = inr None).
Proof.
  intros Hc. unfold IndeedService.getJobDetails.
  rewrite (get_prop_ok _ _ Hc). simpl. split.
  - apply try_catch_total. intros. now eexists.
  - intros e He. now rewrite He.
Qed.

End GetJobDetails.

(* ===================================================================== *)
(** * Properties of the search handler's persistence loop *)
(* ===================================================================== *)

Section JsMapFacts.
Context {V : Type}.
Implicit Types (m : JsMap.t V) (k : Z) (v : V).

Lemma JsMap_set_fresh m k v :
  ~ In k (JsMap.keys m) -> JsMap.set m k v = m ++ [(k, v)].
Proof.
  induction m as [|[k' v'] m IH]; simpl; intros Hk; [reflexivity|].
  destruct (Z.eqb_spec k' k) as [->|Hne].
  - exfalso. apply Hk. now left.
  - f_equal. apply IH. intros Hin. apply Hk. now right.
Qed.

Lemma JsMap_get_set_same m k v : JsMap.get (JsMap.set m k v) k = Some v.
Proof.
  induction m as [|[k' v'] m IH]; simpl.
  - now rewrite Z.eqb_refl.
  - destruct (Z.eqb_spec k' k) as [->|Hne]; simpl.
    + now rewrite Z.eqb_refl.
    + destruct (Z.eqb_spec k' k); [congruence|exact IH].
Qed.

Lemma JsMap_get_set_other m k k' v :
  k <> k' -> JsMap.get (JsMap.set m k v) k' = JsMap.get m k'.
Proof.
  intros Hne. induction m as [|[k0 v0] m IH]; simpl.
  - destruct (Z.eqb_spec k k'); [congruence|reflexivity].
  - destruct (Z.eqb_spec k0 k) as [->|Hne0]; simpl.
    + destruct (Z.eqb_spec k k'); [congruence|reflexivity].
    + destruct (Z.eqb_spec k0 k'); [reflexivity|exact IH].
Qed.

Lemma JsMap_get_app m m' k v :
  JsMap.get m k = Some v -> JsMap.get (m ++ m') k = Some v.
Proof.
  induction m as [|[k0 v0] m IH]; simpl; [discriminate|].
  destruct (k0 =? k); auto.
Qed.

Lemma JsMap_keys_app m m' : JsMap.keys (m ++ m') = JsMap.keys m ++ JsMap.keys m'.
Proof. unfold JsMap.keys. apply List.map_app. Qed.

Lemma JsMap_values_app m m' :
  JsMap.values (m ++ m') = JsMap.values m ++ JsMap.values m'.
Proof. unfold JsMap.values. apply List.map_app. Qed.

Lemma JsMap_keys_set m k v :
  forall k', In k' (JsMap.keys (JsMap.set m k v)) -> k' = k \/ In k' (JsMap.keys m).
Proof.
  induction m as [|[k0 v0] m IH]; simpl; intros k' H.
  - destruct H as [H|[]]; auto.
  - destruct (Z.eqb_spec k0 k) as [->|Hne]; simpl in H.
    + destruct H as [H|H]; auto.
    + destruct H as [H|H]; auto. destruct (IH _ H); auto.
Qed.
End JsMapFacts.

Section FindFacts.
Context {A : Type}.

Lemma find_app_some (p : A -> bool) (xs ys : list A) (x : A) :
  List.find p xs = Some x -> List.find p (xs ++ ys) = Some x.
Proof.
  induction xs as [|a xs IH]; simpl; [discriminate|].
  destruct (p a); auto.
Qed.

Lemma find_none_all (p : A -> bool) (xs : list A) :
  List.find p xs = None -> forall x, In x xs -> p x = false.
Proof.
  induction xs as [|a xs IH]; simpl; intros H x Hin; [contradiction|].
  destruct (p a) eqn:Hp; [discriminate|].
  destruct Hin as [<-|Hin]; auto.
Qed.

Lemma filter_all_false (p : A -> bool) (xs : list A) :
  Forall (fun x => p x = false) xs -> List.filter p xs = [].
Proof.
  induction 1 as [|a xs Ha _ IH]; simpl; [reflexivity|]. now rewrite Ha.
Qed.
End FindFacts.

Lemma strict_eq_true_eq (a b : value) : strict_eq a b = true -> a = b.
Proof.
  destruct a, b; simpl; try discriminate; intros H; try reflexivity.
  - apply Bool.eqb_prop in H. now subst.
  - apply Z.eqb_eq in H. now subst.
  - apply String.eqb_eq in H. now subst.
Qed.

Section SearchLoop.
Import Routes Handlers Invariants.

Variable E : env.
Variable userId : Z.

Lemma grows_refl (s : MemStorage.t) : grows s s [].
Proof. unfold grows. now rewrite app_nil_r. Qed.

Lemma grows_trans (s1 s2 s3 : MemStorage.t) (a b : JsMap.t JobListing.t) :
  grows s1 s2 a -> grows s2 s3 b -> grows s1 s3 (a ++ b).
Proof.
  unfold grows. intros (H1 & H2 & H3 & H4 & H5) (G1 & G2 & G3 & G4 & G5).
  rewrite G1, H1, app_assoc. repeat split; congruence.
Qed.

Lemma grows_get (s s' : MemStorage.t) added (k : Z) (l : JobListing.t) :
  grows s s' added ->
  MemStorage.getJobListing s k = Some l -> MemStorage.getJobListing s' k = Some l.
Proof.
  intros (H & _) Hg. unfold MemStorage.getJobListing in *. rewrite H.
  now apply JsMap_get_app.
Qed.

Lemma grows_lookup (s s' : MemStorage.t) added (ext : value) (e : JobListing.t) :
  grows s s' added ->
  MemStorage.getJobListingByExternalId s userId ext = Some e ->
  MemStorage.getJobListingByExternalId s' userId ext = Some e.
Proof.
  intros (H & _) Hg. unfold MemStorage.getJobListingByExternalId in *.
  rewrite H, JsMap_values_app. now apply find_app_some.
Qed.

Lemma createJobListing_grows (s : MemStorage.t) (job : JobListing.t) :
  MemStorage.wf s ->
  grows s (snd (MemStorage.createJobListing (now E) s job))
        [(MemStorage.jobListingIdCounter s,
          fst (MemStorage.createJobListing (now E) s job))]
  /\ MemStorage.wf (snd (MemStorage.createJobListing (now E) s job)).
Proof.
  intros [Hj Ha].
  assert (Hfresh : ~ In (MemStorage.jobListingIdCounter s)
                        (JsMap.keys (MemStorage.jobListings s))).
  { intros Hin. rewrite List.Forall_forall in Hj. specialize (Hj _ Hin). lia. }
  split.
  - unfold grows. simpl. rewrite (JsMap_set_fresh _ _ _ Hfresh). repeat split.
  - split; simpl; [|exact Ha].
    rewrite (JsMap_set_fresh _ _ _ Hfresh), JsMap_keys_app.
    apply List.Forall_app. split.
    + eapply List.Forall_impl; [|exact Hj]. simpl. intros; lia.
    + repeat constructor. simpl. lia.
Qed.

Lemma saveJob_cases (job : JobListing.t) (acc : list JobListing.t) (w : world) :
  saveJob E userId job acc w =
  let lookup := GetJobListingByExternalId userId (JobListing.externalId job) in
  match faults E (List.length (trace w)) with
  | Some _ => (inr acc, {| store := store w; trace := trace w ++ [lookup] |})
  | None =>
      match MemStorage.getJobListingByExternalId (store w) userId
              (JobListing.externalId job) with
      | Some existing =>
          (inr (acc ++ [existing]),
           {| store := store w; trace := trace w ++ [lookup] |})
      | None =>
          match faults E (List.length (trace w ++ [lookup])) with
          | Some _ =>
              (inr acc,
               {| store := store w;
                  trace := (trace w ++ [lookup]) ++ [CreateJobListing job] |})
          | None =>
              (inr (acc ++ [fst (MemStorage.createJobListing (now E) (store w) job)]),
               {| store := snd (MemStorage.createJobListing (now E) (store w) job);
                  trace := (trace w ++ [lookup]) ++ [CreateJobListing job] |})
          end
      end
  end.
Proof.
  unfold saveJob, io_try, io_bind, storage_read, storage_call, io_ret. simpl.
  destruct (faults E (List.length (trace w))); [reflexivity|].
  destruct (MemStorage.getJobListingByExternalId (store w) userId
              (JobListing.externalId job)); [reflexivity|].
  simpl. destruct (faults E _); reflexivity.
Qed.

Lemma saveJob_step (job : JobListing.t) (acc : list JobListing.t) (w : world) :
  MemStorage.wf (store w) ->
  exists saved w' added,
    saveJob E userId job acc w = (inr (acc ++ saved), w')
    /\ grows (store w) (store w') added
    /\ MemStorage.wf (store w')
    /\ fresh_keys userId (store w) added
    /\ Forall (found_or_added userId (store w') added) saved.
Proof.
  intros Hwf. rewrite saveJob_cases. cbv zeta.
  destruct (faults E (List.length (trace w))).
  { eexists [], _, []. rewrite app_nil_r. simpl.
    split; [reflexivity|]. split; [apply grows_refl|]. split; [exact Hwf|].
    split; constructor. }
  destruct (MemStorage.getJobListingByExternalId (store w) userId
              (JobListing.externalId job)) as [existing|] eqn:Hfind.
  { eexists [existing], _, []. simpl.
    split; [reflexivity|]. split; [apply grows_refl|]. split; [exact Hwf|].
    split; [constructor|].
    constructor; [|constructor]. left. eexists. exact Hfind. }
  destruct (faults E _).
  { eexists [], _, []. rewrite app_nil_r. simpl.
    split; [reflexivity|]. split; [apply grows_refl|]. split; [exact Hwf|].
    split; constructor. }
  destruct (createJobListing_grows (store w) job Hwf) as [Hg Hwf'].
  eexists [_], _, [_]. simpl. split; [reflexivity|]. split; [exact Hg|].
  split; [exact Hwf'|]. split.
  - constructor; [|constructor]. simpl. intros ext e He.
    unfold MemStorage.sameExternalJob. simpl.
    destruct (strict_eq (JobListing.userId job) (Num userId)) eqn:Hu; [|reflexivity].
    destruct (strict_eq (JobListing.externalId job) ext) eqn:Hx; [|reflexivity].
    apply strict_eq_true_eq in Hx. subst ext. congruence.
  - constructor; [|constructor]. right. simpl. now left.
Qed.

Lemma found_or_added_later (s s' : MemStorage.t) a a1 a2 (row : JobListing.t) :
  grows s s' a ->
  found_or_added userId s a1 row \/ found_or_added userId s' a2 row ->
  found_or_added userId s' (a1 ++ a2) row.
Proof.
  intros Hg [[[ext He]|Hin]|[[ext He]|Hin]].
  - left. exists ext. eapply grows_lookup; eauto.
  - right. rewrite JsMap_values_app. apply List.in_or_app. now left.
  - left. now exists ext.
  - right. rewrite JsMap_values_app. apply List.in_or_app. now right.
Qed.

Lemma fresh_keys_weaken (s s' : MemStorage.t) a (added : JsMap.t JobListing.t) :
  grows s s' a -> fresh_keys userId s' added -> fresh_keys userId s added.
Proof.
  intros Hg. unfold fresh_keys. intros H.
  eapply List.Forall_impl; [|exact H]. simpl. intros kv Hkv ext e He.
  eapply Hkv. eapply grows_lookup; eauto.
Qed.

Lemma saveJobs_steps (jobs : list JobListing.t) :
  forall (acc : list JobListing.t) (w : world),
    MemStorage.wf (store w) ->
    exists saved w' added,
      saveJobs E userId jobs acc w = (inr (acc ++ saved), w')
      /\ grows (store w) (store w') added
      /\ MemStorage.wf (store w')
      /\ fresh_keys userId (store w) added
      /\ Forall (found_or_added userId (store w') added) saved.
Proof.
  induction jobs as [|job rest IH]; intros acc w Hwf; simpl.
  - exists [], w, []. rewrite app_nil_r.
    split; [reflexivity|]. split; [apply grows_refl|]. split; [exact Hwf|].
    split; constructor.
  - destruct (saveJob_step job acc w Hwf)
      as (s1 & w1 & a1 & H1 & Hg1 & Hwf1 & Hf1 & Hs1).
    destruct (IH (acc ++ s1) w1 Hwf1)
      as (s2 & w2 & a2 & H2 & Hg2 & Hwf2 & Hf2 & Hs2).
    exists (s1 ++ s2), w2, (a1 ++ a2).
    unfold io_bind. rewrite H1, H2, app_assoc.
    split; [reflexivity|]. split; [eapply grows_trans; eauto|].
    split; [exact Hwf2|]. split.
    + apply List.Forall_app. split; [exact Hf1|].
      eapply fresh_keys_weaken; eauto.
    + apply List.Forall_app. split.
      * eapply List.Forall_impl; [|exact Hs1]. simpl. intros row Hrow.
        eapply found_or_added_later; eauto.
      * eapply List.Forall_impl; [|exact Hs2]. simpl. intros row Hrow.
        eapply found_or_added_later; eauto.
Qed.

(** With no rejected storage call, every job gets a row, and a job whose
    key was persisted before the loop gets the persisted row. *)
Lemma saveJobs_rows (jobs : list JobListing.t) :
  (forall n, faults E n = None) ->
  forall (acc : list JobListing.t) (w : world),
    MemStorage.wf (store w) ->
    exists saved w',
      saveJobs E userId jobs acc w = (inr (acc ++ saved), w')
      /\ Forall2
           (fun job row =>
              forall e,
                MemStorage.getJobListingByExternalId (store w) userId
                  (JobListing.externalId job) = Some e -> row = e)
           jobs saved.
Proof.
  intros Hok. induction jobs as [|job rest IH]; intros acc w Hwf; simpl.
  - exists [], w. rewrite app_nil_r. split; [reflexivity|constructor].
  - destruct (saveJob_step job acc w Hwf) as (s1 & w1 & a1 & H1 & Hg1 & Hwf1 & _).
    destruct (IH (acc ++ s1) w1 Hwf1) as (s2 & w2 & H2 & HF).
    unfold io_bind. rewrite H1, H2.
    rewrite saveJob_cases in H1. cbv zeta in H1. rewrite !Hok in H1.
    destruct (MemStorage.getJobListingByExternalId (store w) userId
                (JobListing.externalId job)) as [existing|] eqn:Hfind.
    + injection H1 as Hs _. apply List.app_inv_head in Hs. subst s1.
      exists (existing :: s2), w2. split; [now rewrite <- app_assoc|].
      constructor.
      * intros e He. congruence.
      * eapply List.Forall2_impl; [|exact HF]. simpl. intros j r Hjr e He.
        apply Hjr. eapply grows_lookup; eauto.
    + injection H1 as Hs _. apply List.app_inv_head in Hs. subst s1.
      eexists (_ :: s2), w2. split; [now rewrite <- app_assoc|].
      constructor.
      * intros e He. congruence.
      * eapply List.Forall2_impl; [|exact HF]. simpl. intros j r Hjr e He.
        apply Hjr. eapply grows_lookup; eauto.
Qed.

End SearchLoop.

Section DedupKey.
Import Routes Handlers Invariants.

Variable E : env.
Variable userId : Z.

Lemma rowsWithKey_grows (s s' : MemStorage.t) added (ext : value) :
  grows s s' added ->
  rowsWithKey s' userId ext
  = rowsWithKey s userId ext
    ++ List.filter (MemStorage.sameExternalJob userId ext) (JsMap.values added).
Proof.
  intros (H & _). unfold rowsWithKey. now rewrite H, JsMap_values_app, List.filter_app.
Qed.

Lemma rowsWithKey_persisted (s s' : MemStorage.t) added (ext : value) (e : JobListing.t) :
  grows s s' added -> fresh_keys userId s added ->
  MemStorage.getJobListingByExternalId s userId ext = Some e ->
  rowsWithKey s' userId ext = rowsWithKey s userId ext.
Proof.
  intros Hg Hf He. rewrite (rowsWithKey_grows _ _ _ _ Hg).
  rewrite filter_all_false; [now rewrite app_nil_r|].
  unfold fresh_keys in Hf. unfold JsMap.values.
  apply List.Forall_map. eapply List.Forall_impl; [|exact Hf].
  simpl. intros kv Hkv. eapply Hkv; eauto.
Qed.

Lemma lookup_none_no_rows (s : MemStorage.t) (ext : value) :
  MemStorage.getJobListingByExternalId s userId ext = None ->
  rowsWithKey s userId ext = [].
Proof.
  intros H. unfold rowsWithKey. apply filter_all_false.
  apply List.Forall_forall. now apply find_none_all.
Qed.

Lemma row_exists_lookup_some (s : MemStorage.t) (ext : value) (row : JobListing.t) :
  In row (JsMap.values (MemStorage.jobListings s)) ->
  MemStorage.sameExternalJob userId ext row = true ->
  exists e, MemStorage.getJobListingByExternalId s userId ext = Some e.
Proof.
  intros Hin Hrow. unfold MemStorage.getJobListingByExternalId.
  destruct (List.find _ _) as [e|] eqn:Hf; [now exists e|].
  rewrite (find_none_all _ _ Hf _ Hin) in Hrow. discriminate.
Qed.

Lemma saveJob_bound (job : JobListing.t) (acc : list JobListing.t) (w : world) :
  MemStorage.wf (store w) ->
  forall ext,
    (List.length (rowsWithKey (store (snd (saveJob E userId job acc w))) userId ext)
     <= Nat.max 1 (List.length (rowsWithKey (store w) userId ext)))%nat.
Proof.
  intros Hwf ext. rewrite saveJob_cases. cbv zeta.
  destruct (faults E (List.length (trace w))); [simpl; lia|].
  destruct (MemStorage.getJobListingByExternalId (store w) userId
              (JobListing.externalId job)) eqn:Hfind; [simpl; lia|].
  destruct (faults E _); [simpl; lia|].
  destruct (createJobListing_grows E (store w) job Hwf) as [Hg _].
  remember (MemStorage.createJobListing (now E) (store w) job) as c eqn:Hc.
  cbn [snd store]. rewrite (rowsWithKey_grows _ _ _ ext Hg).
  cbn [JsMap.values List.map List.filter snd].
  destruct (MemStorage.sameExternalJob userId ext _) eqn:Hsame.
  - subst c. unfold MemStorage.sameExternalJob in Hsame. simpl in Hsame.
    apply andb_prop in Hsame as [_ Hx]. apply strict_eq_true_eq in Hx. subst ext.
    rewrite (lookup_none_no_rows _ _ Hfind). simpl. lia.
  - rewrite app_nil_r. lia.
Qed.

Lemma saveJobs_bound (jobs : list JobListing.t) :
  forall (acc : list JobListing.t) (w : world),
    MemStorage.wf (store w) ->
    forall ext,
      (List.length (rowsWithKey (store (snd (saveJobs E userId jobs acc w))) userId ext)
       <= Nat.max 1 (List.length (rowsWithKey (store w) userId ext)))%nat.
Proof.
  induction jobs as [|job rest IH]; intros acc w Hwf ext; simpl; [lia|].
  pose proof (saveJob_bound job acc w Hwf ext) as Hb.
  destruct (saveJob_step E userId job acc w Hwf) as (s1 & w1 & a1 & H1 & _ & Hwf1 & _).
  unfold io_bind. rewrite H1 in *. simpl in Hb.
  specialize (IH (acc ++ s1) w1 Hwf1 ext). lia.
Qed.

Lemma saved_rows_persisted (s s' : MemStorage.t) added (saved : list JobListing.t) :
  grows s s' added -> fresh_keys userId s added ->
  Forall (found_or_added userId s' added) saved ->
  forall row, In row saved ->
  forall ext e,
    MemStorage.getJobListingByExternalId s userId ext = Some e ->
    MemStorage.sameExternalJob userId ext row = true -> row = e.
Proof.
  intros Hg Hf Hs row Hin ext e He Hrow.
  rewrite List.Forall_forall in Hs. destruct (Hs row Hin) as [[ext' He']|Hadd].
  - pose proof He' as Hfound. unfold MemStorage.getJobListingByExternalId in Hfound.
    apply List.find_some in Hfound as [_ Hp].
    unfold MemStorage.sameExternalJob in Hp, Hrow.
    apply andb_prop in Hp as [_ Hp]. apply andb_prop in Hrow as [_ Hrow].
    apply strict_eq_true_eq in Hp. apply strict_eq_true_eq in Hrow.
    assert (ext' = ext) by congruence. subst ext'.
    pose proof (grows_lookup userId _ _ _ _ _ Hg He). congruence.
  - unfold fresh_keys in Hf. rewrite List.Forall_forall in Hf.
    unfold JsMap.values in Hadd. apply List.in_map_iff in Hadd as [kv [<- Hkv]].
    rewrite (Hf kv Hkv ext e He) in Hrow. discriminate.
Qed.

End DedupKey.

(** C1 (as amended). The loop keys persisted listings by the pair (owning
    user, externalId); the source is not part of the key.  Whatever the
    batch and whatever storage calls reject: no key of the user ends up
    with more rows than it had, a new key with more than one; a key that
    was persisted keeps resolving to the same row and keeps exactly its
    rows; every row of the result that carries a persisted key is the
    persisted row; a stored row of any source with the job's user and
    externalId makes the lookup hit.  When no storage call rejects, each job
    whose key was persisted is answered with the persisted row. *)
Theorem dedup_key_is_user_and_externalId
    (E : Routes.env) (userId : Z) (jobs : list JobListing.t) (w : Routes.world) :
  MemStorage.wf (Routes.store w) ->
  exists saved w',
    Handlers.saveJobs E userId jobs [] w = (inr saved, w')
    /\ (forall ext,
          (List.length (Invariants.rowsWithKey (Routes.store w') userId ext)
           <= Nat.max 1 (List.length (Invariants.rowsWithKey (Routes.store w) userId ext)))%nat)
    /\ (forall ext e,
          MemStorage.getJobListingByExternalId (Routes.store w) userId ext = Some e ->
          MemStorage.getJobListingByExternalId (Routes.store w') userId ext = Some e
          /\ Invariants.rowsWithKey (Routes.store w') userId ext
             = Invariants.rowsWithKey (Routes.store w) userId ext)
    /\ (forall row, In row saved ->
        forall ext e,
          MemStorage.getJobListingByExternalId (Routes.store w) userId ext = Some e ->
          MemStorage.sameExternalJob userId ext row = true -> row = e)
    /\ (forall ext row,
          In row (JsMap.values (MemStorage.jobListings (Routes.store w))) ->
          MemStorage.sameExternalJob userId ext row = true ->
          exists e,
            MemStorage.getJobListingByExternalId (Routes.store w) userId ext = Some e)
    /\ ((forall n, Routes.faults E n = None) ->
        Forall2
          (fun job row =>
             forall e,
               MemStorage.getJobListingByExternalId (Routes.store w) userId
                 (JobListing.externalId job) = Some e -> row = e)
          jobs saved).
Proof.
  intros Hwf.
  destruct (saveJobs_steps E userId jobs [] w Hwf)
    as (saved & w' & added & Hrun & Hg & _ & Hf & Hs).
  simpl in Hrun. exists saved, w'. split; [exact Hrun|].
  split.
  { intros ext. pose proof (saveJobs_bound E userId jobs [] w Hwf ext) as Hb.
    now rewrite Hrun in Hb. }
  split.
  { intros ext e He. split.
    - eapply grows_lookup; eauto.
    - eapply rowsWithKey_persisted; eauto. }
  split; [eapply saved_rows_persisted; eauto|].
  split; [intros ext row; apply row_exists_lookup_some|].
  intros Hok. destruct (saveJobs_rows E userId jobs Hok [] w Hwf) as (saved' & w'' & Hrun' & HF).
  simpl in Hrun'. rewrite Hrun in Hrun'. injection Hrun' as <- _. exact HF.
Qed.

Section SearchHandler.
Import Routes Handlers Invariants.




End SearchHandler.


(** Re-ingesting the stored LinkedIn job "77" of user 1 leaves the key with
    its single row. *)
Lemma dedup_key_is_user_and_externalId_witness :
  MemStorage.wf Examples.store1
  /\ exists saved w',
      Handlers.saveJobs (Examples.environment Null []) 1
        [Examples.fetchedLinkedInJob] [] Examples.world1 = (inr saved, w')
      /\ Invariants.rowsWithKey (Routes.store w') 1 (Str "77")
         = [Examples.storedLinkedInJob].
Proof.
  assert (Hwf : MemStorage.wf Examples.store1) by (split; repeat constructor).
  split; [exact Hwf|].
  destruct (dedup_key_is_user_and_externalId (Examples.environment Null []) 1
              [Examples.fetchedLinkedInJob] Examples.world1 Hwf)
    as (saved & w' & Hrun & _ & Hkey & _).
  exists saved, w'. split; [exact Hrun|].
  exact (proj2 (Hkey (Str "77") Examples.storedLinkedInJob eq_refl)).
Defined.

(** C1 as stated fails: user 1 holds an Indeed listing with external id
    "42" and none from LinkedIn with that id; a LinkedIn search that returns
    a job "42" is answered with the Indeed row, and no LinkedIn row is
    stored. *)
Lemma search_conflates_platforms :
  List.filter
    (fun l => String.eqb (JobListing.source l) "LinkedIn"
              && strict_eq (JobListing.externalId l) (Str "42"))
    (JsMap.values (MemStorage.jobListings Examples.store1)) = []
  /\ (exists r job,
        LinkedInService.searchJobs 5000 (Examples.answering Examples.linkedinPage)
          (spread_with Examples.linkedinCredentials "userId" (Num 1))
          (Handlers.searchParams Examples.searchLinkedIn 1) = inr r
        /\ SearchResult.jobs r = [job]
        /\ JobListing.source job = "LinkedIn"%string
        /\ JobListing.externalId job = Str "42")
  /\ exists w',
      Handlers.search (Examples.environment Examples.linkedinPage [])
        Examples.searchLinkedIn Examples.world1
      = (inr {| Handlers.status := 200;
                Handlers.json :=
                  Handlers.SearchBody [Examples.storedIndeedJob] true (Num 45) |},
         w')
      /\ Routes.store w' = Examples.store1
      /\ JobListing.source Examples.storedIndeedJob = "Indeed"%string.
Proof.
  split; [reflexivity|]. split.
  - eexists. eexists. split; [vm_compute; reflexivity|]. repeat split.
  - eexists. split; [vm_compute; reflexivity|]. split; reflexivity.
Qed.



(* ===================================================================== *)
(** * Properties of the apply handler *)
(* ===================================================================== *)

Section ApplyHandler.
Import Routes Handlers.

Lemma length_snoc {A} (xs : list A) (x : A) :
  List.length (xs ++ [x]) = S (List.length xs).
Proof. rewrite List.length_app. simpl. lia. Qed.

(** Without the capability the handler answers with a failure message and
    leaves the store alone, whatever else happens. *)
Lemma apply_try_without_capability (E : env) (req : ApplyRequest.t) (w : world)
    (service : JobPlatformService.t) :
  JobServiceFactory.getService (services E) (ApplyRequest.platform req)
  = Some (JobServiceFactory.Service service) ->
  JobPlatformService.applyToJob service = None ->
  exists w',
    store w' = store w
    /\ ((exists e, apply_try E req w = (inl e, w'))
        \/ (exists st m,
              apply_try E req w = (inr {| status := st; json := Message m |}, w')
              /\ st <> 200))
    /\ (forall credentials' jobListing,
          validated E req w credentials' jobListing ->
          apply_try E req w
          = (inr {| status := 400;
                    json := Message (applyUnsupportedMessage (ApplyRequest.platform req)) |},
             w')).
Proof.
  intros Hsvc Hcap. unfold apply_try, validated.
  unfold io_bind, storage_read, storage_call, reply, io_ret, lift.
  rewrite Hsvc, Hcap.
  destruct ((ApplyRequest.userId req =? 0)
            || String.eqb (ApplyRequest.platform req) EmptyString
            || (ApplyRequest.jobId req =? 0)) eqn:Hfields.
  { eexists. split; [reflexivity|]. split.
    - right. eexists _, _. split; [reflexivity|discriminate].
    - intros c' l (Hu & Hp & Hj & _). exfalso.
      apply orb_prop in Hfields as [Hfields|Hfields];
        [apply orb_prop in Hfields as [Hfields|Hfields]|].
      + apply Z.eqb_eq in Hfields. contradiction.
      + apply String.eqb_eq in Hfields. contradiction.
      + apply Z.eqb_eq in Hfields. contradiction. }
  destruct (faults E (List.length (trace w))) eqn:Hf0.
  { eexists. split; [|split].
    2:{ left. eexists. reflexivity. }
    - reflexivity.
    - intros c' l (_ & _ & _ & Hf & _). congruence. }
  destruct (MemStorage.getUser (store w) (ApplyRequest.userId req)) as [user|] eqn:Huser.
  2:{ eexists. split; [|split].
      2:{ right. eexists _, _. split; [reflexivity|discriminate]. }
      - reflexivity.
      - intros c' l (_ & _ & _ & _ & _ & u & c & Hu & _). congruence. }
  destruct (platformCredentials user (ApplyRequest.platform req)) as [credentials|] eqn:Hcred.
  2:{ eexists. split; [|split].
      2:{ right. eexists _, _. split; [reflexivity|discriminate]. }
      - reflexivity.
      - intros c' l (_ & _ & _ & _ & _ & u & c & Hu & Hc & _). congruence. }
  destruct (truthy credentials) eqn:Htruthy; simpl.
  2:{ eexists. split; [|split].
      2:{ right. eexists _, _. split; [reflexivity|discriminate]. }
      - reflexivity.
      - intros c' l (_ & _ & _ & _ & _ & u & c & Hu & Hc & Ht & _). congruence. }
  destruct (credentialsWithUserId E credentials (ApplyRequest.userId req))
    as [e|credentials'] eqn:Hparse.
  { eexists. split; [|split].
    2:{ left. eexists. reflexivity. }
    - reflexivity.
    - intros c' l (_ & _ & _ & _ & _ & u & c & Hu & Hc & Ht & Hp & _). congruence. }
  simpl. rewrite length_snoc.
  destruct (faults E (S (List.length (trace w)))) eqn:Hf1.
  { eexists. split; [|split].
    2:{ left. eexists. reflexivity. }
    - reflexivity.
    - intros c' l (_ & _ & _ & _ & Hf & _). congruence. }
  destruct (MemStorage.getJobListing (store w) (ApplyRequest.jobId req))
    as [jobListing|] eqn:Hjob.
  2:{ eexists. split; [|split].
      2:{ right. eexists _, _. split; [reflexivity|discriminate]. }
      - reflexivity.
      - intros c' l (_ & _ & _ & _ & _ & u & c & Hu & Hc & Ht & Hp & Hl). congruence. }
  eexists. split; [|split].
  2:{ right. eexists _, _. split; [reflexivity|discriminate]. }
  - reflexivity.
  - intros. reflexivity.
Qed.

End ApplyHandler.

(** C6. When the adapter registered for the requested platform has no
    [applyToJob], the apply handler ends in a failure and writes nothing:
    the store after the request is the store before it, so no Application
    is created, no listing flagged and no counter incremented.  Once the
    request has passed validation, the failure is the 400 response whose
    message says that job application is not supported for that
    platform. *)
Theorem apply_unsupported_platform
    (E : Routes.env) (req : Handlers.ApplyRequest.t) (w : Routes.world)
    (service : JobPlatformService.t) :
  JobServiceFactory.getService (Routes.services E) (Handlers.ApplyRequest.platform req)
  = Some (JobServiceFactory.Service service) ->
  JobPlatformService.applyToJob service = None ->
  exists st m w',
    Handlers.apply E req w
    = (inr {| Handlers.status := st; Handlers.json := Handlers.Message m |}, w')
    /\ st <> 200
    /\ Routes.store w' = Routes.store w
    /\ (forall credentials' jobListing,
          Handlers.validated E req w credentials' jobListing ->
          st = 400
          /\ m = Handlers.applyUnsupportedMessage (Handlers.ApplyRequest.platform req)).
Proof.
  intros Hsvc Hcap.
  destruct (apply_try_without_capability E req w service Hsvc Hcap)
    as (w' & Hstore & Hrun & Hvalid).
  unfold Handlers.apply, Routes.io_try.
  destruct Hrun as [[e Hrun]|(st & m & Hrun & Hst)].
  - exists 500, "Failed to apply to job"%string, w'. rewrite Hrun.
    split; [reflexivity|]. split; [discriminate|]. split; [exact Hstore|].
    intros c' l Hv. rewrite (Hvalid c' l Hv) in Hrun. discriminate.
  - exists st, m, w'. rewrite Hrun.
    split; [reflexivity|]. split; [exact Hst|]. split; [exact Hstore|].
    intros c' l Hv. rewrite (Hvalid c' l Hv) in Hrun.
    injection Hrun as <- <-. split; reflexivity.
Qed.

(** User 1 applies to the stored Indeed listing through the built-in
    registry. *)
Lemma apply_unsupported_platform_witness :
  exists w',
    Handlers.apply (Examples.environment Null []) (Examples.applyTo "Indeed" 1)
      Examples.world1
    = (inr {| Handlers.status := 400;
              Handlers.json :=
                Handlers.Message
                  "Job application is not supported for Indeed or the platform is not supported" |},
       w')
    /\ Routes.store w' = Examples.store1.
Proof.
  destruct (apply_unsupported_platform (Examples.environment Null [])
              (Examples.applyTo "Indeed" 1) Examples.world1 IndeedService.service
              eq_refl eq_refl)
    as (st & m & w' & Hrun & _ & Hstore & Hmsg).
  destruct (Hmsg (spread_with Examples.indeedCredentials "userId" (Num 1))
              Examples.storedIndeedJob) as [-> ->].
  { unfold Handlers.validated. simpl.
    repeat split; try discriminate.
    exists Examples.user1, Examples.indeedCredentials. repeat split. }
  exists w'. split; [exact Hrun|exact Hstore].
Defined.

Section Recording.
Import Routes Handlers.

Lemma applications_fresh (s : MemStorage.t) (a : Application.t) :
  MemStorage.wf s ->
  JsMap.set (MemStorage.applications s) (MemStorage.applicationIdCounter s) a
  = MemStorage.applications s ++ [(MemStorage.applicationIdCounter s, a)].
Proof.
  intros [_ Ha]. apply JsMap_set_fresh. intros Hin.
  rewrite List.Forall_forall in Ha. specialize (Ha _ Hin). lia.
Qed.

End Recording.




(* ===================================================================== *)
(** * Further properties of the adapters *)
(* ===================================================================== *)

Section AdapterFacts.

Lemma map_res_fails {A B} (f : A -> res B) (xs : list A) :
  Exists (fun x => exists e, f x = inl e) xs -> exists e, map_res f xs = inl e.
Proof.
  induction 1 as [x xs [e He]|x xs _ [e IH]]; simpl.
  - rewrite He. now exists e.
  - destruct (f x) as [e'|y]; simpl; [now exists e'|].
    rewrite IH. now exists e.
Qed.

Lemma map_res_Forall {A B} (f : A -> res B) (P : B -> Prop) (xs : list A) :
  (forall x y, f x = inr y -> P y) ->
  forall ys, map_res f xs = inr ys -> Forall P ys.
Proof.
  intros HP. induction xs as [|x xs IH]; simpl; intros ys H.
  - injection H as <-. constructor.
  - destruct (f x) as [e|y] eqn:Hy; simpl in H; [discriminate|].
    destruct (map_res f xs) as [e|ys'] eqn:Hys; simpl in H; [discriminate|].
    injection H as <-. constructor; eauto.
Qed.

Lemma array_map_Forall {B} (f : value -> res B) (P : B -> Prop) (v : value) :
  (forall x y, f x = inr y -> P y) ->
  forall ys, array_map v f = inr ys -> Forall P ys.
Proof.
  intros HP ys H. destruct v; simpl in H; try discriminate.
  eapply map_res_Forall; eauto.
Qed.

Lemma get_set_field_same (k : string) (v : value) (fs : list (string * value)) :
  assoc k (set_field k v fs) = v.
Proof.
  induction fs as [|[k' v'] fs IH]; simpl.
  - now rewrite String.eqb_refl.
  - destruct (String.eqb k k') eqn:Hk; simpl.
    + now rewrite String.eqb_refl.
    + now rewrite Hk.
Qed.

Lemma get_set_field_other (k k' : string) (v : value) (fs : list (string * value)) :
  k' <> k -> assoc k' (set_field k v fs) = assoc k' fs.
Proof.
  intros Hne. induction fs as [|[k0 v0] fs IH]; simpl.
  - apply String.eqb_neq in Hne. now rewrite Hne.
  - destruct (String.eqb k k0) eqn:Hk; simpl.
    + apply String.eqb_eq in Hk. subst k0.
      apply String.eqb_neq in Hne. now rewrite Hne.
    + destruct (String.eqb k' k0); [reflexivity|exact IH].
Qed.

End AdapterFacts.


(** X2. One [null] or [undefined] item in the platform's list costs the
    whole page: both adapters then return the empty result, not the items
    that could be normalised. *)
Theorem searchJobs_null_item_empties_page (now : Z) (net : Http.network)
    (credentials : value) (params : SearchParams.t) (data : value)
    (xs : list value) :
  Exists (fun x => nullish x = true) xs ->
  (net (IndeedService.searchRequest credentials params) = Http.Response data ->
   get data "results" = Arr xs ->
   IndeedService.searchJobs now net credentials params = inr SearchResult.empty)
  /\ (net (LinkedInService.searchRequest credentials params) = Http.Response data ->
      get data "elements" = Arr xs ->
      LinkedInService.searchJobs now net credentials params = inr SearchResult.empty).
Proof.
  intros Hex. split; intros Hnet Hxs.
  - unfold IndeedService.searchJobs, IndeedService.searchJobs_try.
    destruct (IndeedService.hasValidCredentials credentials); simpl; [|reflexivity].
    rewrite Hnet.
    assert (Hnn : nullish data = false) by (destruct data; simpl in *; congruence).
    rewrite (get_prop_ok _ _ Hnn), Hxs. simpl.
    destruct (map_res_fails
                (fun job => IndeedService.mapJobToSchema now job
                              (Num (SearchParams.userId params))) xs) as [e He].
    { eapply List.Exists_impl; [|exact Hex]. simpl. intros x Hx.
      unfold IndeedService.mapJobToSchema. rewrite (get_prop_nullish _ _ Hx).
      now eexists. }
    now rewrite He.
  - unfold LinkedInService.searchJobs, LinkedInService.searchJobs_try.
    destruct (LinkedInService.hasValidCredentials now credentials); simpl; [|reflexivity].
    rewrite Hnet.
    assert (Hnn : nullish data = false) by (destruct data; simpl in *; congruence).
    rewrite (get_prop_ok _ _ Hnn), Hxs. simpl.
    destruct (map_res_fails
                (fun job => LinkedInService.mapJobToSchema now job
                              (Num (SearchParams.userId params))) xs) as [e He].
    { eapply List.Exists_impl; [|exact Hex]. simpl. intros x Hx.
      unfold LinkedInService.mapJobToSchema. rewrite (get_prop_nullish _ _ Hx).
      now eexists. }
    now rewrite He.
Qed.

(** A page whose second item is [null]. *)
Lemma searchJobs_null_item_empties_page_witness :
  IndeedService.searchJobs 0
    (Examples.answering
       (Obj [("results", Arr [Obj [("jobkey", Str "a1")]; Null]);
             ("totalResults", Num 2)]))
    Examples.indeedCredentials (Examples.params None None)
  = inr SearchResult.empty.
Proof.
  apply (proj1 (searchJobs_null_item_empties_page 0 _ Examples.indeedCredentials
                  (Examples.params None None)
                  (Obj [("results", Arr [Obj [("jobkey", Str "a1")]; Null]);
                        ("totalResults", Num 2)])
                  [Obj [("jobkey", Str "a1")]; Null]
                  ltac:(right; left; reflexivity))).
  - reflexivity.
  - reflexivity.
Defined.

(** X3. Whatever the credentials, the query and the answer of the platform,
    every listing in a result of [searchJobs] belongs to the user of the
    query, names the adapter as its source, and is fresh: id 0, not applied,
    not hidden, saved at the time of the call. *)
Theorem searchJobs_listing_shape (now : Z) (net : Http.network)
    (credentials : value) (params : SearchParams.t) :
  let fresh (source : string) (job : JobListing.t) :=
    JobListing.userId job = Num (SearchParams.userId params)
    /\ JobListing.source job = source
    /\ JobListing.id job = 0
    /\ JobListing.applied job = false
    /\ JobListing.hidden job = false
    /\ JobListing.savedAt job = now in
  (forall r, IndeedService.searchJobs now net credentials params = inr r ->
             Forall (fresh "Indeed"%string) (SearchResult.jobs r))
  /\ (forall r, LinkedInService.searchJobs now net credentials params = inr r ->
                Forall (fresh "LinkedIn"%string) (SearchResult.jobs r)).
Proof.
  intros fresh. split; intros r.
  - unfold IndeedService.searchJobs, IndeedService.searchJobs_try.
    destruct (IndeedService.hasValidCredentials credentials); simpl;
      [|intros H; injection H as <-; constructor].
    destruct (net _) as [m|data]; simpl; [intros H; injection H as <-; constructor|].
    destruct (get_prop data "results") as [e|results]; simpl;
      [intros H; injection H as <-; constructor|].
    destruct (array_map _ _) as [e|jobs] eqn:Hjobs; simpl;
      intros H; injection H as <-; [constructor|]. simpl.
    eapply array_map_Forall; [|exact Hjobs]. simpl. intros x y.
    unfold IndeedService.mapJobToSchema.
    destruct (get_prop x "jobkey"); simpl; [discriminate|].
    intros Hy. injection Hy as <-. repeat split.
  - unfold LinkedInService.searchJobs, LinkedInService.searchJobs_try.
    destruct (LinkedInService.hasValidCredentials now credentials); simpl;
      [|intros H; injection H as <-; constructor].
    destruct (net _) as [m|data]; simpl; [intros H; injection H as <-; constructor|].
    destruct (get_prop data "elements") as [e|elements]; simpl;
      [intros H; injection H as <-; constructor|].
    destruct (array_map _ _) as [e|jobs] eqn:Hjobs; simpl;
      [intros H; injection H as <-; constructor|].
    destruct (LinkedInService.hasNextLink data); simpl;
      intros H; injection H as <-; [constructor|]. simpl.
    eapply array_map_Forall; [|exact Hjobs]. simpl. intros x y.
    unfold LinkedInService.mapJobToSchema.
    destruct (get_prop x "company"); simpl; [discriminate|].
    intros Hy. injection Hy as <-. repeat split.
Qed.

(** X4. The exclusion keywords of a query reach neither platform: two
    queries that differ only in [excludeKeywords] get the same result from
    each adapter.  The Indeed adapter also ignores the experience level and
    every location after the first. *)
Theorem searchJobs_ignored_filters (now : Z) (net : Http.network)
    (credentials : value) (keywords : option (list string))
    (remote : bool) (page limit : option Z) (userId : Z)
    (locations : option (list string)) (experience experience' : option string)
    (excludeKeywords excludeKeywords' : option (list string))
    (l : string) (ls ls' : list string) :
  let query locations excludeKeywords experience :=
    {| SearchParams.keywords := keywords;
       SearchParams.locations := locations;
       SearchParams.remote := remote;
       SearchParams.excludeKeywords := excludeKeywords;
       SearchParams.experience := experience;
       SearchParams.page := page;
       SearchParams.limit := limit;
       SearchParams.userId := userId |} in
  LinkedInService.searchJobs now net credentials
    (query locations excludeKeywords experience)
  = LinkedInService.searchJobs now net credentials
      (query locations excludeKeywords' experience)
  /\ IndeedService.searchJobs now net credentials
       (query locations excludeKeywords experience)
     = IndeedService.searchJobs now net credentials
         (query locations excludeKeywords' experience')
  /\ IndeedService.searchJobs now net credentials
       (query (Some (l :: ls)) excludeKeywords experience)
     = IndeedService.searchJobs now net credentials
         (query (Some (l :: ls')) excludeKeywords' experience').
Proof. intros query. repeat split. Qed.

Section DetailsFacts.



End DetailsFacts.





(** X7. Neither normaliser ever records a job as not remote: [isRemote] is
    the payload's truthy [remote] value (Indeed) or [true] exactly when
    [workplaceType] is "REMOTE" (LinkedIn), and [null] in every other case,
    including a payload that says [false]. *)
Theorem isRemote_never_false (now : Z) (jobData userId : value) :
  (forall l, IndeedService.mapJobToSchema now jobData userId = inr l ->
     JobListing.isRemote l <> Bool false
     /\ (truthy (get jobData "remote") = true ->
         JobListing.isRemote l = get jobData "remote")
     /\ (truthy (get jobData "remote") = false -> JobListing.isRemote l = Null))
  /\ (forall l, LinkedInService.mapJobToSchema now jobData userId = inr l ->
     JobListing.isRemote l <> Bool false
     /\ (get jobData "workplaceType" = Str "REMOTE" ->
         JobListing.isRemote l = Bool true)
     /\ (get jobData "workplaceType" <> Str "REMOTE" ->
         JobListing.isRemote l = Null)).
Proof.
  split; intros l.
  - unfold IndeedService.mapJobToSchema.
    destruct (get_prop jobData "jobkey"); simpl; [discriminate|].
    intros H. injection H as <-. simpl. unfold or_else.
    destruct (truthy (get jobData "remote")) eqn:Ht.
    + split; [|split]; [|reflexivity|discriminate].
      intros Hf. rewrite Hf in Ht. discriminate.
    + split; [|split]; [discriminate|discriminate|reflexivity].
  - unfold LinkedInService.mapJobToSchema.
    destruct (get_prop jobData "company"); simpl; [discriminate|].
    intros H. injection H as <-. simpl. unfold or_else. simpl.
    destruct (strict_eq (get jobData "workplaceType") (Str "REMOTE")) eqn:Hs.
    + apply strict_eq_Str in Hs.
      split; [|split]; [discriminate|reflexivity|congruence].
    + split; [|split]; [discriminate| |reflexivity].
      intros Heq. apply strict_eq_Str in Heq. congruence.
Qed.

(** X8. Adding the user id to stored credentials that are an object
    overrides any [userId] the credentials carried and leaves every other
    field as it was, so the credentials are exactly as valid as before for
    both adapters. *)
Theorem credentialsWithUserId_object (E : Routes.env)
    (fields : list (string * value)) (userId : Z) :
  exists credentials',
    Handlers.credentialsWithUserId E (Obj fields) userId = inr credentials'
    /\ get credentials' "userId" = Num userId
    /\ (forall k, k <> "userId"%string -> get credentials' k = get (Obj fields) k)
    /\ IndeedService.hasValidCredentials credentials'
       = IndeedService.hasValidCredentials (Obj fields)
    /\ (forall now,
          LinkedInService.hasValidCredentials now credentials'
          = LinkedInService.hasValidCredentials now (Obj fields)).
Proof.
  eexists. split; [reflexivity|].
  assert (Hother : forall k, k <> "userId"%string ->
            get (spread_with (Obj fields) "userId" (Num userId)) k = get (Obj fields) k).
  { intros k Hk. simpl. now apply get_set_field_other. }
  split; [simpl; apply get_set_field_same|].
  split; [exact Hother|]. split.
  - unfold IndeedService.hasValidCredentials.
    rewrite !Hother by discriminate. reflexivity.
  - intros now. unfold LinkedInService.hasValidCredentials.
    rewrite !Hother by discriminate. reflexivity.
Qed.

(** X25. A listing fetched by [getJobDetails] with credentials to which a
    handler has added a non-zero user id belongs to that user, whatever
    [userId] the stored credentials carried themselves. *)
Theorem getJobDetails_owner (now : Z) (net : Http.network)
    (fields : list (string * value)) (userId : Z) (externalId : string) :
  userId <> 0 ->
  let credentials' := spread_with (Obj fields) "userId" (Num userId) in
  (forall job,
     IndeedService.getJobDetails now net credentials' externalId = inr (Some job) ->
     JobListing.userId job = Num userId)
  /\ (forall job,
        LinkedInService.getJobDetails now net credentials' externalId
        = inr (Some job) ->
        JobListing.userId job = Num userId).
Proof.
  intros Hnz credentials'.
  assert (Hid : get credentials' "userId" ||| Num 1 = Num userId).
  { unfold credentials'. simpl. rewrite get_set_field_same.
    unfold or_else. simpl. apply Z.eqb_neq in Hnz. now rewrite Hnz. }
  split; intros job.
  - unfold IndeedService.getJobDetails. unfold get_prop at 1.
    cbn [nullish credentials' spread_with bind ret]. fold credentials'. rewrite Hid.
    unfold IndeedService.getJobDetails_try.
    destruct (negb (IndeedService.hasValidCredentials credentials'));
      [simpl; discriminate|].
    destruct (net _) as [m|data]; [simpl; discriminate|].
    destruct (get_prop data "results") as [e|results]; [simpl; discriminate|].
    cbn [bind]. destruct (negb (truthy results) || _); [simpl; discriminate|].
    unfold IndeedService.mapJobToSchema.
    destruct (get_prop (first_of results) "jobkey"); simpl; [discriminate|].
    intros H. injection H as <-. reflexivity.
  - unfold LinkedInService.getJobDetails, LinkedInService.getJobDetails_try.
    destruct (negb (LinkedInService.hasValidCredentials now credentials'));
      [simpl; discriminate|].
    unfold get_prop at 1.
    cbn [nullish credentials' spread_with bind ret]. fold credentials'. rewrite Hid.
    destruct (net _) as [m|jobData]; [simpl; discriminate|].
    unfold LinkedInService.mapJobToSchema.
    destruct (get_prop jobData "company"); simpl; [discriminate|].
    intros H. injection H as <-. reflexivity.
Qed.

(** Stored Indeed credentials that name user 9, used by user 1. *)
Lemma getJobDetails_owner_witness :
  1 <> 0
  /\ exists job,
       IndeedService.getJobDetails 0 (Examples.answering Examples.indeedPage)
         (spread_with
            (Obj [("publisherId", Str "pub"); ("apiKey", Str "key");
                  ("userId", Num 9)])
            "userId" (Num 1)) "a1" = inr (Some job)
       /\ JobListing.userId job = Num 1.
Proof.
  split; [discriminate|].
  destruct (IndeedService.getJobDetails 0 (Examples.answering Examples.indeedPage)
              (spread_with
                 (Obj [("publisherId", Str "pub"); ("apiKey", Str "key");
                       ("userId", Num 9)])
                 "userId" (Num 1)) "a1") as [e|[job|]] eqn:Hjob;
    [vm_compute in Hjob; discriminate| |vm_compute in Hjob; discriminate].
  exists job. split; [reflexivity|].
  exact (proj1 (getJobDetails_owner 0 (Examples.answering Examples.indeedPage)
                  [("publisherId", Str "pub"); ("apiKey", Str "key");
                   ("userId", Num 9)]
                  1 "a1" ltac:(discriminate)) job Hjob).
Defined.

Section OrderFacts.

Lemma map_res_Forall2 {A B} (f : A -> res B) (xs : list A) (ys : list B) :
  map_res f xs = inr ys -> Forall2 (fun x y => f x = inr y) xs ys.
Proof.
  revert ys. induction xs as [|x xs IH]; simpl; intros ys H.
  - injection H as <-. constructor.
  - destruct (f x) as [e|y] eqn:Hy; simpl in H; [discriminate|].
    destruct (map_res f xs) as [e|ys'] eqn:Hys; simpl in H; [discriminate|].
    injection H as <-. constructor; auto.
Qed.

End OrderFacts.

(** X26. A search result lists the platform's items in the platform's
    order: whenever an adapter returns jobs at all, they are, one for one
    and in sequence, the normalisations of the items of the answered
    list. *)
Theorem searchJobs_keeps_order (now : Z) (net : Http.network)
    (credentials : value) (params : SearchParams.t) :
  (forall r,
     IndeedService.searchJobs now net credentials params = inr r ->
     SearchResult.jobs r <> [] ->
     exists data xs,
       net (IndeedService.searchRequest credentials params) = Http.Response data
       /\ get data "results" = Arr xs
       /\ Forall2
            (fun x job =>
               IndeedService.mapJobToSchema now x (Num (SearchParams.userId params))
               = inr job)
            xs (SearchResult.jobs r))
  /\ (forall r,
        LinkedInService.searchJobs now net credentials params = inr r ->
        SearchResult.jobs r <> [] ->
        exists data xs,
          net (LinkedInService.searchRequest credentials params) = Http.Response data
          /\ get data "elements" = Arr xs
          /\ Forall2
               (fun x job =>
                  LinkedInService.mapJobToSchema now x
                    (Num (SearchParams.userId params)) = inr job)
               xs (SearchResult.jobs r)).
Proof.
  split; intros r.
  - unfold IndeedService.searchJobs, IndeedService.searchJobs_try.
    destruct (IndeedService.hasValidCredentials credentials); simpl;
      [|intros H; injection H as <-; intros Hne; now destruct Hne].
    destruct (net _) as [m|data] eqn:Hnet; simpl;
      [intros H; injection H as <-; intros Hne; now destruct Hne|].
    unfold get_prop. destruct (nullish data) eqn:Hn; simpl;
      [intros H; injection H as <-; intros Hne; now destruct Hne|].
    unfold or_else.
    destruct (truthy (get data "results")) eqn:Ht.
    + destruct (get data "results") as [| | | | |xs|] eqn:Hr; simpl;
        try (intros H; injection H as <-; intros Hne; now destruct Hne).
      destruct (map_res _ xs) as [e|jobs] eqn:Hjobs; simpl;
        intros H; injection H as <-; intros Hne; [now destruct Hne|].
      exists data, xs. split; [reflexivity|]. split; [exact Hr|].
      simpl. now apply map_res_Forall2.
    + simpl. intros H. injection H as <-. intros Hne. now destruct Hne.
  - unfold LinkedInService.searchJobs, LinkedInService.searchJobs_try.
    destruct (LinkedInService.hasValidCredentials now credentials); simpl;
      [|intros H; injection H as <-; intros Hne; now destruct Hne].
    destruct (net _) as [m|data] eqn:Hnet; simpl;
      [intros H; injection H as <-; intros Hne; now destruct Hne|].
    unfold get_prop. destruct (nullish data) eqn:Hn; simpl;
      [intros H; injection H as <-; intros Hne; now destruct Hne|].
    unfold or_else.
    destruct (truthy (get data "elements")) eqn:Ht.
    + destruct (get data "elements") as [| | | | |xs|] eqn:Hr; simpl;
        try (intros H; injection H as <-; intros Hne; now destruct Hne).
      destruct (map_res _ xs) as [e|jobs] eqn:Hjobs; simpl;
        [intros H; injection H as <-; intros Hne; now destruct Hne|].
      destruct (LinkedInService.hasNextLink data); simpl;
        intros H; injection H as <-; intros Hne; [now destruct Hne|].
      exists data, xs. split; [reflexivity|]. split; [exact Hr|].
      simpl. now apply map_res_Forall2.
    + simpl. destruct (LinkedInService.hasNextLink data); simpl;
        intros H; injection H as <-; intros Hne; now destruct Hne.
Qed.

(* ===================================================================== *)
(** * Further properties of the registry and of the query parsing *)
(* ===================================================================== *)



(** X10. The built-in registry holds an adapter for exactly the identifiers
    that are "linkedin" or "indeed" up to case, which are also exactly the
    platforms for which the handlers find a credentials column: the
    handlers never meet a platform they accept and the registry lacks. *)
Theorem builtin_registry_platforms (platform : string) :
  (forall s,
     JobServiceFactory.getService JobServiceFactory.services platform
     = Some (JobServiceFactory.Service s) <->
     (JobServiceFactory.toLowerCase platform = "linkedin"%string
      /\ s = LinkedInService.service)
     \/ (JobServiceFactory.toLowerCase platform = "indeed"%string
         /\ s = IndeedService.service))
  /\ (forall user,
        (exists c, Handlers.platformCredentials user platform = Some c) <->
        (exists s,
           JobServiceFactory.getService JobServiceFactory.services platform
           = Some (JobServiceFactory.Service s))).
Proof.
  assert (Hget :
    JobServiceFactory.getService JobServiceFactory.services platform
    = if String.eqb (JobServiceFactory.toLowerCase platform) "linkedin"
      then Some (JobServiceFactory.Service LinkedInService.service)
      else if String.eqb (JobServiceFactory.toLowerCase platform) "indeed"
      then Some (JobServiceFactory.Service IndeedService.service)
      else if JobServiceFactory.onObjectPrototype (JobServiceFactory.toLowerCase platform)
      then Some (JobServiceFactory.Inherited (JobServiceFactory.toLowerCase platform))
      else None).
  { unfold JobServiceFactory.getService, JobServiceFactory.services.
    destruct (String.eqb_spec (JobServiceFactory.toLowerCase platform) "linkedin")
      as [->|Hl]; [reflexivity|].
    rewrite lookup_insert_ne by congruence.
    destruct (String.eqb_spec (JobServiceFactory.toLowerCase platform) "indeed")
      as [->|Hi]; [reflexivity|].
    rewrite lookup_insert_ne by congruence.
    now rewrite lookup_empty. }
  split.
  - intros s. rewrite Hget.
    destruct (String.eqb_spec (JobServiceFactory.toLowerCase platform) "linkedin")
      as [Hl|Hl].
    { rewrite Hl. split.
      - intros H. injection H as <-. now left.
      - intros [[_ ->]|[H _]]; [reflexivity|discriminate]. }
    destruct (String.eqb_spec (JobServiceFactory.toLowerCase platform) "indeed")
      as [Hi|Hi].
    { rewrite Hi. split.
      - intros H. injection H as <-. now right.
      - intros [[H _]|[_ ->]]; [discriminate|reflexivity]. }
    split.
    + destruct (JobServiceFactory.onObjectPrototype _); discriminate.
    + intros [[H _]|[H _]]; contradiction.
  - intros user. rewrite Hget. unfold Handlers.platformCredentials.
    destruct (String.eqb (JobServiceFactory.toLowerCase platform) "linkedin").
    { split; intros _; now eexists. }
    destruct (String.eqb (JobServiceFactory.toLowerCase platform) "indeed").
    { split; intros _; now eexists. }
    split; intros [x Hx]; [discriminate|].
    destruct (JobServiceFactory.onObjectPrototype _); discriminate.
Qed.

Section SplitFacts.

Lemma split_comma_nonempty (s : string) : Handlers.split_comma s <> [].
Proof.
  destruct s as [|c s]; simpl; [discriminate|].
  destruct (Ascii.eqb c ","); [discriminate|].
  destruct (Handlers.split_comma s); discriminate.
Qed.

End SplitFacts.

(** X11. Splitting a query parameter at its commas loses nothing: the
    pieces are never an empty list, none of them contains a comma, and
    joining them with commas gives the parameter back. *)
Theorem split_comma_join (s : string) :
  String.concat "," (Handlers.split_comma s) = s
  /\ Forall (fun piece => Invariants.has_comma piece = false) (Handlers.split_comma s)
  /\ Handlers.split_comma s <> [].
Proof.
  split; [|split; [|apply split_comma_nonempty]].
  - induction s as [|c s IH]; simpl; [reflexivity|].
    destruct (Ascii.eqb_spec c ",") as [->|Hc].
    + pose proof (split_comma_nonempty s) as Hne.
      destruct (Handlers.split_comma s) as [|h t] eqn:Hs; [contradiction|].
      change (String.concat "," (EmptyString :: h :: t))
        with (("," +:+ String.concat "," (h :: t))%string).
      now rewrite IH.
    + pose proof (split_comma_nonempty s) as Hne.
      destruct (Handlers.split_comma s) as [|h t] eqn:Hs; [contradiction|].
      destruct t as [|h' t].
      * simpl in *. now rewrite IH.
      * change (String.concat "," (String c h :: h' :: t))
          with (String c (h +:+ "," +:+ String.concat "," (h' :: t)))%string.
        f_equal. exact IH.
  - induction s as [|c s IH]; simpl; [repeat constructor|].
    destruct (Ascii.eqb_spec c ",") as [->|Hc].
    + constructor; [reflexivity|exact IH].
    + destruct (Handlers.split_comma s) as [|h t]; [repeat constructor; simpl|].
      * apply Ascii.eqb_neq in Hc. now rewrite Hc.
      * inversion IH as [|? ? Hh Ht]; subst. constructor; [|exact Ht].
        simpl. apply Ascii.eqb_neq in Hc. now rewrite Hc.
Qed.

(* ===================================================================== *)
(** * Further properties of the persistence layer *)
(* ===================================================================== *)

Section JsMapMore.
Context {V : Type}.
Implicit Types (m : JsMap.t V) (k : Z) (v : V).

Lemma JsMap_set_set m k v v' : JsMap.set (JsMap.set m k v) k v' = JsMap.set m k v'.
Proof.
  induction m as [|[k0 v0] m IH]; simpl.
  - now rewrite Z.eqb_refl.
  - destruct (Z.eqb_spec k0 k) as [->|Hne]; simpl.
    + now rewrite Z.eqb_refl.
    + destruct (Z.eqb_spec k0 k); [congruence|]. now rewrite IH.
Qed.

Lemma JsMap_keys_set_present m k v v' :
  JsMap.get m k = Some v -> JsMap.keys (JsMap.set m k v') = JsMap.keys m.
Proof.
  induction m as [|[k0 v0] m IH]; simpl; [discriminate|].
  destruct (Z.eqb_spec k0 k) as [->|Hne]; simpl; [reflexivity|].
  intros H. now rewrite IH.
Qed.

Lemma JsMap_get_In m k v : JsMap.get m k = Some v -> In v (JsMap.values m).
Proof.
  induction m as [|[k0 v0] m IH]; simpl; [discriminate|].
  destruct (k0 =? k); [intros H; injection H as ->; now left|auto].
Qed.

Lemma JsMap_get_key m k v : JsMap.get m k = Some v -> In k (JsMap.keys m).
Proof.
  induction m as [|[k0 v0] m IH]; simpl; [discriminate|].
  destruct (Z.eqb_spec k0 k) as [->|Hne]; [now left|auto].
Qed.




Lemma JsMap_keys_delete m k k' :
  In k' (JsMap.keys (JsMap.delete m k)) -> In k' (JsMap.keys m).
Proof.
  induction m as [|[k0 v0] m IH]; simpl; [auto|].
  destruct (k0 =? k); simpl; intros H; [right; auto|].
  destruct H; auto.
Qed.

Lemma JsMap_filter_set (p : V -> bool) m k v v' :
  JsMap.get m k = Some v ->
  List.filter p (JsMap.values m) = [v] ->
  List.filter p (JsMap.values (JsMap.set m k v'))
  = if p v' then [v'] else [].
Proof.
  unfold JsMap.values.
  induction m as [|[k0 v0] m IH]; simpl; [discriminate|].
  destruct (Z.eqb_spec k0 k) as [->|Hne]; simpl.
  - intros H. injection H as ->.
    destruct (p v) eqn:Hv.
    + intros Hf. injection Hf as Hf. rewrite Hf.
      now destruct (p v').
    + intros Hf. assert (Hin : In v (List.filter p (List.map snd m))).
      { rewrite Hf. now left. }
      apply List.filter_In in Hin as [_ Hp]. congruence.
  - intros Hg. destruct (p v0) eqn:Hv0.
    + intros Hf. injection Hf as -> Hf.
      assert (Hin : In v (List.filter p (List.map snd m))).
      { apply List.filter_In. split; [|exact Hv0].
        apply (JsMap_get_In m k v Hg). }
      rewrite Hf in Hin. contradiction.
    + intros Hf. now apply IH.
Qed.

End JsMapMore.

Section FindMore.
Context {A : Type}.

Lemma find_filter (p : A -> bool) (xs : list A) :
  List.find p xs = match List.filter p xs with [] => None | x :: _ => Some x end.
Proof.
  induction xs as [|a xs IH]; simpl; [reflexivity|].
  destruct (p a); [reflexivity|exact IH].
Qed.

End FindMore.

Section StorageFacts.

Lemma createJobListing_appends (now : Z) (s : MemStorage.t) (job : JobListing.t) :
  MemStorage.wf s ->
  Invariants.grows s (snd (MemStorage.createJobListing now s job))
    [(MemStorage.jobListingIdCounter s, fst (MemStorage.createJobListing now s job))]
  /\ MemStorage.wf (snd (MemStorage.createJobListing now s job)).
Proof.
  intros Hwf.
  exact (createJobListing_grows
           {| Routes.now := now; Routes.net := fun _ => Http.Rejected EmptyString;
              Routes.JSON_parse := fun _ => inl (Error EmptyString);
              Routes.services := ∅; Routes.faults := fun _ => None |}
           s job Hwf).
Qed.

Lemma createJobListing_resolves (now : Z) (s : MemStorage.t) (job : JobListing.t)
    (userId : Z) :
  MemStorage.wf s ->
  JobListing.userId job = Num userId ->
  strict_eq (JobListing.externalId job) (JobListing.externalId job) = true ->
  MemStorage.getJobListingByExternalId s userId (JobListing.externalId job) = None ->
  MemStorage.getJobListingByExternalId (snd (MemStorage.createJobListing now s job))
    userId (JobListing.externalId job)
  = Some (fst (MemStorage.createJobListing now s job)).
Proof.
  intros Hwf Hu Hx Hnone.
  destruct (createJobListing_appends now s job Hwf) as [[Hg _] _].
  unfold MemStorage.getJobListingByExternalId in *.
  rewrite Hg, JsMap_values_app, find_filter, List.filter_app.
  rewrite find_filter in Hnone.
  destruct (List.filter _ (JsMap.values (MemStorage.jobListings s))); [|discriminate].
  simpl. unfold MemStorage.sameExternalJob at 1.
  cbn [fst MemStorage.createJobListing JobListing.userId JobListing.externalId].
  rewrite Hu, Hx. simpl. now rewrite Z.eqb_refl.
Qed.

Lemma deleteJobListing_wf (s : MemStorage.t) (id : Z) :
  MemStorage.wf s -> MemStorage.wf (snd (MemStorage.deleteJobListing s id)).
Proof.
  intros [Hj Ha]. split; [|exact Ha].
  cbn [snd MemStorage.deleteJobListing MemStorage.jobListings
       MemStorage.jobListingIdCounter].
  rewrite List.Forall_forall in *. intros k Hk. apply Hj.
  eapply JsMap_keys_delete; eauto.
Qed.

End StorageFacts.

(** X12. Hiding a listing and marking it applied each set their own flag on
    the target row only: the other rows, the target's other fields and the
    set of ids are untouched.  An unknown id is answered with [undefined]
    and changes nothing.  The two operations commute, and repeating one has
    no further effect. *)
Theorem hide_and_apply_flags (s : MemStorage.t) (id : Z) :
  (MemStorage.getJobListing s id = None ->
   MemStorage.hideJobListing s id = (None, s)
   /\ MemStorage.markJobListingAsApplied s id = (None, s))
  /\ (forall l,
        MemStorage.getJobListing s id = Some l ->
        let hidden := snd (MemStorage.hideJobListing s id) in
        let applied := snd (MemStorage.markJobListingAsApplied s id) in
        fst (MemStorage.hideJobListing s id) = Some (MemStorage.setHidden l)
        /\ MemStorage.getJobListing hidden id = Some (MemStorage.setHidden l)
        /\ MemStorage.getJobListing applied id = Some (MemStorage.setApplied l)
        /\ JobListing.applied (MemStorage.setHidden l) = JobListing.applied l
        /\ JobListing.hidden (MemStorage.setApplied l) = JobListing.hidden l
        /\ (forall k, k <> id ->
            MemStorage.getJobListing hidden k = MemStorage.getJobListing s k
            /\ MemStorage.getJobListing applied k = MemStorage.getJobListing s k)
        /\ JsMap.keys (MemStorage.jobListings hidden)
           = JsMap.keys (MemStorage.jobListings s)
        /\ snd (MemStorage.markJobListingAsApplied hidden id)
           = snd (MemStorage.hideJobListing applied id)
        /\ snd (MemStorage.hideJobListing hidden id) = hidden
        /\ snd (MemStorage.markJobListingAsApplied applied id) = applied).
Proof.
  unfold MemStorage.getJobListing, MemStorage.hideJobListing,
    MemStorage.markJobListingAsApplied.
  split.
  - intros H. now rewrite H.
  - intros l H. rewrite H. cbn [fst snd MemStorage.jobListings].
    rewrite !JsMap_get_set_same. cbn [snd MemStorage.jobListings
      MemStorage.users MemStorage.applications MemStorage.stats
      MemStorage.applicationIdCounter MemStorage.jobListingIdCounter].
    rewrite !JsMap_set_set.
    repeat split; try reflexivity.
    + now apply JsMap_get_set_other.
    + now apply JsMap_get_set_other.
    + eapply JsMap_keys_set_present; eauto.
Qed.

(** Hiding the stored LinkedIn listing of the sample store. *)
Lemma hide_and_apply_flags_witness :
  MemStorage.getJobListing (snd (MemStorage.hideJobListing Examples.store1 2)) 2
  = Some (MemStorage.setHidden Examples.storedLinkedInJob)
  /\ MemStorage.getJobListing (snd (MemStorage.hideJobListing Examples.store1 2)) 1
     = Some Examples.storedIndeedJob.
Proof.
  destruct (proj2 (hide_and_apply_flags Examples.store1 2)
              Examples.storedLinkedInJob eq_refl)
    as (_ & Hh & _ & _ & _ & Hother & _).
  split; [exact Hh|].
  exact (proj1 (Hother 1 ltac:(discriminate))).
Defined.

(** X13. A hidden listing drops out of the user's list but still
    deduplicates: once the only row of a key has been hidden, no row with
    that key is listed for the user, and a later search that returns the
    same external job is answered with the hidden row and stores nothing. *)
Theorem hidden_listing_still_deduplicates
    (E : Routes.env) (userId : Z) (job : JobListing.t)
    (acc : list JobListing.t) (w : Routes.world) (id : Z) (l : JobListing.t) :
  MemStorage.getJobListing (Routes.store w) id = Some l ->
  Invariants.rowsWithKey (Routes.store w) userId (JobListing.externalId job) = [l] ->
  Routes.faults E (List.length (Routes.trace w)) = None ->
  let hidden := snd (MemStorage.hideJobListing (Routes.store w) id) in
  let w1 := {| Routes.store := hidden; Routes.trace := Routes.trace w |} in
  Forall
    (fun row =>
       MemStorage.sameExternalJob userId (JobListing.externalId job) row = false)
    (MemStorage.getJobListings hidden userId)
  /\ exists w2,
      Handlers.saveJob E userId job acc w1
      = (inr (acc ++ [MemStorage.setHidden l]), w2)
      /\ Routes.store w2 = hidden.
Proof.
  intros Hget Hrows Hfault hidden w1.
  assert (Hl : MemStorage.sameExternalJob userId (JobListing.externalId job) l = true).
  { assert (Hin : In l (Invariants.rowsWithKey (Routes.store w) userId
                          (JobListing.externalId job))) by (rewrite Hrows; now left).
    unfold Invariants.rowsWithKey in Hin. now apply List.filter_In in Hin. }
  assert (Hrows' : Invariants.rowsWithKey hidden userId (JobListing.externalId job)
                   = [MemStorage.setHidden l]).
  { unfold Invariants.rowsWithKey, hidden, MemStorage.hideJobListing.
    unfold MemStorage.getJobListing in Hget. rewrite Hget.
    cbn [snd MemStorage.jobListings].
    rewrite (JsMap_filter_set _ _ _ _ _ Hget Hrows).
    change (MemStorage.sameExternalJob userId (JobListing.externalId job)
              (MemStorage.setHidden l))
      with (MemStorage.sameExternalJob userId (JobListing.externalId job) l).
    now rewrite Hl. }
  split.
  - apply List.Forall_forall. intros row Hrow.
    unfold MemStorage.getJobListings in Hrow.
    apply List.filter_In in Hrow as [Hin Hp].
    destruct (MemStorage.sameExternalJob userId (JobListing.externalId job) row) eqn:Hs;
      [|reflexivity].
    assert (Hin' : In row (Invariants.rowsWithKey hidden userId
                             (JobListing.externalId job))).
    { unfold Invariants.rowsWithKey. apply List.filter_In. now split. }
    rewrite Hrows' in Hin'. destruct Hin' as [<-|[]].
    simpl in Hp. now rewrite andb_false_r in Hp.
  - rewrite saveJob_cases. cbv zeta. cbn [Routes.trace Routes.store w1].
    rewrite Hfault.
    unfold MemStorage.getJobListingByExternalId. rewrite find_filter.
    fold (Invariants.rowsWithKey hidden userId (JobListing.externalId job)).
    rewrite Hrows'. eexists. split; reflexivity.
Qed.

(** User 1 hides the stored LinkedIn listing "77" and searches again. *)
Lemma hidden_listing_still_deduplicates_witness :
  exists w2,
    Handlers.saveJob (Examples.environment Null []) 1 Examples.fetchedLinkedInJob []
      {| Routes.store := snd (MemStorage.hideJobListing Examples.store1 2);
         Routes.trace := [] |}
    = (inr [MemStorage.setHidden Examples.storedLinkedInJob], w2)
    /\ Routes.store w2 = snd (MemStorage.hideJobListing Examples.store1 2).
Proof.
  exact (proj2 (hidden_listing_still_deduplicates (Examples.environment Null []) 1
                  Examples.fetchedLinkedInJob [] Examples.world1 2
                  Examples.storedLinkedInJob eq_refl eq_refl eq_refl)).
Defined.



(** X15. A created listing can be read back: it gets the next id, which was
    not in use, and is found under that id; it carries the caller's fields
    with [savedAt] set to the time of the call; every row stored before is
    still found under its id; and when its key was not stored yet and its
    external id is a primitive value, the key now resolves to it. *)
Theorem createJobListing_lookup (now : Z) (s : MemStorage.t) (job : JobListing.t) :
  MemStorage.wf s ->
  let created := fst (MemStorage.createJobListing now s job) in
  let s' := snd (MemStorage.createJobListing now s job) in
  JobListing.id created = MemStorage.jobListingIdCounter s
  /\ MemStorage.getJobListing s (JobListing.id created) = None
  /\ MemStorage.getJobListing s' (JobListing.id created) = Some created
  /\ JobListing.savedAt created = now
  /\ JobListing.externalId created = JobListing.externalId job
  /\ JobListing.applied created = JobListing.applied job
  /\ JobListing.hidden created = JobListing.hidden job
  /\ (forall k l, MemStorage.getJobListing s k = Some l ->
                  MemStorage.getJobListing s' k = Some l)
  /\ MemStorage.wf s'
  /\ (forall userId,
        JobListing.userId job = Num userId ->
        strict_eq (JobListing.externalId job) (JobListing.externalId job) = true ->
        MemStorage.getJobListingByExternalId s userId (JobListing.externalId job)
        = None ->
        MemStorage.getJobListingByExternalId s' userId (JobListing.externalId job)
        = Some created).
Proof.
  intros Hwf created s'.
  assert (Hfresh : ~ In (MemStorage.jobListingIdCounter s)
                        (JsMap.keys (MemStorage.jobListings s))).
  { destruct Hwf as [Hj _]. intros Hin. rewrite List.Forall_forall in Hj.
    specialize (Hj _ Hin). lia. }
  destruct (createJobListing_appends now s job Hwf) as [Hg Hwf'].
  fold s' in Hg, Hwf'. fold created in Hg.
  split; [reflexivity|]. split.
  { unfold MemStorage.getJobListing. cbn [created fst MemStorage.createJobListing JobListing.id].
    destruct (JsMap.get (MemStorage.jobListings s) (MemStorage.jobListingIdCounter s))
      eqn:Hget; [|reflexivity].
    exfalso. apply Hfresh. eapply JsMap_get_key; eauto. }
  split.
  { unfold MemStorage.getJobListing, s', created.
    cbn [fst snd MemStorage.createJobListing MemStorage.jobListings JobListing.id].
    apply JsMap_get_set_same. }
  repeat (split; [reflexivity|]).
  split; [intros k l; eapply grows_get; eauto|].
  split; [exact Hwf'|].
  intros userId Hu Hx Hnone. now apply createJobListing_resolves.
Qed.

(** Storing the fetched LinkedIn job in the sample store under a key that is
    already taken still files it under the fresh id 3. *)
Lemma createJobListing_lookup_witness :
  MemStorage.getJobListing
    (snd (MemStorage.createJobListing 5000 Examples.store1 Examples.fetchedLinkedInJob))
    3
  = Some (fst (MemStorage.createJobListing 5000 Examples.store1
                 Examples.fetchedLinkedInJob)).
Proof.
  assert (Hwf : MemStorage.wf Examples.store1) by (split; repeat constructor).
  exact (proj1 (proj2 (proj2 (createJobListing_lookup 5000 Examples.store1
                                Examples.fetchedLinkedInJob Hwf)))).
Defined.

(** X16. Every operation of the store keeps the id counters ahead of the ids
    in use, so ids handed out are always fresh: creating, flagging, hiding
    and deleting listings, creating applications, and updating users and
    statistics all preserve it. *)
Theorem storage_keeps_counters_ahead (s : MemStorage.t) :
  MemStorage.wf s ->
  (forall now job, MemStorage.wf (snd (MemStorage.createJobListing now s job)))
  /\ (forall id, MemStorage.wf (snd (MemStorage.markJobListingAsApplied s id)))
  /\ (forall id, MemStorage.wf (snd (MemStorage.hideJobListing s id)))
  /\ (forall id, MemStorage.wf (snd (MemStorage.deleteJobListing s id)))
  /\ (forall now a, MemStorage.wf (snd (MemStorage.createApplication now s a)))
  /\ (forall now id n, MemStorage.wf (snd (MemStorage.updateUserStats now s id n)))
  /\ (forall id u, MemStorage.wf (snd (MemStorage.updateUser s id u))).
Proof.
  intros Hwf. split; [|split; [|split; [|split; [|split; [|split]]]]].
  - intros now job. apply (createJobListing_appends now s job Hwf).
  - intros id. unfold MemStorage.markJobListingAsApplied.
    destruct (JsMap.get (MemStorage.jobListings s) id) as [l|] eqn:Hget; [|exact Hwf].
    destruct Hwf as [Hj Ha]. split; [|exact Ha].
    cbn [snd MemStorage.jobListings MemStorage.jobListingIdCounter].
    now rewrite (JsMap_keys_set_present _ _ _ _ Hget).
  - intros id. unfold MemStorage.hideJobListing.
    destruct (JsMap.get (MemStorage.jobListings s) id) as [l|] eqn:Hget; [|exact Hwf].
    destruct Hwf as [Hj Ha]. split; [|exact Ha].
    cbn [snd MemStorage.jobListings MemStorage.jobListingIdCounter].
    now rewrite (JsMap_keys_set_present _ _ _ _ Hget).
  - intros id. exact (deleteJobListing_wf s id Hwf).
  - intros now a. destruct Hwf as [Hj Ha]. split; [exact Hj|].
    cbn [snd MemStorage.createApplication MemStorage.applications
         MemStorage.applicationIdCounter].
    rewrite (applications_fresh s _ (conj Hj Ha)), JsMap_keys_app.
    apply List.Forall_app. split.
    + eapply List.Forall_impl; [|exact Ha]. simpl. intros; lia.
    + repeat constructor. simpl. lia.
  - intros now id n. unfold MemStorage.updateUserStats.
    destruct (JsMap.get (MemStorage.stats s) id); exact Hwf.
  - intros id u. unfold MemStorage.updateUser.
    destruct (JsMap.get (MemStorage.users s) id); exact Hwf.
Qed.

(** The sample store after an application has been recorded. *)
Lemma storage_keeps_counters_ahead_witness :
  MemStorage.wf
    (snd (MemStorage.createApplication 5000 Examples.store1
            (Handlers.insertApplication (Examples.environment Null []) 1
               Examples.storedLinkedInJob))).
Proof.
  assert (Hwf : MemStorage.wf Examples.store1) by (split; repeat constructor).
  exact (proj1 (proj2 (proj2 (proj2 (proj2
           (storage_keeps_counters_ahead Examples.store1 Hwf))))) 5000 _).
Defined.

(** X17. The source filter of the listing view compares the source
    verbatim.  Listings produced by the adapters carry the adapter's display
    name ("LinkedIn", "Indeed"), so they are returned for that name, when
    they belong to the user and are not hidden, and never for an identifier
    spelled in lower case, such as the registry's "linkedin" and
    "indeed". *)
Theorem getJobListingsBySource_verbatim
    (s : MemStorage.t) (userId : Z) (source : string) :
  (forall row,
     In row (MemStorage.getJobListingsBySource s userId source) <->
     In row (JsMap.values (MemStorage.jobListings s))
     /\ JobListing.userId row = Num userId
     /\ JobListing.source row = source
     /\ JobListing.hidden row = false)
  /\ (forall now jobData uid job,
        IndeedService.mapJobToSchema now jobData uid = inr job
        \/ LinkedInService.mapJobToSchema now jobData uid = inr job ->
        JobServiceFactory.toLowerCase source = source ->
        forall now',
          ~ In (fst (MemStorage.createJobListing now' s job))
               (MemStorage.getJobListingsBySource
                  (snd (MemStorage.createJobListing now' s job)) userId source)).
Proof.
  assert (Hchar : forall s0 row,
     In row (MemStorage.getJobListingsBySource s0 userId source) <->
     In row (JsMap.values (MemStorage.jobListings s0))
     /\ JobListing.userId row = Num userId
     /\ JobListing.source row = source
     /\ JobListing.hidden row = false).
  { intros s0 row. unfold MemStorage.getJobListingsBySource.
    rewrite List.filter_In. split.
    - intros [Hin Hp]. apply andb_prop in Hp as [Hp Hh].
      apply andb_prop in Hp as [Hu Hs].
      apply strict_eq_true_eq in Hu. apply String.eqb_eq in Hs.
      apply negb_true_iff in Hh. auto.
    - intros (Hin & Hu & Hs & Hh). split; [exact Hin|].
      rewrite Hu, Hs, Hh. simpl. now rewrite Z.eqb_refl, String.eqb_refl. }
  split; [apply Hchar|].
  intros now jobData uid job Hjob Hlower now' Hin.
  apply Hchar in Hin as (_ & _ & Hs & _). cbn in Hs.
  assert (Hsrc : JobListing.source job = "Indeed"%string
                 \/ JobListing.source job = "LinkedIn"%string).
  { destruct Hjob as [Hjob|Hjob].
    - unfold IndeedService.mapJobToSchema in Hjob.
      destruct (get_prop jobData "jobkey"); simpl in Hjob; [discriminate|].
      injection Hjob as <-. now left.
    - unfold LinkedInService.mapJobToSchema in Hjob.
      destruct (get_prop jobData "company"); simpl in Hjob; [discriminate|].
      injection Hjob as <-. now right. }
  rewrite <- Hs in Hlower. destruct Hsrc as [Hsrc|Hsrc]; rewrite Hsrc in Hlower;
    discriminate.
Qed.

(** X18. Saving credentials for one platform round-trips through the user
    record: after [updateUser] with new LinkedIn credentials, the handlers
    read exactly those for every spelling of "linkedin", the Indeed
    credentials and every other user are as before, and nothing else in the
    store moves; likewise with the platforms exchanged.  An unknown user id
    is answered with [undefined] and changes nothing. *)
Theorem updateUser_credentials (s : MemStorage.t) (id : Z) (credentials : value) :
  let linkedin := {| UserUpdate.linkedinCredentials := Some credentials;
                     UserUpdate.indeedCredentials := None |} in
  let indeed := {| UserUpdate.linkedinCredentials := None;
                   UserUpdate.indeedCredentials := Some credentials |} in
  (MemStorage.getUser s id = None ->
   MemStorage.updateUser s id linkedin = (None, s)
   /\ MemStorage.updateUser s id indeed = (None, s))
  /\ (forall user,
        MemStorage.getUser s id = Some user ->
        (exists user',
           MemStorage.getUser (snd (MemStorage.updateUser s id linkedin)) id = Some user'
           /\ (forall platform,
                 JobServiceFactory.toLowerCase platform = "linkedin"%string ->
                 Handlers.platformCredentials user' platform = Some credentials)
           /\ (forall platform,
                 JobServiceFactory.toLowerCase platform = "indeed"%string ->
                 Handlers.platformCredentials user' platform
                 = Handlers.platformCredentials user platform))
        /\ (exists user',
              MemStorage.getUser (snd (MemStorage.updateUser s id indeed)) id = Some user'
              /\ (forall platform,
                    JobServiceFactory.toLowerCase platform = "indeed"%string ->
                    Handlers.platformCredentials user' platform = Some credentials)
              /\ (forall platform,
                    JobServiceFactory.toLowerCase platform = "linkedin"%string ->
                    Handlers.platformCredentials user' platform
                    = Handlers.platformCredentials user platform))
        /\ (forall u k, k <> id ->
              MemStorage.getUser (snd (MemStorage.updateUser s id u)) k
              = MemStorage.getUser s k)
        /\ (forall u,
              MemStorage.jobListings (snd (MemStorage.updateUser s id u))
              = MemStorage.jobListings s
              /\ MemStorage.applications (snd (MemStorage.updateUser s id u))
                 = MemStorage.applications s
              /\ MemStorage.stats (snd (MemStorage.updateUser s id u))
                 = MemStorage.stats s)).
Proof.
  intros linkedin indeed. unfold MemStorage.getUser, MemStorage.updateUser.
  split.
  - intros H. now rewrite H.
  - intros user H. rewrite H. cbn [snd MemStorage.users].
    split; [|split; [|split]].
    + eexists. split; [apply JsMap_get_set_same|]. cbn. split.
      * intros platform Hp. unfold Handlers.platformCredentials. now rewrite Hp.
      * intros platform Hp. unfold Handlers.platformCredentials. now rewrite Hp.
    + eexists. split; [apply JsMap_get_set_same|]. cbn. split.
      * intros platform Hp. unfold Handlers.platformCredentials. now rewrite Hp.
      * intros platform Hp. unfold Handlers.platformCredentials. now rewrite Hp.
    + intros u k Hk. apply JsMap_get_set_other. congruence.
    + intros u. repeat split.
Qed.

(** User 1 of the sample store replaces the LinkedIn credentials. *)
Lemma updateUser_credentials_witness :
  exists user',
    MemStorage.getUser
      (snd (MemStorage.updateUser Examples.store1 1
              {| UserUpdate.linkedinCredentials :=
                   Some (Obj [("accessToken", Str "new")]);
                 UserUpdate.indeedCredentials := None |})) 1 = Some user'
    /\ Handlers.platformCredentials user' "LinkedIn"
       = Some (Obj [("accessToken", Str "new")]).
Proof.
  destruct (proj1 (proj2 (updateUser_credentials Examples.store1 1
                            (Obj [("accessToken", Str "new")]))
                     Examples.user1 eq_refl))
    as (user' & Hget & Hl & _).
  exists user'. split; [exact Hget|]. apply Hl. reflexivity.
Defined.

(* ===================================================================== *)
(** * Further properties of the handlers *)
(* ===================================================================== *)

Section ApplyMore.
Import Routes Handlers.

(** What is left of [apply_try] once the request has passed validation and
    the adapter has the capability. *)
Lemma apply_try_validated (E : env) (req : ApplyRequest.t) (w : world)
    (credentials' : value) (jobListing : JobListing.t)
    (service : JobPlatformService.t)
    (applyToJob : Z -> Http.network -> value -> value -> ApplyPayload.t ->
                  res ApplyResult.t) :
  validated E req w credentials' jobListing ->
  JobServiceFactory.getService (services E) (ApplyRequest.platform req)
  = Some (JobServiceFactory.Service service) ->
  JobPlatformService.applyToJob service = Some applyToJob ->
  let w2 := {| store := store w;
               trace := (trace w ++ [GetUser (ApplyRequest.userId req)])
                        ++ [GetJobListing (ApplyRequest.jobId req)] |} in
  apply_try E req w =
  if negb (JobPlatformService.hasValidCredentials service (now E) credentials')
  then (inr {| status := 401;
               json := Message (invalidCredentialsMessage (ApplyRequest.platform req)) |},
        w2)
  else
    match applyToJob (now E) (net E) credentials' (JobListing.externalId jobListing)
            {| ApplyPayload.resumeId := ApplyRequest.resumeId req;
               ApplyPayload.coverId := ApplyRequest.coverId req;
               ApplyPayload.customMessage := ApplyRequest.customMessage req |} with
    | inl e => (inl e, w2)
    | inr result =>
        if ApplyResult.success result
        then record_apply E (ApplyRequest.userId req) (ApplyRequest.jobId req)
               jobListing result w2
        else (inr {| status := 400;
                     json := ApplyBody false
                               (ApplyResult.message result
                                ||| Str "Failed to submit application") None |},
              w2)
    end.
Proof.
  intros (Hu & Hp & Hj & Hf0 & Hf1 & user & credentials & Huser & Hcred & Ht & Hc & Hl)
         Hsvc Hcap w2.
  unfold apply_try.
  apply Z.eqb_neq in Hu. apply Z.eqb_neq in Hj. apply String.eqb_neq in Hp.
  rewrite Hu, Hp, Hj. cbn [orb].
  unfold io_bind, storage_read, storage_call, reply, io_ret, lift.
  rewrite Hf0, Huser, Hcred, Ht. cbn [negb]. rewrite Hc.
  cbn [trace store]. rewrite length_snoc, Hf1, Hl, Hsvc, Hcap.
  destruct (negb _); [reflexivity|].
  destruct (applyToJob _ _ _ _ _) as [e|result]; [reflexivity|].
  destruct (ApplyResult.success result); reflexivity.
Qed.

End ApplyMore.

(** X19. A successful apply, end to end: for a validated request whose
    adapter accepts the application, with no rejected storage call, the
    handler answers 200 with the new Application, exactly that Application
    has been appended, the target listing is flagged, and the user's
    statistics row has its total incremented by one and its timestamp set,
    every other statistics row being left alone. *)
Theorem apply_records_success
    (E : Routes.env) (req : Handlers.ApplyRequest.t) (w : Routes.world)
    (credentials' : value) (jobListing : JobListing.t)
    (service : JobPlatformService.t)
    (applyToJob : Z -> Http.network -> value -> value -> ApplyPayload.t ->
                  res ApplyResult.t)
    (result : ApplyResult.t) (stats : Stat.t) :
  Handlers.validated E req w credentials' jobListing ->
  JobServiceFactory.getService (Routes.services E) (Handlers.ApplyRequest.platform req)
  = Some (JobServiceFactory.Service service) ->
  JobPlatformService.applyToJob service = Some applyToJob ->
  JobPlatformService.hasValidCredentials service (Routes.now E) credentials' = true ->
  applyToJob (Routes.now E) (Routes.net E) credentials'
    (JobListing.externalId jobListing)
    {| ApplyPayload.resumeId := Handlers.ApplyRequest.resumeId req;
       ApplyPayload.coverId := Handlers.ApplyRequest.coverId req;
       ApplyPayload.customMessage := Handlers.ApplyRequest.customMessage req |}
  = inr result ->
  ApplyResult.success result = true ->
  (forall n, Routes.faults E n = None) ->
  MemStorage.wf (Routes.store w) ->
  MemStorage.getUserStats (Routes.store w) (Handlers.ApplyRequest.userId req)
  = Some stats ->
  JsMap.get (MemStorage.stats (Routes.store w)) (Stat.id stats) = Some stats ->
  let application :=
    {| Application.id := MemStorage.applicationIdCounter (Routes.store w);
       Application.fields :=
         Handlers.insertApplication E (Handlers.ApplyRequest.userId req) jobListing;
       Application.createdAt := Routes.now E;
       Application.updatedAt := Routes.now E |} in
  exists w',
    Handlers.apply E req w
    = (inr {| Handlers.status := 200;
              Handlers.json :=
                Handlers.ApplyBody true
                  (ApplyResult.message result
                   ||| Str "Application submitted successfully")
                  (Some application) |}, w')
    /\ MemStorage.applications (Routes.store w')
       = MemStorage.applications (Routes.store w)
         ++ [(MemStorage.applicationIdCounter (Routes.store w), application)]
    /\ MemStorage.getJobListing (Routes.store w') (Handlers.ApplyRequest.jobId req)
       = Some (MemStorage.setApplied jobListing)
    /\ JsMap.get (MemStorage.stats (Routes.store w')) (Stat.id stats)
       = Some {| Stat.id := Stat.id stats;
                 Stat.userId := Stat.userId stats;
                 Stat.timestamp := Routes.now E;
                 Stat.totalApplications := Stat.totalApplications stats + 1;
                 Stat.interviewRate := Stat.interviewRate stats;
                 Stat.avgResponseTime := Stat.avgResponseTime stats;
                 Stat.aiGeneratedDocs := Stat.aiGeneratedDocs stats |}
    /\ (forall k, k <> Stat.id stats ->
        JsMap.get (MemStorage.stats (Routes.store w')) k
        = JsMap.get (MemStorage.stats (Routes.store w)) k)
    /\ MemStorage.users (Routes.store w') = MemStorage.users (Routes.store w).
Proof.
  intros Hv Hsvc Hcap Hvalid Hres Hok Hfaults Hwf Hstats Hrow application.
  unfold Handlers.apply, Routes.io_try.
  rewrite (apply_try_validated E req w credentials' jobListing service applyToJob
             Hv Hsvc Hcap).
  rewrite Hvalid, Hres, Hok. cbn [negb].
  destruct Hv as (_ & _ & _ & _ & _ & _ & _ & _ & _ & _ & _ & Hl).
  unfold MemStorage.getJobListing in Hl.
  unfold Handlers.record_apply, Routes.io_bind, Routes.storage_read,
    Routes.storage_call, Handlers.reply, Routes.io_ret.
  rewrite !Hfaults.
  unfold MemStorage.markJobListingAsApplied, MemStorage.createApplication,
    MemStorage.getUserStats, MemStorage.updateUserStats in *.
  cbn [Routes.store Routes.trace MemStorage.users MemStorage.applications
       MemStorage.jobListings MemStorage.stats MemStorage.applicationIdCounter
       MemStorage.jobListingIdCounter].
  rewrite Hl.
  repeat progress
    (rewrite ?Hfaults;
     cbn [Routes.store Routes.trace MemStorage.users MemStorage.applications
          MemStorage.jobListings MemStorage.stats MemStorage.applicationIdCounter
          MemStorage.jobListingIdCounter]).
  rewrite Hstats.
  repeat progress
    (rewrite ?Hfaults;
     cbn [Routes.store Routes.trace MemStorage.users MemStorage.applications
          MemStorage.jobListings MemStorage.stats MemStorage.applicationIdCounter
          MemStorage.jobListingIdCounter]).
  rewrite Hrow.
  cbn [Routes.store Routes.trace MemStorage.users MemStorage.applications
       MemStorage.jobListings MemStorage.stats MemStorage.applicationIdCounter
       MemStorage.jobListingIdCounter].
  eexists. split; [reflexivity|].
  cbn [Routes.store MemStorage.applications MemStorage.stats MemStorage.users
       MemStorage.jobListings].
  split; [apply (applications_fresh _ _ Hwf)|].
  split; [unfold MemStorage.getJobListing; cbn [MemStorage.jobListings];
          apply JsMap_get_set_same|].
  split; [apply JsMap_get_set_same|].
  split; [intros k Hk; apply JsMap_get_set_other; congruence|reflexivity].
Qed.

(** User 1 applies to the stored LinkedIn listing; LinkedIn accepts. *)
Lemma apply_records_success_witness :
  exists w',
    fst (Handlers.apply (Examples.environment (Obj [("id", Str "app-9")]) [])
           (Examples.applyTo "linkedin" 2) Examples.world1)
    = inr {| Handlers.status := 200;
             Handlers.json :=
               Handlers.ApplyBody true (Str "Application submitted")
                 (Some {| Application.id := 1;
                          Application.fields :=
                            Handlers.insertApplication
                              (Examples.environment (Obj [("id", Str "app-9")]) [])
                              1 Examples.storedLinkedInJob;
                          Application.createdAt := 5000;
                          Application.updatedAt := 5000 |}) |}
    /\ JsMap.get (MemStorage.stats (Routes.store w')) 1
       = Some {| Stat.id := 1; Stat.userId := 1; Stat.timestamp := 5000;
                 Stat.totalApplications := 4; Stat.interviewRate := 0;
                 Stat.avgResponseTime := 0; Stat.aiGeneratedDocs := 0 |}.
Proof.
  assert (Hwf : MemStorage.wf Examples.store1) by (split; repeat constructor).
  assert (Hv : Handlers.validated
                 (Examples.environment (Obj [("id", Str "app-9")]) [])
                 (Examples.applyTo "linkedin" 2) Examples.world1
                 (spread_with Examples.linkedinCredentials "userId" (Num 1))
                 Examples.storedLinkedInJob).
  { unfold Handlers.validated. simpl. repeat split; try discriminate.
    exists Examples.user1, Examples.linkedinCredentials. repeat split. }
  destruct (apply_records_success
              (Examples.environment (Obj [("id", Str "app-9")]) [])
              (Examples.applyTo "linkedin" 2) Examples.world1
              (spread_with Examples.linkedinCredentials "userId" (Num 1))
              Examples.storedLinkedInJob LinkedInService.service
              LinkedInService.applyToJob Examples.submitted Examples.stat1
              Hv eq_refl eq_refl eq_refl eq_refl eq_refl (fun n => eq_refl)
              Hwf eq_refl eq_refl)
    as (w' & Hrun & _ & _ & Hstat & _).
  exists w'. split; [now rewrite Hrun|exact Hstat].
Defined.

(** X20. An apply that the adapter does not carry out writes nothing.  For a
    validated request: invalid credentials are answered 401; a failure
    result of the adapter is answered 400 with the adapter's message, word
    for word when it is non-empty; an adapter that raises is answered 500;
    in all three cases the store is as before. *)
Theorem apply_rejections
    (E : Routes.env) (req : Handlers.ApplyRequest.t) (w : Routes.world)
    (credentials' : value) (jobListing : JobListing.t)
    (service : JobPlatformService.t)
    (applyToJob : Z -> Http.network -> value -> value -> ApplyPayload.t ->
                  res ApplyResult.t) :
  Handlers.validated E req w credentials' jobListing ->
  JobServiceFactory.getService (Routes.services E) (Handlers.ApplyRequest.platform req)
  = Some (JobServiceFactory.Service service) ->
  JobPlatformService.applyToJob service = Some applyToJob ->
  let outcome :=
    applyToJob (Routes.now E) (Routes.net E) credentials'
      (JobListing.externalId jobListing)
      {| ApplyPayload.resumeId := Handlers.ApplyRequest.resumeId req;
         ApplyPayload.coverId := Handlers.ApplyRequest.coverId req;
         ApplyPayload.customMessage := Handlers.ApplyRequest.customMessage req |} in
  let valid :=
    JobPlatformService.hasValidCredentials service (Routes.now E) credentials' in
  (valid = false ->
   exists w',
     Handlers.apply E req w
     = (inr {| Handlers.status := 401;
               Handlers.json :=
                 Handlers.Message
                   (Handlers.invalidCredentialsMessage
                      (Handlers.ApplyRequest.platform req)) |}, w')
     /\ Routes.store w' = Routes.store w)
  /\ (forall result,
        valid = true -> outcome = inr result -> ApplyResult.success result = false ->
        exists m w',
          Handlers.apply E req w
          = (inr {| Handlers.status := 400;
                    Handlers.json := Handlers.ApplyBody false m None |}, w')
          /\ Routes.store w' = Routes.store w
          /\ truthy m = true
          /\ (truthy (ApplyResult.message result) = true ->
              m = ApplyResult.message result))
  /\ (forall e,
        valid = true -> outcome = inl e ->
        exists w',
          Handlers.apply E req w
          = (inr {| Handlers.status := 500;
                    Handlers.json := Handlers.Message "Failed to apply to job" |}, w')
          /\ Routes.store w' = Routes.store w).
Proof.
  intros Hv Hsvc Hcap outcome valid.
  unfold Handlers.apply, Routes.io_try.
  rewrite (apply_try_validated E req w credentials' jobListing service applyToJob
             Hv Hsvc Hcap).
  fold outcome. fold valid.
  split; [|split].
  - intros ->. cbn [negb]. eexists. split; reflexivity.
  - intros result -> -> ->. cbn [negb]. eexists _, _.
    split; [reflexivity|]. split; [reflexivity|].
    unfold or_else. destruct (truthy (ApplyResult.message result)) eqn:Ht.
    + split; [exact Ht|reflexivity].
    + split; [reflexivity|discriminate].
  - intros e -> ->. cbn [negb]. eexists. split; reflexivity.
Qed.

(** LinkedIn is unreachable: the adapter reports the failure and the
    handler relays its message. *)
Lemma apply_rejections_witness :
  exists w',
    Handlers.apply
      {| Routes.now := 5000;
         Routes.net := fun _ => Http.Rejected "Request failed with status code 503";
         Routes.JSON_parse := fun _ => inl (Error "Unexpected end of JSON input");
         Routes.services := JobServiceFactory.services;
         Routes.faults := fun _ => None |}
      (Examples.applyTo "linkedin" 2) Examples.world1
    = (inr {| Handlers.status := 400;
              Handlers.json :=
                Handlers.ApplyBody false
                  (Str "Request failed with status code 503") None |}, w')
    /\ Routes.store w' = Examples.store1.
Proof.
  set (E := {| Routes.now := 5000;
               Routes.net := fun _ => Http.Rejected "Request failed with status code 503";
               Routes.JSON_parse := fun _ => inl (Error "Unexpected end of JSON input");
               Routes.services := JobServiceFactory.services;
               Routes.faults := fun _ => None |}).
  assert (Hv : Handlers.validated E (Examples.applyTo "linkedin" 2) Examples.world1
                 (spread_with Examples.linkedinCredentials "userId" (Num 1))
                 Examples.storedLinkedInJob).
  { unfold Handlers.validated. simpl. repeat split; try discriminate.
    exists Examples.user1, Examples.linkedinCredentials. repeat split. }
  destruct (proj1 (proj2 (apply_rejections E (Examples.applyTo "linkedin" 2)
                            Examples.world1 _ _ LinkedInService.service
                            LinkedInService.applyToJob Hv eq_refl eq_refl))
              {| ApplyResult.success := false;
                 ApplyResult.message := Str "Request failed with status code 503";
                 ApplyResult.applicationId := Undefined |}
              eq_refl eq_refl eq_refl)
    as (m & w' & Hrun & Hstore & _ & Hm).
  rewrite (Hm eq_refl) in Hrun. exists w'. split; [exact Hrun|exact Hstore].
Defined.

Section SearchTwice.
Import Routes Handlers Invariants.

Variable E : env.
Variable userId : Z.
Hypothesis no_faults : forall n, faults E n = None.

(** With no rejected call, a batch whose jobs belong to the user and carry
    primitive external ids leaves every job's key resolving to the row
    returned for it. *)
Lemma saveJobs_resolves (jobs : list JobListing.t) :
  Forall (fun job =>
            JobListing.userId job = Num userId
            /\ strict_eq (JobListing.externalId job) (JobListing.externalId job) = true)
         jobs ->
  forall (acc : list JobListing.t) (w : world),
    MemStorage.wf (store w) ->
    exists saved w',
      saveJobs E userId jobs acc w = (inr (acc ++ saved), w')
      /\ MemStorage.wf (store w')
      /\ (forall ext e,
            MemStorage.getJobListingByExternalId (store w) userId ext = Some e ->
            MemStorage.getJobListingByExternalId (store w') userId ext = Some e)
      /\ Forall2
           (fun job row =>
              MemStorage.getJobListingByExternalId (store w') userId
                (JobListing.externalId job) = Some row)
           jobs saved.
Proof.
  induction 1 as [|job rest [Hu Hx] _ IH]; intros acc w Hwf; simpl.
  - exists [], w. rewrite app_nil_r.
    split; [reflexivity|]. split; [exact Hwf|]. split; [auto|constructor].
  - unfold io_bind. rewrite saveJob_cases. cbv zeta. rewrite !no_faults.
    destruct (MemStorage.getJobListingByExternalId (store w) userId
                (JobListing.externalId job)) as [existing|] eqn:Hfind.
    + destruct (IH (acc ++ [existing])
                  {| store := store w;
                     trace := trace w ++ [GetJobListingByExternalId userId
                                            (JobListing.externalId job)] |} Hwf)
        as (saved & w' & Hrun & Hwf' & Hkeep & HF).
      exists (existing :: saved), w'. rewrite Hrun, <- app_assoc.
      split; [reflexivity|]. split; [exact Hwf'|]. split; [exact Hkeep|].
      constructor; [|exact HF]. now apply Hkeep.
    + destruct (createJobListing_appends (now E) (store w) job Hwf) as [Hg Hwf1].
      pose proof (createJobListing_resolves (now E) (store w) job userId
                    Hwf Hu Hx Hfind) as Hnew.
      destruct (IH (acc ++ [fst (MemStorage.createJobListing (now E) (store w) job)])
                  {| store := snd (MemStorage.createJobListing (now E) (store w) job);
                     trace := (trace w ++ [GetJobListingByExternalId userId
                                             (JobListing.externalId job)])
                              ++ [CreateJobListing job] |} Hwf1)
        as (saved & w' & Hrun & Hwf' & Hkeep & HF).
      eexists (_ :: saved), w'. rewrite Hrun, <- app_assoc.
      split; [reflexivity|]. split; [exact Hwf'|]. split.
      * intros ext e He. apply Hkeep. cbn [store].
        eapply grows_lookup; eauto.
      * constructor; [|exact HF]. apply Hkeep. exact Hnew.
Qed.

(** With no rejected call, a batch all of whose keys resolve is answered
    with the resolved rows and writes nothing. *)
Lemma saveJobs_hits (jobs : list JobListing.t) (rows : list JobListing.t) :
  forall (acc : list JobListing.t) (w : world),
    Forall2
      (fun job row =>
         MemStorage.getJobListingByExternalId (store w) userId
           (JobListing.externalId job) = Some row)
      jobs rows ->
    exists w',
      saveJobs E userId jobs acc w = (inr (acc ++ rows), w')
      /\ store w' = store w.
Proof.
  revert rows. induction jobs as [|job rest IH]; intros rows acc w HF;
    inversion HF as [|j r js rs Hhit Hrest]; subst; simpl.
  - exists w. now rewrite app_nil_r.
  - unfold io_bind. rewrite saveJob_cases. cbv zeta. rewrite no_faults, Hhit.
    destruct (IH rs (acc ++ [r])
                {| store := store w;
                   trace := trace w ++ [GetJobListingByExternalId userId
                                          (JobListing.externalId job)] |} Hrest)
      as (w' & Hrun & Hstore).
    exists w'. rewrite Hrun, <- app_assoc. split; [reflexivity|exact Hstore].
Qed.

End SearchTwice.

(** X21. Ingestion is idempotent: when no storage call is rejected and the
    fetched jobs belong to the searching user and carry primitive external
    ids, running the persistence loop a second time on the same batch
    returns the very same rows, ids included, and writes nothing; each run
    returns one row per job. *)
Theorem saveJobs_idempotent
    (E : Routes.env) (userId : Z) (jobs : list JobListing.t) (w : Routes.world) :
  MemStorage.wf (Routes.store w) ->
  (forall n, Routes.faults E n = None) ->
  Forall (fun job =>
            JobListing.userId job = Num userId
            /\ strict_eq (JobListing.externalId job) (JobListing.externalId job) = true)
         jobs ->
  exists saved w1 w2,
    Handlers.saveJobs E userId jobs [] w = (inr saved, w1)
    /\ Handlers.saveJobs E userId jobs [] w1 = (inr saved, w2)
    /\ Routes.store w2 = Routes.store w1
    /\ List.length saved = List.length jobs.
Proof.
  intros Hwf Hok Hjobs.
  destruct (saveJobs_resolves E userId Hok jobs Hjobs [] w Hwf)
    as (saved & w1 & Hrun1 & _ & _ & HF).
  destruct (saveJobs_hits E userId Hok jobs saved [] w1 HF) as (w2 & Hrun2 & Hstore).
  exists saved, w1, w2. simpl in Hrun1, Hrun2.
  split; [exact Hrun1|]. split; [exact Hrun2|]. split; [exact Hstore|].
  symmetry. eapply List.Forall2_length; eauto.
Qed.

(** Two fetched jobs ingested twice into the sample store. *)
Lemma saveJobs_idempotent_witness :
  exists saved w1 w2,
    Handlers.saveJobs (Examples.environment Null []) 1
      [Examples.fetchedLinkedInJob; Examples.storedIndeedJob] [] Examples.world1
    = (inr saved, w1)
    /\ Handlers.saveJobs (Examples.environment Null []) 1
         [Examples.fetchedLinkedInJob; Examples.storedIndeedJob] [] w1
       = (inr saved, w2)
    /\ Routes.store w2 = Routes.store w1.
Proof.
  assert (Hwf : MemStorage.wf Examples.store1) by (split; repeat constructor).
  destruct (saveJobs_idempotent (Examples.environment Null []) 1
              [Examples.fetchedLinkedInJob; Examples.storedIndeedJob]
              Examples.world1 Hwf (fun n => eq_refl)
              ltac:(repeat constructor))
    as (saved & w1 & w2 & H1 & H2 & H3 & _).
  exists saved, w1, w2. auto.
Defined.

(** X22. Whatever storage calls are rejected, the persistence loop returns
    at most one row per fetched job, and only rows that are in the store
    when it ends: a job is never reported back without being persisted. *)
Theorem saveJobs_returns_stored_rows
    (E : Routes.env) (userId : Z) (jobs : list JobListing.t) (w : Routes.world) :
  MemStorage.wf (Routes.store w) ->
  exists saved w',
    Handlers.saveJobs E userId jobs [] w = (inr saved, w')
    /\ (List.length saved <= List.length jobs)%nat
    /\ Forall (fun row =>
                 In row (JsMap.values (MemStorage.jobListings (Routes.store w'))))
              saved.
Proof.
  intros Hwf.
  destruct (saveJobs_steps E userId jobs [] w Hwf)
    as (saved & w' & added & Hrun & Hg & _ & _ & Hs).
  simpl in Hrun. exists saved, w'. split; [exact Hrun|]. split.
  - clear Hg Hs added. revert w Hwf saved w' Hrun.
    assert (Hgen : forall acc w, MemStorage.wf (Routes.store w) ->
              forall saved w',
                Handlers.saveJobs E userId jobs acc w = (inr saved, w') ->
                (List.length saved <= List.length acc + List.length jobs)%nat).
    { induction jobs as [|job rest IH]; intros acc w Hwf saved w' Hrun; simpl in *.
      - injection Hrun as <- _. lia.
      - unfold Routes.io_bind in Hrun.
        destruct (saveJob_step E userId job acc w Hwf)
          as (s1 & w1 & a1 & H1 & _ & Hwf1 & _ & _).
        rewrite H1 in Hrun. specialize (IH _ _ Hwf1 _ _ Hrun).
        rewrite saveJob_cases in H1. cbv zeta in H1.
        assert (List.length (acc ++ s1) <= S (List.length acc))%nat.
        { destruct (Routes.faults E _); [injection H1 as H1 _|].
          - apply (f_equal (@List.length _)) in H1. lia.
          - destruct (MemStorage.getJobListingByExternalId _ _ _);
              [injection H1 as H1 _|].
            + apply (f_equal (@List.length _)) in H1.
              rewrite !List.length_app in *. simpl in *. lia.
            + destruct (Routes.faults E _); injection H1 as H1 _;
                apply (f_equal (@List.length _)) in H1;
                rewrite ?List.length_app in *; simpl in *; lia. }
        lia. }
    intros w Hwf saved w' Hrun. specialize (Hgen [] w Hwf saved w' Hrun).
    simpl in Hgen. exact Hgen.
  - eapply List.Forall_impl; [|exact Hs]. simpl. intros row [[ext He]|Hin].
    + unfold MemStorage.getJobListingByExternalId in He.
      now apply List.find_some in He.
    + destruct Hg as [Hg _]. rewrite Hg, JsMap_values_app.
      apply List.in_or_app. now right.
Qed.

(** The sample batch when the insertion of the new job is rejected. *)
Lemma saveJobs_returns_stored_rows_witness :
  exists saved w',
    Handlers.saveJobs (Examples.environment Null [1%nat]) 1
      [{| JobListing.id := 0; JobListing.userId := Num 1;
          JobListing.source := "LinkedIn"; JobListing.externalId := Str "99";
          JobListing.title := Str "Designer"; JobListing.company := Str "Hooli";
          JobListing.location := Null; JobListing.description := Null;
          JobListing.salary := Null;
          JobListing.url := Str "https://www.linkedin.com/jobs/view/99";
          JobListing.isRemote := Null; JobListing.postedAt := None;
          JobListing.savedAt := 5000; JobListing.applied := false;
          JobListing.hidden := false; JobListing.details := Obj [] |}]
      [] Examples.world1 = (inr saved, w')
    /\ (List.length saved <= 1)%nat.
Proof.
  assert (Hwf : MemStorage.wf Examples.store1) by (split; repeat constructor).
  destruct (saveJobs_returns_stored_rows (Examples.environment Null [1%nat]) 1
              [{| JobListing.id := 0; JobListing.userId := Num 1;
                  JobListing.source := "LinkedIn"; JobListing.externalId := Str "99";
                  JobListing.title := Str "Designer"; JobListing.company := Str "Hooli";
                  JobListing.location := Null; JobListing.description := Null;
                  JobListing.salary := Null;
                  JobListing.url := Str "https://www.linkedin.com/jobs/view/99";
                  JobListing.isRemote := Null; JobListing.postedAt := None;
                  JobListing.savedAt := 5000; JobListing.applied := false;
                  JobListing.hidden := false; JobListing.details := Obj [] |}]
              Examples.world1 Hwf) as (saved & w' & Hrun & Hlen & _).
  exists saved, w'. split; [exact Hrun|exact Hlen].
Defined.

Section DetailsHandler.
Import Routes Handlers.

(** What is left of [jobDetails_try] once the request has passed
    validation. *)
Lemma jobDetails_try_validated (E : env) (req : DetailsRequest.t) (w : world)
    (userId : Z) (credentials' : value) (service : JobPlatformService.t) :
  details_validated E req w userId credentials' service ->
  let externalId := DetailsRequest.externalId req in
  let lookup := GetJobListingByExternalId userId (Str externalId) in
  let w2 := {| store := store w; trace := (trace w ++ [GetUser userId]) ++ [lookup] |} in
  jobDetails_try E req w =
  match MemStorage.getJobListingByExternalId (store w) userId (Str externalId) with
  | Some jobListing =>
      (inr {| details_status := 200; details_json := DetailsListing jobListing |}, w2)
  | None =>
      match JobPlatformService.getJobDetails service (now E) (net E)
              credentials' externalId with
      | inl e => (inl e, w2)
      | inr None =>
          (inr {| details_status := 404;
                  details_json := DetailsMessage "Job not found on platform" |}, w2)
      | inr (Some jobDetails) =>
          match faults E (S (S (List.length (trace w)))) with
          | Some m =>
              (inl (Error m),
               {| store := store w;
                  trace := trace w2 ++ [CreateJobListing jobDetails] |})
          | None =>
              (inr {| details_status := 200;
                      details_json :=
                        DetailsListing
                          (fst (MemStorage.createJobListing (now E) (store w)
                                  jobDetails)) |},
               {| store := snd (MemStorage.createJobListing (now E) (store w)
                                  jobDetails);
                  trace := trace w2 ++ [CreateJobListing jobDetails] |})
          end
      end
  end.
Proof.
  intros (Hu & Hp & Hx & Hf0 & Hf1 & Hsvc & Hvalid & user & credentials
          & Huser & Hcred & Ht & Hc) externalId lookup w2.
  unfold jobDetails_try. rewrite Hu.
  apply String.eqb_neq in Hp. apply String.eqb_neq in Hx.
  rewrite Hp, Hx. cbn [orb].
  unfold io_bind, storage_read, storage_call, details_reply, io_ret, lift.
  rewrite Hf0, Huser, Hcred, Ht. cbn [negb]. rewrite Hc, Hsvc, Hvalid.
  cbn [negb trace store]. rewrite length_snoc, Hf1.
  fold externalId.
  destruct (MemStorage.getJobListingByExternalId (store w) userId (Str externalId));
    [reflexivity|].
  destruct (JobPlatformService.getJobDetails service (now E) (net E) credentials'
              externalId) as [e|[jobDetails|]]; [reflexivity| |reflexivity].
  cbn [trace store]. rewrite !length_snoc.
  destruct (faults E (S (S (List.length (trace w))))); reflexivity.
Qed.

End DetailsHandler.

(** X23. The job-details handler serves a stored listing from the store:
    for a validated request whose (user, externalId) key is stored, the
    answer is the stored row, nothing is written, and the platform is not
    consulted (the answer is the same for every network).  When the key is
    not stored, the adapter decides: [null] is answered 404, an adapter that
    raises is answered 500, both without a write; a listing is handed to
    [createJobListing], the row this call returns is the answer and the
    store is as the call leaves it, or the answer is 500 without a write
    when the call is rejected. *)
Theorem jobDetails_outcomes
    (E : Routes.env) (req : Handlers.DetailsRequest.t) (w : Routes.world)
    (userId : Z) (credentials' : value) (service : JobPlatformService.t) :
  Handlers.details_validated E req w userId credentials' service ->
  let externalId := Handlers.DetailsRequest.externalId req in
  let stored :=
    MemStorage.getJobListingByExternalId (Routes.store w) userId (Str externalId) in
  let fetched :=
    JobPlatformService.getJobDetails service (Routes.now E) (Routes.net E)
      credentials' externalId in
  (forall jobListing,
     stored = Some jobListing ->
     forall net',
       exists w',
         Handlers.jobDetails
           {| Routes.now := Routes.now E; Routes.net := net';
              Routes.JSON_parse := Routes.JSON_parse E;
              Routes.services := Routes.services E;
              Routes.faults := Routes.faults E |} req w
         = (inr {| Handlers.details_status := 200;
                   Handlers.details_json := Handlers.DetailsListing jobListing |}, w')
         /\ Routes.store w' = Routes.store w)
  /\ (stored = None -> fetched = inr None ->
      exists w',
        Handlers.jobDetails E req w
        = (inr {| Handlers.details_status := 404;
                  Handlers.details_json :=
                    Handlers.DetailsMessage "Job not found on platform" |}, w')
        /\ Routes.store w' = Routes.store w)
  /\ (forall e, stored = None -> fetched = inl e ->
      exists w',
        Handlers.jobDetails E req w
        = (inr {| Handlers.details_status := 500;
                  Handlers.details_json :=
                    Handlers.DetailsMessage "Failed to fetch job details" |}, w')
        /\ Routes.store w' = Routes.store w)
  /\ (forall jobDetails, stored = None -> fetched = inr (Some jobDetails) ->
      (Routes.faults E (S (S (List.length (Routes.trace w)))) = None ->
       exists w',
         Handlers.jobDetails E req w
         = (inr {| Handlers.details_status := 200;
                   Handlers.details_json :=
                     Handlers.DetailsListing
                       (fst (MemStorage.createJobListing (Routes.now E)
                               (Routes.store w) jobDetails)) |}, w')
         /\ Routes.store w'
            = snd (MemStorage.createJobListing (Routes.now E) (Routes.store w)
                     jobDetails))
      /\ (Routes.faults E (S (S (List.length (Routes.trace w)))) <> None ->
          exists w',
            Handlers.jobDetails E req w
            = (inr {| Handlers.details_status := 500;
                      Handlers.details_json :=
                        Handlers.DetailsMessage "Failed to fetch job details" |}, w')
            /\ Routes.store w' = Routes.store w)).
Proof.
  intros Hv externalId stored fetched.
  split; [|split; [|split]].
  - intros jobListing Hs net'.
    unfold Handlers.jobDetails, Routes.io_try.
    rewrite (jobDetails_try_validated
               {| Routes.now := Routes.now E; Routes.net := net';
                  Routes.JSON_parse := Routes.JSON_parse E;
                  Routes.services := Routes.services E;
                  Routes.faults := Routes.faults E |}
               req w userId credentials' service Hv).
    cbn [Routes.store]. fold externalId. fold stored. rewrite Hs.
    eexists. split; reflexivity.
  - intros Hs Hf. unfold Handlers.jobDetails, Routes.io_try.
    rewrite (jobDetails_try_validated E req w userId credentials' service Hv).
    fold externalId. fold stored. fold fetched. rewrite Hs, Hf.
    eexists. split; reflexivity.
  - intros e Hs Hf. unfold Handlers.jobDetails, Routes.io_try.
    rewrite (jobDetails_try_validated E req w userId credentials' service Hv).
    fold externalId. fold stored. fold fetched. rewrite Hs, Hf.
    eexists. split; reflexivity.
  - intros jobDetails Hs Hf. split; intros Hfault;
      unfold Handlers.jobDetails, Routes.io_try;
      rewrite (jobDetails_try_validated E req w userId credentials' service Hv);
      fold externalId; fold stored; fold fetched; rewrite Hs, Hf.
    + rewrite Hfault. eexists. split; reflexivity.
    + destruct (Routes.faults E _); [|congruence].
      eexists. split; reflexivity.
Qed.

(** User 1 asks for the details of the stored LinkedIn job "77" while
    LinkedIn is unreachable. *)
Lemma jobDetails_outcomes_witness :
  exists w',
    Handlers.jobDetails
      {| Routes.now := 5000;
         Routes.net := fun _ => Http.Rejected "timeout";
         Routes.JSON_parse := fun _ => inl (Error "Unexpected end of JSON input");
         Routes.services := JobServiceFactory.services;
         Routes.faults := fun _ => None |}
      (Examples.detailsOf "linkedin" "77") Examples.world1
    = (inr {| Handlers.details_status := 200;
              Handlers.details_json :=
                Handlers.DetailsListing Examples.storedLinkedInJob |}, w')
    /\ Routes.store w' = Examples.store1.
Proof.
  assert (Hv : Handlers.details_validated (Examples.environment Null [])
                 (Examples.detailsOf "linkedin" "77") Examples.world1 1
                 (spread_with Examples.linkedinCredentials "userId" (Num 1))
                 LinkedInService.service).
  { unfold Handlers.details_validated. simpl.
    repeat split; try discriminate.
    exists Examples.user1, Examples.linkedinCredentials. repeat split. }
  exact (proj1 (jobDetails_outcomes (Examples.environment Null [])
                  (Examples.detailsOf "linkedin" "77") Examples.world1 1 _ _ Hv)
           Examples.storedLinkedInJob eq_refl (fun _ => Http.Rejected "timeout")).
Defined.

Section SearchAnswers.
Import Routes Handlers.

Lemma saveJobs_total (E : env) (userId : Z) (jobs : list JobListing.t) :
  forall (acc : list JobListing.t) (w : world),
    exists saved w', saveJobs E userId jobs acc w = (inr saved, w').
Proof.
  induction jobs as [|job rest IH]; intros acc w; simpl.
  - now exists acc, w.
  - unfold io_bind. rewrite saveJob_cases. cbv zeta.
    destruct (faults E (List.length (trace w))); [apply IH|].
    destruct (MemStorage.getJobListingByExternalId _ _ _); [apply IH|].
    destruct (faults E _); apply IH.
Qed.

End SearchAnswers.

(** X24. The search handler always answers, and it answers 200 with a list
    of jobs or else 400, 401, 404 or 500 with a message; a search that is
    not answered 200 has written nothing to the store. *)
Theorem search_answers
    (E : Routes.env) (req : Handlers.SearchRequest.t) (w : Routes.world) :
  exists st b w',
    Handlers.search E req w
    = (inr {| Handlers.status := st; Handlers.json := b |}, w')
    /\ ((st = 200 /\ exists jobs hasMore total,
                       b = Handlers.SearchBody jobs hasMore total)
        \/ ((st = 400 \/ st = 401 \/ st = 404 \/ st = 500)
            /\ (exists m, b = Handlers.Message m)
            /\ Routes.store w' = Routes.store w)).
Proof.
  assert (Hfail : forall st m (w' : Routes.world),
            (st = 400 \/ st = 401 \/ st = 404 \/ st = 500) ->
            Routes.store w' = Routes.store w ->
            exists st0 b w'0,
              ((inr {| Handlers.status := st; Handlers.json := Handlers.Message m |}
                : res Handlers.response), w')
              = (inr {| Handlers.status := st0; Handlers.json := b |}, w'0)
              /\ ((st0 = 200 /\ exists jobs hasMore total,
                                  b = Handlers.SearchBody jobs hasMore total)
                  \/ ((st0 = 400 \/ st0 = 401 \/ st0 = 404 \/ st0 = 500)
                      /\ (exists m0, b = Handlers.Message m0)
                      /\ Routes.store w'0 = Routes.store w))).
  { intros st m w' Hst Hstore. exists st, (Handlers.Message m), w'.
    split; [reflexivity|]. right. split; [exact Hst|]. split; [now exists m|exact Hstore]. }
  unfold Handlers.search, Routes.io_try, Handlers.search_try.
  unfold Routes.io_bind, Routes.storage_read, Routes.storage_call, Handlers.reply,
    Routes.io_ret, Routes.lift, Routes.io_throw.
  destruct (Handlers.SearchRequest.userId req) as [userId|];
    [|apply Hfail; auto].
  destruct (String.eqb (Handlers.SearchRequest.platform req) EmptyString);
    [apply Hfail; auto|].
  destruct (Routes.faults E (List.length (Routes.trace w)));
    [apply Hfail; auto 6|].
  destruct (MemStorage.getUser (Routes.store w) userId) as [user|];
    [|apply Hfail; auto 6].
  destruct (Handlers.platformCredentials user (Handlers.SearchRequest.platform req))
    as [credentials|]; [|apply Hfail; auto].
  destruct (truthy credentials); cbn [negb]; [|apply Hfail; auto].
  destruct (Handlers.credentialsWithUserId E credentials userId) as [e|credentials'];
    [apply Hfail; auto 6|].
  destruct (JobServiceFactory.getService (Routes.services E)
              (Handlers.SearchRequest.platform req)) as [[service|k]|];
    [|apply Hfail; auto 6|apply Hfail; auto].
  destruct (JobPlatformService.hasValidCredentials service (Routes.now E) credentials');
    cbn [negb]; [|apply Hfail; auto 6].
  destruct (JobPlatformService.searchJobs service (Routes.now E) (Routes.net E)
              credentials' (Handlers.searchParams req userId)) as [e|result];
    [apply Hfail; auto 6|].
  match goal with
  | |- context [Handlers.saveJobs E userId ?jobs [] ?w0] =>
      destruct (saveJobs_total E userId jobs [] w0) as (saved & w' & Hrun)
  end.
  rewrite Hrun. eexists _, _, _. split; [reflexivity|].
  left. split; [reflexivity|]. now eexists _, _, _.
Qed.
